(** * PNW Herbaria corpus importer: a shallow embedding of [import_corpus.py]

    The development follows the layout of the Python module: the values and
    exceptions of the interpreter that the program relies on, the
    [TransformHelper] functions, the four record decoders ([dictify] of each
    handler), the generic [BaseHandler] ingestion loop over an external sink,
    and the [Validator].  Theorems about them come after the definitions.

    Conventions.
    - A Python [str] is a Rocq [string]; every [ascii] stands for one code
      point below 256, so the character tests are those of Latin-1 text.
    - A dictionary with string keys is a [gmap string _]; a Python set, and a
      dictionary keyed by arbitrary values, is keyed by [hkey v], the
      representative of [v] under Python's [==] and [hash].
    - Code that raises is written in an error monad ([result]); code that
      also mutates an object (the validator, the database connection) is
      written in a state-and-error monad in which the mutation made before an
      exception is kept. *)

From stdpp Require Import gmap strings list fin_maps pretty.
From Stdlib Require Import ZArith Ascii.

Local Open Scope string_scope.
Local Open Scope list_scope.
Local Open Scope Z_scope.

(** ** Values *)

(** The values a row mapping holds: [None], the booleans made by the loose
    boolean transform, the integer made by [int(...)] and raw strings. *)
Inductive pyval : Type :=
  | VNone
  | VBool (b : bool)
  | VInt (n : Z)
  | VStr (s : string).

Global Instance pyval_eq_dec : EqDecision pyval.
Proof. solve_decision. Defined.

Definition pyval_to_sum (v : pyval) : unit + (bool + (Z + string)) :=
  match v with
  | VNone => inl ()
  | VBool b => inr (inl b)
  | VInt n => inr (inr (inl n))
  | VStr s => inr (inr (inr s))
  end.

Definition pyval_of_sum (x : unit + (bool + (Z + string))) : pyval :=
  match x with
  | inl _ => VNone
  | inr (inl b) => VBool b
  | inr (inr (inl n)) => VInt n
  | inr (inr (inr s)) => VStr s
  end.

Global Instance pyval_countable : Countable pyval :=
  inj_countable' pyval_to_sum pyval_of_sum
    (λ v, match v with VNone | VBool _ | VInt _ | VStr _ => eq_refl end).

(** Python's [a == b] on these values: [bool] is a subclass of [int], so
    [True == 1]; values of different kinds are otherwise unequal. *)
Definition py_eqb (a b : pyval) : bool :=
  match a, b with
  | VNone, VNone => true
  | VBool x, VBool y => bool_decide (x = y)
  | VBool x, VInt n | VInt n, VBool x => bool_decide (Z.b2z x = n)
  | VInt n, VInt m => bool_decide (n = m)
  | VStr s, VStr t => bool_decide (s = t)
  | _, _ => false
  end.

(** The representative of a value as a set element or dictionary key. *)
Definition hkey (v : pyval) : pyval :=
  match v with
  | VBool b => VInt (Z.b2z b)
  | _ => v
  end.

(** [x in s] and [s.add(x)] for a Python set [s]. *)
Definition py_in (v : pyval) (s : gset pyval) : bool := bool_decide (hkey v ∈ s).
Definition py_add (v : pyval) (s : gset pyval) : gset pyval := {[ hkey v ]} ∪ s.

Definition is_None (v : pyval) : bool :=
  match v with VNone => true | _ => false end.

Definition is_str (v : pyval) : bool :=
  match v with VStr _ => true | _ => false end.

(** A row mapping: the [dict] that [dictify] builds. *)
Abbreviation dict := (gmap string pyval).

(** ** Exceptions *)

(** The exception classes the program can meet.  All of them derive from
    [Exception]; [InvalidOperation] is [decimal.InvalidOperation], an
    [ArithmeticError], and [SinkError] stands for whatever the database
    driver raises. *)
Inductive exn : Type :=
  | ValueError
  | IndexError
  | KeyError
  | TypeError
  | AttributeError
  | StopIteration
  | InvalidOperation
  | SinkError (what : string).

Global Instance exn_eq_dec : EqDecision exn.
Proof. solve_decision. Defined.

(** [except ValueError] handles [ValueError] only, none of the other classes
    above is a subclass of it. *)
Definition is_ValueError (e : exn) : bool :=
  match e with ValueError => true | _ => false end.

(** [except Exception] handles every class above. *)
Definition is_Exception (e : exn) : bool := true.

Inductive result (A : Type) : Type :=
  | Ok (a : A)
  | Raise (e : exn).
Arguments Ok {A} a.
Arguments Raise {A} e.

Global Instance result_ret : MRet result := @Ok.
Global Instance result_bind : MBind result := λ A B f m,
  match m with
  | Ok a => f a
  | Raise e => Raise e
  end.

Definition raises {A} (m : result A) : bool :=
  match m with Ok _ => false | Raise _ => true end.

(** ** Strings and lists of the interpreter *)

(** [c.isalpha()] for a code point below 256. *)
Definition isalpha (c : ascii) : bool :=
  let n := Z.of_N (N_of_ascii c) in
  ((65 <=? n) && (n <=? 90)) || ((97 <=? n) && (n <=? 122))
  || (n =? 170) || (n =? 181) || (n =? 186)
  || ((192 <=? n) && (n <=? 214)) || ((216 <=? n) && (n <=? 246))
  || ((248 <=? n) && (n <=? 255)).

(** [c.lower()] for a code point below 256. *)
Definition lower_char (c : ascii) : ascii :=
  let n := Z.of_N (N_of_ascii c) in
  if ((65 <=? n) && (n <=? 90)) || ((192 <=? n) && (n <=? 214))
     || ((216 <=? n) && (n <=? 222))
  then ascii_of_N (Z.to_N (n + 32)) else c.

Fixpoint lower (s : string) : string :=
  match s with
  | EmptyString => EmptyString
  | String c s => String (lower_char c) (lower s)
  end.

(** [s[0].isalpha()]: indexing the empty string raises [IndexError]. *)
Definition first_isalpha (s : string) : result bool :=
  match s with
  | EmptyString => Raise IndexError
  | String c _ => Ok (isalpha c)
  end.

(** [row.pop(0)]. *)
Definition pop0 (row : list string) : result (string * list string) :=
  match row with
  | [] => Raise IndexError
  | v :: row => Ok (v, row)
  end.

(** A run of statements [d[name] = row.pop(0)], one per name, in order. *)
Fixpoint pop_fields (names : list string) (d : dict) (row : list string)
  : result (dict * list string) :=
  match names with
  | [] => Ok (d, row)
  | name :: names =>
      '(v, row) ← pop0 row;
      pop_fields names (<[name := VStr v]> d) row
  end.

(** [d[key]]. *)
Definition getitem {V} (d : gmap string V) (key : string) : result V :=
  match d !! key with
  | Some v => Ok v
  | None => Raise KeyError
  end.

(** [d.keys()]. *)
Definition keys (d : dict) : list string := (map_to_list d).*1.

(** ** TransformHelper *)

Module TransformHelper.

(** The loop shared by the three helpers:
    [for key, val in d.items(): if key in fields: d[key] = f(val)]. *)
Definition map_fields (f : pyval → pyval) (d : dict) (fields : list string)
  : dict :=
  map_imap (λ key val, Some (if bool_decide (key ∈ fields) then f val else val)) d.

(** [None if val == '' else val]. *)
Definition empty_to_none (val : pyval) : pyval :=
  if py_eqb val (VStr "") then VNone else val.

Definition transform_empty_to_none (d : dict) (fields : list string) : dict :=
  map_fields empty_to_none d fields.

Definition true_values_default : list string := ["y"; "t"].

(** [True if val.lower() in true_values else False], on a string. *)
Definition invalid_boolean (true_values : list string) (val : pyval) : pyval :=
  match val with
  | VStr s => VBool (bool_decide (lower s ∈ true_values))
  | _ => val
  end.

(** [val.lower()] exists on strings only: any other value under one of
    the [fields] raises [AttributeError]. *)
Definition transform_invalid_booleans (d : dict) (fields : list string)
    (true_values : list string) : result dict :=
  if bool_decide (map_Forall (λ key val, key ∈ fields → is_str val = true) d)
  then Ok (map_fields (invalid_boolean true_values) d fields)
  else Raise AttributeError.

(** [None if val == '?' else val]. *)
Definition question_mark_to_none (val : pyval) : pyval :=
  if py_eqb val (VStr "?") then VNone else val.

Definition transform_question_mark_to_none (d : dict) (fields : list string)
  : dict :=
  map_fields question_mark_to_none d fields.

End TransformHelper.

(** ** Built-in conversions

    [int(s)] and [Decimal(s)] belong to the interpreter and its standard
    library, not to the program.  Only what they do on a string is needed:
    [int] returns a number or raises [ValueError]; the [Decimal] constructor
    accepts the string or raises [decimal.InvalidOperation]. *)
Class Builtins : Type := {
  int_of_str : string → option Z;
  decimal_of_str : string → bool;
}.

(** [int(v)]. *)
Definition int `{Builtins} (v : pyval) : result Z :=
  match v with
  | VStr s => match int_of_str s with Some n => Ok n | None => Raise ValueError end
  | VInt n => Ok n
  | VBool b => Ok (Z.b2z b)
  | VNone => Raise TypeError
  end.

(** [Decimal(v)], for its success or failure only. *)
Definition Decimal `{Builtins} (v : pyval) : result unit :=
  match v with
  | VStr s => if decimal_of_str s then Ok () else Raise InvalidOperation
  | VInt _ | VBool _ => Ok ()
  | VNone => Raise TypeError
  end.

(** [len(v)]. *)
Definition len (v : pyval) : result Z :=
  match v with
  | VStr s => Ok (Z.of_nat (String.length s))
  | _ => Raise TypeError
  end.

(** ** State and exceptions together *)

(** A computation over a mutable object of type [S]: it returns or raises,
    and in both cases leaves the object in its new state. *)
Definition prog (S A : Type) : Type := S → result A * S.

Global Instance prog_ret {S} : MRet (prog S) := λ A a st, (Ok a, st).
Global Instance prog_bind {S} : MBind (prog S) := λ A B f m st,
  match m st with
  | (Ok a, st) => f a st
  | (Raise e, st) => (Raise e, st)
  end.

Definition lift {S A} (r : result A) : prog S A := λ st, (r, st).
Definition modify {S} (f : S → S) : prog S unit := λ st, (Ok (), f st).

(** [try: body / except <handles> as e: handler e]. *)
Definition try_except {S A} (body : prog S A) (handles : exn → bool)
    (handler : exn → prog S A) : prog S A := λ st,
  match body st with
  | (Raise e, st) => if handles e then handler e st else (Raise e, st)
  | r => r
  end.

(** [try: body / finally: cleanup]. *)
Definition try_finally {S A} (body : prog S A) (cleanup : prog S unit)
  : prog S A := λ st,
  match body st with
  | (r, st) =>
      match cleanup st with
      | (Ok _, st) => (r, st)
      | (Raise e, st) => (Raise e, st)
      end
  end.

(** [for x in xs: body x]. *)
Fixpoint for_each {S A} (xs : list A) (body : A → prog S unit) : prog S unit :=
  match xs with
  | [] => mret ()
  | x :: xs => body x ;; for_each xs body
  end.

(** [next(rows)] on the reader of a file: drops the header row. *)
Definition next_rows {S} (rows : list (list string)) : prog S (list (list string)) :=
  match rows with
  | [] => lift (Raise StopIteration)
  | _ :: rows => mret rows
  end.

(** ** BaseHandler *)

(** What the database connection is asked to do, and what is logged, in the
    order it happens.  [EExecute] keeps the batch handed to the sink and
    whether the sink raised. *)
Inductive event : Type :=
  | ECursor
  | EExecute (entities : list dict) (outcome : option exn)
  | ERollback
  | EClose
  | ECommit
  | ELogError (error : exn)
  | ELogWarning (message : string)
  | ELogInfo (num_rows : nat) (table_name : option string).

Abbreviation trace := (list event).

(** The relational sink is external: given what has happened on the
    connection so far and a batch, the bulk insert succeeds or raises.  The
    connection's own [cursor], [rollback], [commit] and [close] succeed. *)
Abbreviation sink := (trace → list dict → option exn).

Module BaseHandler.
Section BaseHandler.

(** The abstract methods, and the fields set by [__init__]. *)
Variable dictify : list string → result dict.
Variable execute_values : sink.
Variable valid_keys : gset pyval.
Variable table_name : option string.

Definition emit (e : event) : prog trace unit := modify (λ tr, tr ++ [e]).

(** [self.execute(cursor, entities)]: the bulk insert of a batch. *)
Definition execute (entities : list dict) : prog trace unit := λ tr,
  match execute_values tr entities with
  | None => (Ok (), tr ++ [EExecute entities None])
  | Some e => (Raise e, tr ++ [EExecute entities (Some e)])
  end.

(** [with self.connection.cursor() as cursor: body]; leaving the block
    closes the cursor. *)
Definition with_cursor {A} (body : prog trace A) : prog trace A :=
  emit ECursor ;; try_finally body (emit EClose).

Definition batch_insert (entities : list dict) : prog trace unit :=
  with_cursor
    (try_finally
       (try_except (execute entities) is_Exception (λ error,
          emit (ELogError error) ;;
          emit (ELogWarning "Rolling back due to error.") ;;
          emit ERollback))
       (emit EClose)).

Section handle.
Variable batch_size : Z.
Variable skip_fkey_validation : bool.
Variable no_commit : bool.

(** The [for row in rows] loop, with its local variables [entities] and
    [num_rows]. *)
Fixpoint handle_rows (rows : list (list string)) (entities : list dict)
    (num_rows : nat) : prog trace (list dict * nat) :=
  match rows with
  | [] => mret (entities, num_rows)
  | row :: rows =>
      d ← lift (dictify row);
      entities ←
        (if negb skip_fkey_validation then
           occurrence_id ← lift (getitem d "occurrence_id");
           mret (if py_in occurrence_id valid_keys
                 then entities ++ [d] else entities)
         else mret (entities ++ [d]));
      let num_rows := S num_rows in
      entities ←
        (if bool_decide (Z.of_nat (length entities) >= batch_size)
         then batch_insert entities ;; mret []
         else mret entities);
      (if negb no_commit then emit ECommit else mret ()) ;;
      handle_rows rows entities num_rows
  end.

(** [handle]: the file is the list of rows its reader yields, header
    first. *)
Definition handle (file : list (list string)) : prog trace unit :=
  (if skip_fkey_validation
   then emit (ELogWarning "Skipping foreign key validation")
   else mret ()) ;;
  rows ← next_rows file;
  '(entities, num_rows) ← handle_rows rows [] 0%nat;
  (if bool_decide (Z.of_nat (length entities) > 0)
   then batch_insert entities else mret ()) ;;
  emit (ELogInfo num_rows table_name).

End handle.

End BaseHandler.
End BaseHandler.

(** The batches handed to the sink, in order. *)
Definition executed (tr : trace) : list (list dict) :=
  omap (λ e, match e with EExecute entities _ => Some entities | _ => None end) tr.

(** The bulk inserts that raised, the errors logged and the rollbacks. *)
Definition failed (tr : trace) : list exn :=
  omap (λ e, match e with EExecute _ (Some error) => Some error | _ => None end) tr.
Definition logged_errors (tr : trace) : list exn :=
  omap (λ e, match e with ELogError error => Some error | _ => None end) tr.
Definition rollbacks (tr : trace) : list unit :=
  omap (λ e, match e with ERollback => Some () | _ => None end) tr.

(** ** Record decoders *)

Module OccurencesHandler.

Definition fields : list string :=
  [ "occurrence_id"; "guid"; "record_guid"; "modified_on"; "imaged";
    "information_withheld"; "basis_of_record"; "herbarium"; "collection";
    "dataset"; "accession"; "catalog"; "barcode"; "other_numbers";
    "family"; "taxon_name"; "accepted"; "scientific_name"; "notho_genus";
    "genus"; "notho_species"; "specific_epithet"; "specific_authors";
    "infraspecific_rank"; "notho_infraspecies"; "infraspecific_epithet";
    "infraspecific_authors"; "hybrid_symbol"; "notho_genus_2"; "genus_2";
    "notho_species_2"; "specific_epithet_2"; "specific_authors_2";
    "infraspecific_rank_2"; "notho_infraspecies_2";
    "infraspecific_epithet_2"; "infraspecific_authors_2"; "cultivar";
    "name_qualifier"; "qualifier_position"; "is_type"; "type_designation";
    "site_number"; "collector"; "collector_number"; "other_collectors";
    "day_collected"; "month_collected"; "year_collected";
    "verbatim_collection_date"; "day_of_year"; "country";
    "state_province"; "county"; "locality"; "site_description";
    "verbatim_elevation"; "minimum_elevation_in_meters";
    "maximum_elevation_in_meters"; "verbatim_depth";
    "minimum_depth_in_meters"; "maximum_depth_in_meters";
    "verbatim_coordinates"; "decimal_latitude"; "decimal_longitude";
    "valid_lat_lng"; "geodetic_datum"; "coordinate_uncertainty_in_meters";
    "georeferenced_by"; "georeference_sources"; "georeference_remarks";
    "specimen_notes"; "phenology"; "cultivated"; "origin" ].

Definition boolean_fields : list string :=
  [ "imaged"; "accepted"; "is_type"; "valid_lat_lng"; "cultivated" ].

Definition dictify (row : list string) : result dict :=
  if bool_decide (length row ≠ 75%nat) then Raise ValueError else
  '(d, _) ← pop_fields fields ∅ row;
  d ← TransformHelper.transform_invalid_booleans d boolean_fields
        TransformHelper.true_values_default;
  Ok (TransformHelper.transform_empty_to_none d (keys d)).

End OccurencesHandler.

Module AnnotationsHandler.

(** The fields read between [family] and [day_annotated]. *)
Definition name_fields : list string :=
  [ "scientific_name"; "notho_genus"; "genus"; "notho_species";
    "specific_epithet"; "specific_authors"; "infraspecific_rank";
    "notho_infraspecies"; "infraspecific_epithet";
    "infraspecific_authors"; "hybrid_symbol"; "notho_genus_2"; "genus_2";
    "notho_species_2"; "specific_epithet_2"; "specific_authors_2";
    "infraspecific_rank_2"; "notho_infraspecies_2";
    "infraspecific_epithet_2"; "infraspecific_authors_2"; "cultivar";
    "name_qualifier"; "qualifier_position"; "nomenclatural_code";
    "annotated_by" ].

(** [v[0].isalpha()] on a value of the mapping. *)
Definition value_first_isalpha (v : pyval) : result bool :=
  match v with
  | VStr s => first_isalpha s
  | _ => Raise TypeError
  end.

Definition dictify (row : list string) : result dict :=
  if bool_decide (length row ≠ 34%nat) then Raise ValueError else
  '(d, row) ← pop_fields [ "occurrence_id"; "current_annotation" ] ∅ row;
  '(seq_num, row) ← pop0 row;
  (* [seq_num is not None] holds of every popped string *)
  alpha ← first_isalpha seq_num;
  '(d, row) ←
    (if (alpha : bool) then
       Ok (<["family" := VStr seq_num]> (<["sequence_number" := VNone]> d), row)
     else
       let d := <["sequence_number" := VStr seq_num]> d in
       '(family, row) ← pop0 row;
       Ok (<["family" := VStr family]> d, row));
  '(d, row) ← pop_fields name_fields d row;
  '(day_annotated, row) ← pop0 row;
  let d :=
    if bool_decide (day_annotated = "ICBN")
    then <["day_annotated" := VNone]> d
    else <["day_annotated" := VStr day_annotated]> d in
  '(month_annotated, row) ← pop0 row;
  d ←
    (if bool_decide (month_annotated = "ICBN") then
       Ok (<["month_annotated" := VNone]> d)
     else
       alpha ← (if bool_decide (month_annotated ≠ "")
                then first_isalpha month_annotated else Ok false : result bool);
       if (alpha : bool) then
         Ok (<["month_annotated" := VNone]>
               (<["annotated_by" := VStr month_annotated]> d))
       else Ok (<["month_annotated" := VStr month_annotated]> d));
  '(d, row) ←
    (if bool_decide (month_annotated = "ICBN") then
       '(annotated_by, row) ← pop0 row;
       Ok (<["year_annotated" := VNone]>
             (<["annotated_by" := VStr annotated_by]> d), row)
     else
       '(year_annotated, row) ← pop0 row;
       Ok (<["year_annotated" := VStr year_annotated]> d, row));
  '(d, _) ←
    pop_fields [ "annotation_references"; "annotation_remarks" ] d row;
  d ← TransformHelper.transform_invalid_booleans d [ "current_annotation" ]
        TransformHelper.true_values_default;
  let d := TransformHelper.transform_empty_to_none d (keys d) in
  let d := TransformHelper.transform_question_mark_to_none d
             [ "sequence_number" ] in
  (* the debugging guard before [pprint], which prints and changes nothing *)
  sequence_number ← getitem d "sequence_number";
  _ ← (if negb (is_None sequence_number)
       then value_first_isalpha sequence_number else Ok false);
  Ok d.

End AnnotationsHandler.

Module TypesHandler.

(** The fields read after [occurrence_id]. *)
Definition fields : list string :=
  [ "sequence_number"; "family"; "scientific_name";
    "notho_genus"; "genus"; "notho_species"; "specific_epithet";
    "specific_authors"; "infraspecific_rank"; "notho_infraspecies";
    "infraspecific_epithet"; "infraspecific_authors"; "cultivar";
    "type_designation"; "holotype_location"; "year_published";
    "publication"; "notes" ].

Definition dictify `{Builtins} (row : list string) : result dict :=
  '(v, row) ← pop0 row;
  occurrence_id ← int (VStr v);
  let d : dict := <["occurrence_id" := VInt occurrence_id]> ∅ in
  '(d, _) ← pop_fields fields d row;
  Ok (TransformHelper.transform_empty_to_none d (keys d)).

End TypesHandler.

Module MediaHandler.

Definition fields : list string :=
  [ "occurrence_id"; "modified_on"; "media_guid"; "file_name"; "file_format";
    "viewer_format"; "thumbnail_url"; "file_url"; "viewer_url";
    "date_created"; "created_by"; "publisher"; "license" ].

Definition dictify (row : list string) : result dict :=
  '(d, _) ← pop_fields fields ∅ row;
  Ok (TransformHelper.transform_empty_to_none d (keys d)).

End MediaHandler.

(** ** Validator *)

Module Validator.

(** An entry of the error report: a message and the offending value. *)
Abbreviation error := (string * pyval)%type.

(** The instance state: [self.errors], by table and entity key, and
    [self.sets], the value sets by name. *)
Record state : Type := State {
  errors : gmap string (gmap pyval (list error));
  sets : gmap string (gset pyval);
}.

Definition set_errors (f : gmap string (gmap pyval (list error)) →
                           gmap string (gmap pyval (list error)))
    (st : state) : state :=
  {| errors := f (errors st); sets := sets st |}.

Definition set_sets (f : gmap string (gset pyval) → gmap string (gset pyval))
    (st : state) : state :=
  {| errors := errors st; sets := f (sets st) |}.

(** [__init__]. *)
Definition init : state :=
  {| errors := <["corpus_types" := ∅]> (<["corpus_media" := ∅]>
                 (<["corpus_annotations" := ∅]> (<["corpus_occurrences" := ∅]> ∅)));
     sets := <["valid_occurrence_ids" := ∅]> ∅ |}.

(** A statement whose value is not used. *)
Definition discard {A} (m : prog state A) : prog state unit := m ;; mret ().

Definition _add_error_for_entity (table_name : string) (entity_id : pyval)
    (value : error) : prog state unit :=
  table ← (λ st, (getitem (errors st) table_name, st));
  let errors := default [] (table !! hkey entity_id) in
  let errors := errors ++ [value] in
  modify (set_errors (λ tables,
    match tables !! table_name with
    | Some table => <[table_name := <[hkey entity_id := errors]> table]> tables
    | None => tables
    end)).

Definition validate_fkey (table_name : string) (entity : dict)
  : prog state (option error) :=
  valid_set ← (λ st, (getitem (sets st) "valid_occurrence_ids", st));
  occurrence_id ← lift (getitem entity "occurrence_id");
  if negb (py_in occurrence_id valid_set) then
    let error := ("Invalid foreign key", occurrence_id) in
    _add_error_for_entity table_name occurrence_id error ;;
    mret (Some error)
  else mret None.

Definition validate_unique (table_name key : string) (entity : dict)
  : prog state (option error) :=
  let set_key := table_name +:+ ":" +:+ key in
  modify (λ st,
    match sets st !! set_key with
    | None => set_sets (<[set_key := ∅]>) st
    | Some _ => st
    end) ;;
  value ← lift (getitem entity key);
  seen ← (λ st, (getitem (sets st) set_key, st));
  if negb (is_None value) && py_in value seen then
    let error := ("Duplicate " +:+ key +:+ " found", value) in
    occurrence_id ← lift (getitem entity "occurrence_id");
    _add_error_for_entity table_name occurrence_id error ;;
    mret (Some error)
  else
    modify (set_sets (<[set_key := py_add value seen]>)) ;;
    mret None.

Definition validate_length (table_name key : string) (entity : dict)
    (length : Z) : prog state (option error) :=
  value ← lift (getitem entity key);
  exceeds ← (if negb (is_None value)
             then n ← lift (len value); mret (bool_decide (n > length))
             else mret false);
  if (exceeds : bool) then
    let error :=
      ("Value exceeds maximum length (" +:+ pretty length
         +:+ " chars) for key " +:+ key, value) in
    occurrence_id ← lift (getitem entity "occurrence_id");
    _add_error_for_entity table_name occurrence_id error ;;
    mret (Some error)
  else mret None.

Section conversions.
Context `{Builtins}.

Definition validate_integer (table_name key : string) (entity : dict)
  : prog state (option error) :=
  value ← lift (getitem entity key);
  if is_None value then mret None else
  try_except
    (lift (int value) ;; mret None)
    is_ValueError
    (λ _,
      let error := ("Expected integer value for key " +:+ key, value) in
      occurrence_id ← lift (getitem entity "occurrence_id");
      _add_error_for_entity table_name occurrence_id error ;;
      mret (Some error)).

(** The handler records the error and falls off the end of the
    function, which returns [None]. *)
Definition validate_numeric (table_name key : string) (entity : dict)
  : prog state (option error) :=
  value ← lift (getitem entity key);
  if is_None value then mret None else
  try_except
    (lift (Decimal value) ;; mret None)
    is_ValueError
    (λ _,
      let error := ("Expected decimal value for key " +:+ key, value) in
      occurrence_id ← lift (getitem entity "occurrence_id");
      _add_error_for_entity table_name occurrence_id error ;;
      mret None).

Definition occurrence_varchar_255_fields : list string :=
  [ "guid"; "basis_of_record"; "herbarium"; "collection"; "dataset";
    "accession"; "catalog"; "barcode"; "other_numbers"; "family";
    "taxon_name"; "scientific_name"; "notho_genus"; "genus";
    "notho_species"; "specific_epithet"; "specific_authors";
    "infraspecific_rank"; "notho_infraspecies"; "infraspecific_epithet";
    "infraspecific_authors"; "hybrid_symbol"; "notho_genus_2"; "genus_2";
    "notho_species_2"; "specific_epithet_2"; "specific_authors_2";
    "infraspecific_rank_2"; "notho_infraspecies_2";
    "infraspecific_epithet_2"; "infraspecific_authors_2"; "cultivar";
    "name_qualifier"; "qualifier_position"; "type_designation";
    "site_number"; "collector"; "collector_number"; "other_collectors";
    "day_collected"; "month_collected"; "year_collected";
    "verbatim_collection_date"; "day_of_year"; "country";
    "state_province"; "county"; "verbatim_elevation"; "verbatim_depth";
    "verbatim_coordinates"; "geodetic_datum"; "georeferenced_by";
    "georeference_sources"; "phenology"; "origin" ].

Definition occurrence_numeric_fields : list string :=
  [ "minimum_elevation_in_meters"; "maximum_elevation_in_meters";
    "minimum_depth_in_meters"; "maximum_depth_in_meters";
    "decimal_latitude"; "decimal_longitude";
    "coordinate_uncertainty_in_meters" ].

Definition validate_occurrence (entity : dict) : prog state unit :=
  e ← validate_unique "corpus_occurrences" "guid" entity;
  (if e is None then
     valid_set ← (λ st, (getitem (sets st) "valid_occurrence_ids", st));
     occurrence_id ← lift (getitem entity "occurrence_id");
     modify (set_sets
       (<["valid_occurrence_ids" := py_add occurrence_id valid_set]>))
   else mret ()) ;;
  for_each occurrence_varchar_255_fields (λ field,
    discard (validate_length "corpus_occurrences" field entity 255)) ;;
  for_each occurrence_numeric_fields (λ field,
    discard (validate_numeric "corpus_occurrences" field entity)).

Definition media_varchar_255_fields : list string :=
  [ "media_guid"; "thumbnail_url"; "file_url"; "viewer_url";
    "date_created"; "created_by"; "publisher" ].

Definition media_varchar_124_fields : list string :=
  [ "file_name"; "file_format"; "viewer_format" ].

Definition validate_media (entity : dict) : prog state unit :=
  discard (validate_fkey "corpus_media" entity) ;;
  discard (validate_length "corpus_media" "license" entity 512) ;;
  for_each media_varchar_255_fields (λ field,
    discard (validate_length "corpus_media" field entity 255)) ;;
  for_each media_varchar_124_fields (λ field,
    discard (validate_length "corpus_media" field entity 255)).

Definition type_varchar_255_fields : list string :=
  [ "family"; "scientific_name"; "notho_genus"; "genus"; "notho_species";
    "specific_epithet"; "specific_authors"; "infraspecific_rank";
    "notho_infraspecies"; "infraspecific_epithet";
    "infraspecific_authors"; "cultivar"; "type_designation";
    "holotype_location" ].

Definition type_integer_fields : list string := [ "year_published" ].

Definition validate_type (entity : dict) : prog state unit :=
  discard (validate_fkey "corpus_types" entity) ;;
  discard (validate_length "corpus_types" "publication" entity 512) ;;
  for_each type_varchar_255_fields (λ field,
    discard (validate_length "corpus_types" field entity 255)) ;;
  for_each type_integer_fields (λ field,
    discard (validate_integer "corpus_types" field entity)).

Definition annotation_varchar_255_fields : list string :=
  [ "family"; "scientific_name"; "notho_genus"; "genus"; "notho_species";
    "specific_epithet"; "specific_authors"; "infraspecific_rank";
    "notho_infraspecies"; "infraspecific_epithet";
    "infraspecific_authors"; "hybrid_symbol"; "notho_genus_2"; "genus_2";
    "notho_species_2"; "specific_epithet_2"; "specific_authors_2";
    "infraspecific_rank_2"; "notho_infraspecies_2";
    "infraspecific_epithet_2"; "infraspecific_authors_2"; "cultivar";
    "name_qualifier"; "qualifier_position"; "nomenclatural_code";
    "annotated_by"; "annotation_references" ].

Definition annotation_integer_fields : list string :=
  [ "sequence_number"; "day_annotated"; "month_annotated";
    "year_annotated" ].

Definition validate_annotation (entity : dict) : prog state unit :=
  discard (validate_fkey "corpus_annotations" entity) ;;
  for_each annotation_varchar_255_fields (λ field,
    discard (validate_length "corpus_annotations" field entity 255)) ;;
  for_each annotation_integer_fields (λ field,
    discard (validate_integer "corpus_annotations" field entity)).

(** The four passes over a file: drop the header, then decode and
    validate row by row.  The row counter and the log lines have no
    effect on the state and are left out. *)
Definition _validate_occurrences (file : list (list string))
  : prog state unit :=
  rows ← next_rows file;
  for_each rows (λ row,
    d ← lift (OccurencesHandler.dictify row);
    validate_occurrence d).

Definition _validate_media (file : list (list string)) : prog state unit :=
  rows ← next_rows file;
  for_each rows (λ row,
    d ← lift (MediaHandler.dictify row);
    validate_media d).

Definition _validate_types (file : list (list string)) : prog state unit :=
  rows ← next_rows file;
  for_each rows (λ row,
    d ← lift (TypesHandler.dictify row);
    validate_type d).

Definition _validate_annotations (file : list (list string))
  : prog state unit :=
  rows ← next_rows file;
  for_each rows (λ row,
    d ← lift (AnnotationsHandler.dictify row);
    validate_annotation d).

Definition validate_corpus (occurrences media types annotations
    : list (list string)) : prog state unit :=
  _validate_occurrences occurrences ;;
  _validate_media media ;;
  _validate_types types ;;
  _validate_annotations annotations.

End conversions.

(** [self.sets['valid_occurrence_ids']], as the handlers receive it. *)
Definition valid_occurrence_ids (st : state) : gset pyval :=
  default ∅ (sets st !! "valid_occurrence_ids").

End Validator.

(** ** Plain numerals

    An instance of the conversions for the examples: [int] and [Decimal]
    restricted to ASCII numerals, an optional minus sign and, for
    [Decimal], at most one decimal point. *)

Definition digit_value (c : ascii) : option Z :=
  let n := Z.of_N (N_of_ascii c) in
  if (48 <=? n) && (n <=? 57) then Some (n - 48) else None.

Fixpoint digits_value (s : string) (acc : Z) : option Z :=
  match s with
  | EmptyString => Some acc
  | String c s =>
      match digit_value c with
      | Some n => digits_value s (10 * acc + n)
      | None => None
      end
  end.

Definition plain_int (s : string) : option Z :=
  match s with
  | EmptyString => None
  | String "-" EmptyString => None
  | String "-" s => Z.opp <$> digits_value s 0
  | _ => digits_value s 0
  end.

Fixpoint plain_decimal_digits (s : string) (seen_point seen_digit : bool) : bool :=
  match s with
  | EmptyString => seen_digit
  | String "." s => negb seen_point && plain_decimal_digits s true seen_digit
  | String c s =>
      match digit_value c with
      | Some _ => plain_decimal_digits s seen_point true
      | None => false
      end
  end.

Definition plain_decimal (s : string) : bool :=
  match s with
  | String "-" s => plain_decimal_digits s false false
  | _ => plain_decimal_digits s false false
  end.

Definition plain_builtins : Builtins :=
  {| int_of_str := plain_int; decimal_of_str := plain_decimal |}.

(** ** Definitions used in the statements *)

(** The value a decoder gave to [key], if it returned a mapping with it. *)
Definition decoded_field (r : result dict) (key : string) : option pyval :=
  match r with
  | Ok d => d !! key
  | Raise _ => None
  end.

(** The mapping after a run of pops that found enough columns. *)
Fixpoint fill (names : list string) (row : list string) (d : dict) : dict :=
  match names, row with
  | name :: names, v :: row => fill names row (<[name := VStr v]> d)
  | _, _ => d
  end.

(** The month column holds a name: it is not empty and starts with a
    letter. *)
Definition month_is_name (month : string) : bool :=
  match month with
  | EmptyString => false
  | String c _ => isalpha c
  end.

(** What the three transforms at the end of the annotation decoder make of
    the value under [key], and of the whole mapping. *)
Definition annotation_value (key : string) (val : pyval) : pyval :=
  let val := if bool_decide (key ∈ ["current_annotation"])
             then TransformHelper.invalid_boolean
                    TransformHelper.true_values_default val
             else val in
  let val := TransformHelper.empty_to_none val in
  if bool_decide (key ∈ ["sequence_number"])
  then TransformHelper.question_mark_to_none val else val.

Definition annotation_transforms (d : dict) : dict :=
  let d := TransformHelper.map_fields
             (TransformHelper.invalid_boolean TransformHelper.true_values_default)
             d ["current_annotation"] in
  let d := TransformHelper.transform_empty_to_none d (keys d) in
  TransformHelper.transform_question_mark_to_none d ["sequence_number"].

(** An annotation row of 34 columns with the given third and fourth columns
    and the given last six; the columns in between are scientific-name
    parts. *)
Definition annotation_row (third fourth : string) (last6 : list string)
  : list string :=
  ["OCC1"; "Y"; third; fourth] ++ replicate 24 "x" ++ take 6 (last6 ++ replicate 6 "").

(** What one call of [batch_insert] adds to the trace, given what the sink
    answered. *)
Definition batch_events (outcome : option exn) (entities : list dict) : trace :=
  [ECursor; EExecute entities outcome]
  ++ match outcome with
     | Some error =>
         [ELogError error; ELogWarning "Rolling back due to error."; ERollback]
     | None => []
     end
  ++ [EClose; EClose].

(** The row's [occurrence_id] is in the valid-key set. *)
Definition occurrence_id_in (valid_keys : gset pyval) (d : dict) : bool :=
  match d !! "occurrence_id" with
  | Some occurrence_id => py_in occurrence_id valid_keys
  | None => false
  end.

(** The decoded rows that pass the foreign-key filter. *)
Definition forwarded (skip_fkey_validation : bool) (valid_keys : gset pyval)
    (ds : list dict) : list dict :=
  if skip_fkey_validation then ds
  else filter (λ d, occurrence_id_in valid_keys d = true) ds.

(** The full batches of size [b] cut from a list, in order, and what is
    left over after them. *)
Definition full_batches {A} (b : nat) (l : list A) : list (list A) :=
  (λ i, take b (drop (i * b) l)) <$> seq 0 (length l / b).

Definition last_batch {A} (b : nat) (l : list A) : list A :=
  drop (length l / b * b) l.

(** The events of a pass keep the books: one logged error and one rollback
    for every bulk insert that raised. *)
Definition accounted (ev : trace) : Prop :=
  logged_errors ev = failed ev ∧ length (rollbacks ev) = length (failed ev).

(** A row decodes, to a mapping that has the key the filter reads. *)
Definition decodes (dictify : list string → result dict)
    (skip_fkey_validation : bool) (row : list string) (d : dict) : Prop :=
  dictify row = Ok d ∧
  (skip_fkey_validation = false → is_Some (d !! "occurrence_id")).

(** The rows read before a pass ends: the decoded rows up to the first row
    that fails to decode or, with the filter on, decodes to a mapping
    without the key the filter reads. *)
Fixpoint decoded_prefix (dictify : list string → result dict)
    (skip_fkey_validation : bool) (rows : list (list string)) : list dict :=
  match rows with
  | [] => []
  | row :: rows =>
      match dictify row with
      | Ok d =>
          if skip_fkey_validation || bool_decide (is_Some (d !! "occurrence_id"))
          then d :: decoded_prefix dictify skip_fkey_validation rows
          else []
      | Raise _ => []
      end
  end.

(** The exception of that row, if there is one. *)
Fixpoint first_failure (dictify : list string → result dict)
    (skip_fkey_validation : bool) (rows : list (list string)) : option exn :=
  match rows with
  | [] => None
  | row :: rows =>
      match dictify row with
      | Ok d =>
          if skip_fkey_validation || bool_decide (is_Some (d !! "occurrence_id"))
          then first_failure dictify skip_fkey_validation rows
          else Some KeyError
      | Raise e => Some e
      end
  end.

(** How a pass over rows with a given first failure ends. *)
Definition pass_result {A} (failure : option exn) (a : A) : result A :=
  match failure with
  | None => Ok a
  | Some e => Raise e
  end.

(** Example data: a media row of 13 columns for an occurrence, the mapping
    the media decoder makes of it, a file of such rows under a header, a
    sink that accepts every batch and a sink whose second bulk insert
    raises. *)
Definition media_row (occurrence_id : string) : list string :=
  occurrence_id :: replicate 12 "x".

Definition media_entity (occurrence_id : string) : dict :=
  let d := fill MediaHandler.fields (media_row occurrence_id) ∅ in
  TransformHelper.transform_empty_to_none d (keys d).

Definition media_file (occurrence_ids : list string) : list (list string) :=
  MediaHandler.fields :: (media_row <$> occurrence_ids).

Definition sink_accepts : sink := λ _ _, None.

Definition sink_second_fails : sink := λ tr _,
  if bool_decide (length (executed tr) = 1%nat)
  then Some (SinkError "constraint violation") else None.

(** A computation keeps a relation between the state it starts from and the
    state it leaves, whether it returns or raises. *)
Definition preserves {S A} (R : relation S) (m : prog S A) : Prop :=
  ∀ st, R st (m st).2.

(** The errors recorded for an entity of a table. *)
Definition errors_of (st : Validator.state) (table_name : string)
    (entity_id : pyval) : list Validator.error :=
  default [] (Validator.errors st !! table_name ≫= λ table, table !! hkey entity_id).

(** The validator steps that only report: they leave the value sets alone,
    add no table to the error report and keep every error recorded so
    far. *)
Definition only_reports (st st' : Validator.state) : Prop :=
  Validator.sets st' = Validator.sets st ∧
  dom (Validator.errors st') = dom (Validator.errors st) ∧
  ∀ table_name entity_id error,
    error ∈ errors_of st table_name entity_id →
    error ∈ errors_of st' table_name entity_id.

(** The keys an occurrence decoder can produce: strings and null. *)
Definition str_or_none (v : pyval) : Prop := is_str v = true ∨ v = VNone.

(** The valid-key set exists and holds strings and null only, and the error
    report has its table for the type records. *)
Definition occurrence_keys (st : Validator.state) : Prop :=
  (∃ valid_set, Validator.sets st !! "valid_occurrence_ids" = Some valid_set ∧
                ∀ v, v ∈ valid_set → str_or_none v) ∧
  is_Some (Validator.errors st !! "corpus_types").

(** A validator step keeps the invariant above. *)
Definition keeps_occurrence_keys (st st' : Validator.state) : Prop :=
  occurrence_keys st → occurrence_keys st'.

(** An occurrence entity with a non-numeric latitude, one with a guid, and
    an occurrence row whose latitude column is not a number. *)
Definition bad_latitude_entity : dict :=
  <["decimal_latitude" := VStr "north"]> (<["occurrence_id" := VStr "OCC1"]> ∅).

Definition guid_entity (occurrence_id guid : string) : dict :=
  <["guid" := VStr guid]> (<["occurrence_id" := VStr occurrence_id]> ∅).

Definition bad_latitude_row : list string :=
  "OCC1" :: "guid-1" :: replicate 61 "" ++ ["north"] ++ replicate 11 "".

(** An occurrence row with nothing but its key and guid, and a file of such
    rows under a header. *)
Definition occurrence_row (occurrence_id guid : string) : list string :=
  occurrence_id :: guid :: replicate 73 "".

Definition occurrence_file (rows : list (string * string)) : list (list string) :=
  OccurencesHandler.fields :: ((λ r, occurrence_row r.1 r.2) <$> rows).

(** A validator step never loses anything: the error report keeps its
    tables and every error recorded so far, and every value set keeps its
    elements. *)
Definition grows (st st' : Validator.state) : Prop :=
  dom (Validator.errors st') = dom (Validator.errors st) ∧
  (∀ table_name entity_id error,
     error ∈ errors_of st table_name entity_id →
     error ∈ errors_of st' table_name entity_id) ∧
  (∀ name values, Validator.sets st !! name = Some values →
     ∃ values', Validator.sets st' !! name = Some values' ∧ values ⊆ values').

(** The tables and the valid-key set that [__init__] creates are there. *)
Definition initialised (st : Validator.state) : Prop :=
  is_Some (Validator.sets st !! "valid_occurrence_ids") ∧
  ∀ table_name,
    table_name ∈ ["corpus_occurrences"; "corpus_annotations";
                  "corpus_media"; "corpus_types"] →
    is_Some (Validator.errors st !! table_name).

(** A computation that, from a state with [I], returns and leaves a state
    with [I]. *)
Definition returns {S A} (I : S → Prop) (m : prog S A) : Prop :=
  ∀ st, I st → ∃ a st', m st = (Ok a, st') ∧ I st'.

(** The commits on a trace. *)
Definition commits (tr : trace) : list unit :=
  omap (λ e, match e with ECommit => Some () | _ => None end) tr.

(** The columns of an occurrence row that [validate_occurrence] checks as
    numbers: the positions of the numeric fields. *)
Definition occurrence_numeric_columns : list nat :=
  [57; 58; 60; 61; 63; 64; 67]%nat.

(** A column is blank or a string that [Decimal] accepts. *)
Definition numeric_or_blank `{Builtins} (v : string) : bool :=
  bool_decide (v = "") || decimal_of_str v.

(** The errors that [validate_length] records for the fields of a list, in
    order. *)
Definition length_errors (fields : list string) (entity : dict) (length : Z)
  : list Validator.error :=
  omap (λ field,
    match entity !! field with
    | Some (VStr s) =>
        if bool_decide (Z.of_nat (String.length s) > length)
        then Some ("Value exceeds maximum length (" +:+ pretty length
                     +:+ " chars) for key " +:+ field, VStr s)
        else None
    | _ => None
    end) fields.

(** The rows that the media, type and annotation decoders accept. *)
Definition media_row_accepted (row : list string) : bool :=
  bool_decide (13 ≤ length row)%nat.

Definition type_row_accepted `{Builtins} (row : list string) : bool :=
  match row with
  | [] => false
  | v :: row => bool_decide (is_Some (int_of_str v)) &&
                bool_decide (18 ≤ length row)%nat
  end.

Definition annotation_row_accepted (row : list string) : bool :=
  bool_decide (length row = 34%nat ∧ row !! 2%nat ≠ Some "").

(** An occurrence row that the validation pass gets through: 75 columns,
    the numeric ones blank or accepted by [Decimal]. *)
Definition occurrence_row_validates `{Builtins} (row : list string) : bool :=
  bool_decide (length row = 75%nat) &&
  forallb (λ i, from_option numeric_or_blank true (row !! i))
    occurrence_numeric_columns.

(** * Properties *)

(** ** The interpreter's helpers *)

Lemma py_in_spec v (s : gset pyval) : py_in v s = true ↔ hkey v ∈ s.
Proof. unfold py_in. by rewrite bool_decide_eq_true. Qed.

Lemma elem_of_py_add x v (s : gset pyval) : x ∈ py_add v s ↔ x = hkey v ∨ x ∈ s.
Proof. unfold py_add. set_solver. Qed.

Lemma elem_of_keys (d : dict) key : key ∈ keys d ↔ is_Some (d !! key).
Proof.
  unfold keys. rewrite list_elem_of_fmap. split.
  - intros [[k v] [-> Hin]]. apply elem_of_map_to_list in Hin. eauto.
  - intros [v Hv]. exists (key, v). split; [done|]. by apply elem_of_map_to_list.
Qed.

(** Popping [names] from a row that is long enough fills the mapping and
    leaves the rest of the row; a shorter row raises [IndexError]. *)
Lemma pop_fields_enough names : ∀ d row,
  (length names ≤ length row)%nat →
  pop_fields names d row = Ok (fill names row d, drop (length names) row).
Proof.
  induction names as [|name names IH]; intros d row Hlen; [done|].
  destruct row as [|v row]; simpl in Hlen; [lia|].
  cbn [pop_fields pop0 mbind result_bind]. rewrite IH by lia. done.
Qed.

Lemma pop_fields_short names : ∀ d row,
  (length row < length names)%nat → pop_fields names d row = Raise IndexError.
Proof.
  induction names as [|name names IH]; intros d row Hlen; simpl in Hlen; [lia|].
  destruct row as [|v row]; [done|]. simpl in Hlen.
  cbn [pop_fields pop0 mbind result_bind]. apply IH. lia.
Qed.

Lemma fill_lookup_other names : ∀ row d key,
  key ∉ names → fill names row d !! key = d !! key.
Proof.
  induction names as [|name names IH]; intros row d key Hkey; [done|].
  destruct row as [|v row]; [done|]. cbn [fill].
  apply not_elem_of_cons in Hkey as [Hne Hkey].
  rewrite IH by done. by apply lookup_insert_ne.
Qed.

Lemma fill_values (P : pyval → Prop) names : ∀ row d,
  (∀ s, P (VStr s)) → map_Forall (λ _, P) d → map_Forall (λ _, P) (fill names row d).
Proof.
  induction names as [|name names IH]; intros row d HP Hd; [done|].
  destruct row as [|v row]; [done|]. cbn [fill].
  apply IH; [done|]. by apply map_Forall_insert_2.
Qed.

Lemma fill_is_Some names : ∀ row d key,
  (length names ≤ length row)%nat → key ∈ names → is_Some (fill names row d !! key).
Proof.
  induction names as [|name names IH]; intros row d key Hlen Hkey;
    [by apply elem_of_nil in Hkey|].
  destruct row as [|v row]; simpl in Hlen; [lia|]. cbn [fill].
  destruct (decide (key ∈ names)) as [Hin|Hnotin].
  - apply IH; [lia|done].
  - rewrite fill_lookup_other by done.
    apply elem_of_cons in Hkey as [->|Hkey]; [|done].
    rewrite lookup_insert_eq. eauto.
Qed.

Lemma decoded_field_Some (r : result dict) key val :
  decoded_field r key = Some val → ∃ d, r = Ok d ∧ d !! key = Some val.
Proof. destruct r as [d|e]; [|done]. intros Hd. by exists d. Qed.

(** ** TransformHelper *)

Section transform_helper.
Import TransformHelper.

Lemma map_fields_lookup f (d : dict) fields key :
  map_fields f d fields !! key =
  (λ val, if bool_decide (key ∈ fields) then f val else val) <$> d !! key.
Proof. unfold map_fields. rewrite map_lookup_imap. by destruct (d !! key). Qed.

Lemma map_fields_keys_lookup f (d : dict) key :
  map_fields f d (keys d) !! key = f <$> d !! key.
Proof.
  rewrite map_fields_lookup.
  destruct (d !! key) as [v|] eqn:Hv; [|done]. simpl.
  rewrite bool_decide_true; [done|]. apply elem_of_keys. eauto.
Qed.

Lemma transform_invalid_booleans_ok (d : dict) fields true_values :
  map_Forall (λ key val, key ∈ fields → is_str val = true) d →
  transform_invalid_booleans d fields true_values =
  Ok (map_fields (invalid_boolean true_values) d fields).
Proof.
  intros Hd. unfold transform_invalid_booleans. by rewrite bool_decide_true.
Qed.

Lemma empty_to_none_str s :
  empty_to_none (VStr s) = if decide (s = "") then VNone else VStr s.
Proof.
  unfold empty_to_none, py_eqb. by repeat case_decide; case_bool_decide.
Qed.

(** Blank-to-null is idempotent, on a value and on a mapping. *)
Lemma empty_to_none_idemp v : empty_to_none (empty_to_none v) = empty_to_none v.
Proof.
  destruct v as [|b|n|s]; try done.
  rewrite empty_to_none_str. case_decide; [done|].
  rewrite empty_to_none_str. by case_decide.
Qed.

Lemma transform_empty_to_none_idemp (d : dict) fields :
  transform_empty_to_none (transform_empty_to_none d fields) fields =
  transform_empty_to_none d fields.
Proof.
  apply map_eq. intros key. unfold transform_empty_to_none.
  rewrite !map_fields_lookup. destruct (d !! key) as [v|]; [|done]. simpl.
  case_bool_decide; [|done]. by rewrite empty_to_none_idemp.
Qed.

End transform_helper.

(** ** Record decoders *)

Section decoders.
Import TransformHelper.

(** The two decoders that check the row length first. *)
Lemma occurrences_dictify_wrong_length row :
  length row ≠ 75%nat → OccurencesHandler.dictify row = Raise ValueError.
Proof. intros Hlen. unfold OccurencesHandler.dictify. by rewrite bool_decide_true. Qed.

Lemma annotations_dictify_wrong_length row :
  length row ≠ 34%nat → AnnotationsHandler.dictify row = Raise ValueError.
Proof. intros Hlen. unfold AnnotationsHandler.dictify. by rewrite bool_decide_true. Qed.

(** The two decoders that do not: a short row runs out of columns, a long
    row decodes and its extra columns are ignored. *)
Lemma media_dictify_short row :
  (length row < 13)%nat → MediaHandler.dictify row = Raise IndexError.
Proof.
  intros Hlen. unfold MediaHandler.dictify.
  by rewrite pop_fields_short.
Qed.

Lemma media_dictify_enough row :
  (13 ≤ length row)%nat →
  MediaHandler.dictify row =
  Ok (let d := fill MediaHandler.fields row ∅ in transform_empty_to_none d (keys d)).
Proof.
  intros Hlen. unfold MediaHandler.dictify.
  by rewrite pop_fields_enough.
Qed.

Lemma types_dictify_short `{Builtins} row :
  (length row < 19)%nat → raises (TypesHandler.dictify row) = true.
Proof.
  intros Hlen. unfold TypesHandler.dictify.
  destruct row as [|v row]; [done|]. simpl in Hlen.
  cbn [pop0 mbind result_bind int].
  destruct (int_of_str v); [|done]. cbn [mbind result_bind].
  rewrite pop_fields_short; [done|]. simpl. lia.
Qed.

Lemma types_dictify_enough `{Builtins} v row n :
  (18 ≤ length row)%nat → int_of_str v = Some n →
  TypesHandler.dictify (v :: row) =
  Ok (let d := fill TypesHandler.fields row (<["occurrence_id" := VInt n]> ∅) in
      transform_empty_to_none d (keys d)).
Proof.
  intros Hlen Hv. unfold TypesHandler.dictify.
  cbn [pop0 mbind result_bind int]. rewrite Hv. cbn [mbind result_bind].
  by rewrite pop_fields_enough.
Qed.

Lemma types_dictify_not_int `{Builtins} v row :
  int_of_str v = None → TypesHandler.dictify (v :: row) = Raise ValueError.
Proof.
  intros Hv. unfold TypesHandler.dictify.
  cbn [pop0 mbind result_bind int]. by rewrite Hv.
Qed.

(** *** The annotation decoder on a row of 34 columns *)

Lemma annotation_transforms_lookup (d : dict) key :
  annotation_transforms d !! key = annotation_value key <$> d !! key.
Proof.
  unfold annotation_transforms, transform_question_mark_to_none,
    transform_empty_to_none. cbn zeta.
  rewrite map_fields_lookup, map_fields_keys_lookup, map_fields_lookup.
  by destruct (d !! key).
Qed.

Lemma annotation_value_plain key val :
  key ≠ "current_annotation" → key ≠ "sequence_number" →
  annotation_value key val = empty_to_none val.
Proof.
  intros H1 H2. unfold annotation_value.
  rewrite !bool_decide_false; [done| |]; rewrite list_elem_of_singleton; done.
Qed.

Lemma annotation_value_sequence_number val :
  annotation_value "sequence_number" val =
  question_mark_to_none (empty_to_none val).
Proof. done. Qed.

(** The debugging guard at the end never raises: after blank-to-null the
    sequence number is null or a non-empty string. *)
Lemma annotation_guard_ok val :
  is_str val = true ∨ val = VNone →
  ∃ alpha,
    (let sequence_number := annotation_value "sequence_number" val in
     if negb (is_None sequence_number)
     then AnnotationsHandler.value_first_isalpha sequence_number
     else Ok false) = Ok alpha.
Proof.
  intros [Hv| ->]; [|by eexists].
  destruct val as [| | |s]; try done.
  rewrite annotation_value_sequence_number, empty_to_none_str.
  case_decide as Hs; [by eexists|].
  unfold question_mark_to_none, py_eqb. case_bool_decide; [by eexists|].
  destruct s; [done|]. by eexists.
Qed.

End decoders.

Section annotations.
Import TransformHelper.

Lemma annotation_finish (d : dict) val :
  map_Forall (λ key val, key ∈ ["current_annotation"] → is_str val = true) d →
  d !! "sequence_number" = Some val →
  is_str val = true ∨ val = VNone →
  (d ← transform_invalid_booleans d ["current_annotation"] true_values_default;
   let d := transform_empty_to_none d (keys d) in
   let d := transform_question_mark_to_none d ["sequence_number"] in
   sequence_number ← getitem d "sequence_number";
   _ ← (if negb (is_None sequence_number)
        then AnnotationsHandler.value_first_isalpha sequence_number
        else Ok false);
   Ok d) = Ok (annotation_transforms d).
Proof.
  intros Hd Hseq Hval. rewrite transform_invalid_booleans_ok by done.
  cbn [mbind result_bind]. cbn zeta.
  change (transform_question_mark_to_none _ _) with (annotation_transforms d).
  unfold getitem. rewrite annotation_transforms_lookup, Hseq. simpl.
  destruct (annotation_guard_ok val Hval) as [alpha Halpha].
  cbn zeta in Halpha. by rewrite Halpha.
Qed.

Ltac decide_tests :=
  repeat match goal with
  | |- context [bool_decide ?P] =>
      first [ rewrite (bool_decide_true P) by (done || congruence)
            | rewrite (bool_decide_false P) by (done || congruence) ]
  end.

Ltac run_pops :=
  cbn [pop_fields pop0 mbind result_bind first_isalpha negb
       AnnotationsHandler.name_fields].

Ltac strings_only :=
  repeat (apply map_Forall_insert_2;
          [ first [ done
                  | let Hin := fresh in
                    intros Hin; apply list_elem_of_singleton in Hin; done ] | ]);
  apply map_Forall_empty.

Ltac eval_lookup :=
  match goal with
  | |- context [@lookup string pyval (gmap string pyval) _ ?k ?D] =>
      let r := eval vm_compute in (D !! k) in
      replace (D !! k) with r by (vm_compute; reflexivity)
  end.

Ltac read_field :=
  rewrite annotation_transforms_lookup; eval_lookup;
  cbn [fmap option_fmap option_map month_is_name];
  first [ rewrite annotation_value_sequence_number
        | rewrite annotation_value_plain by done ];
  repeat match goal with H : isalpha _ = _ |- _ => rewrite H end;
  rewrite ?empty_to_none_str;
  repeat case_decide; simplify_eq; try done.

Ltac read_plain_field :=
  rewrite annotation_transforms_lookup; eval_lookup;
  cbn [fmap option_fmap option_map]; by rewrite annotation_value_plain.

(** Every field the ambiguity rules touch, for a row of 34 columns whose
    third column is not empty.  The annotator, day, month and year columns
    sit one place to the left when the third column is taken as the
    family. *)
Lemma annotations_dictify_fields row c s fam by_ day month year :
  length row = 34%nat →
  row !! 2%nat = Some (String c s) →
  row !! 3%nat = Some fam →
  let k := (if isalpha c then 27 else 28)%nat in
  row !! k = Some by_ →
  row !! (k + 1)%nat = Some day →
  row !! (k + 2)%nat = Some month →
  row !! (k + 3)%nat = Some year →
  ∃ d, AnnotationsHandler.dictify row = Ok d ∧
    d !! "sequence_number" =
      Some (if isalpha c then VNone
            else question_mark_to_none (VStr (String c s))) ∧
    d !! "family" =
      Some (if isalpha c then VStr (String c s) else empty_to_none (VStr fam)) ∧
    d !! "day_annotated" =
      Some (if decide (day = "ICBN") then VNone else empty_to_none (VStr day)) ∧
    d !! "month_annotated" =
      Some (if decide (month = "ICBN") then VNone
            else if month_is_name month then VNone
            else empty_to_none (VStr month)) ∧
    d !! "annotated_by" =
      Some (if decide (month = "ICBN") then empty_to_none (VStr year)
            else if month_is_name month then VStr month
            else empty_to_none (VStr by_)) ∧
    d !! "year_annotated" =
      Some (if decide (month = "ICBN") then VNone
            else empty_to_none (VStr year)).
Proof.
  intros Hlen H2 H3 k Hby Hday Hmonth Hyear. subst k.
  do 35 (destruct row as [|? row]; try discriminate Hlen). clear Hlen.
  assert (month = "ICBN" ∨ (month ≠ "ICBN" ∧ month_is_name month = true) ∨
          (month ≠ "ICBN" ∧ month_is_name month = false)) as Hm.
  { destruct (decide (month = "ICBN")); [by left|right].
    destruct (month_is_name month); eauto. }
  destruct (isalpha c) eqn:Hc; simpl in *; simplify_eq;
    unfold AnnotationsHandler.dictify;
    rewrite bool_decide_false by (simpl; lia);
    run_pops; rewrite Hc; run_pops;
    destruct (decide (_ = "ICBN")) as [->|Hd];
    destruct Hm as [->|[[Hne Hn]|[Hne Hn]]];
    try rewrite Hn;
    try (destruct month as [|mc ms]; simpl in Hn; [try done|]);
    try rewrite Hn;
    decide_tests; run_pops; try rewrite Hn; run_pops; decide_tests.
  all: eexists; split;
    [ eapply annotation_finish;
      [ strings_only | vm_compute; reflexivity | by (left + right) ] | ].
  all: split_and!; read_field.
Qed.

Lemma annotation_transforms_str_or_none (d : dict) key val :
  key ≠ "current_annotation" →
  d !! key = Some val → str_or_none val →
  ∃ v, annotation_transforms d !! key = Some v ∧ str_or_none v.
Proof.
  intros Hkey Hval Hstr. rewrite annotation_transforms_lookup, Hval.
  eexists. split; [done|]. unfold annotation_value.
  rewrite (bool_decide_false (key ∈ ["current_annotation"]))
    by (by intros ?%list_elem_of_singleton).
  assert (str_or_none (empty_to_none val)) as Hempty.
  { destruct Hstr as [Hstr| ->]; [|by right].
    destruct val as [| | |s]; try done. rewrite empty_to_none_str.
    case_decide; [by right|by left]. }
  case_bool_decide; [|done]. unfold question_mark_to_none.
  destruct (py_eqb _ _); [by right|done].
Qed.

(** Every field that [validate_annotation] looks at holds a string or
    null after decoding. *)
Lemma annotations_dictify_checked row :
  length row = 34%nat → row !! 2%nat ≠ Some "" →
  ∃ d, AnnotationsHandler.dictify row = Ok d ∧
    ∀ key,
      key ∈ "occurrence_id" :: Validator.annotation_varchar_255_fields ++
              Validator.annotation_integer_fields →
      ∃ v, d !! key = Some v ∧ str_or_none v.
Proof.
  intros Hlen H2.
  do 35 (destruct row as [|? row]; try discriminate Hlen). clear Hlen.
  simpl in H2.
  match type of H2 with Some ?x ≠ _ => destruct x as [|c ?]; [done|] end.
  clear H2.
  unfold AnnotationsHandler.dictify.
  rewrite bool_decide_false by (simpl; lia).
  run_pops. destruct (isalpha c) eqn:Hc; run_pops.
  all: repeat match goal with
       | |- context [bool_decide (?x = "ICBN")] =>
           is_var x; destruct (decide (x = "ICBN")) as [->|?]; decide_tests
       end.
  all: repeat match goal with
       | |- context [bool_decide (?x ≠ "")] =>
           is_var x; destruct x as [|? ?]; decide_tests; run_pops
       end.
  all: repeat match goal with
       | |- context [if isalpha ?c then _ else _] => destruct (isalpha c) eqn:?
       end.
  all: eexists; split;
    [ eapply annotation_finish;
      [ strings_only | vm_compute; reflexivity | by (left + right) ] | ].
  all: intros key Hin; simpl in Hin.
  all: repeat (apply elem_of_cons in Hin as [->|Hin];
               [ eapply annotation_transforms_str_or_none;
                 [ done | vm_compute; reflexivity | by (left + right) ] | ]).
  all: by apply elem_of_nil in Hin.
Qed.

(** The columns of the fields after [family]: they start at the fourth
    column when the third was taken as the family, and at the fifth when
    it was the sequence number. *)
Lemma annotations_dictify_names row c s :
  length row = 34%nat → row !! 2%nat = Some (String c s) →
  let k := (if isalpha c then 3 else 4)%nat in
  ∃ d, AnnotationsHandler.dictify row = Ok d ∧
    (∀ i name v,
       (i < 24)%nat → AnnotationsHandler.name_fields !! i = Some name →
       row !! (k + i)%nat = Some v →
       d !! name = Some (empty_to_none (VStr v))) ∧
    (∀ v, row !! (k + 28)%nat = Some v →
          d !! "annotation_references" = Some (empty_to_none (VStr v))) ∧
    (∀ v, row !! (k + 29)%nat = Some v →
          d !! "annotation_remarks" = Some (empty_to_none (VStr v))).
Proof.
  intros Hlen H2.
  do 35 (destruct row as [|? row]; try discriminate Hlen). clear Hlen.
  simpl in H2. injection H2 as ->.
  unfold AnnotationsHandler.dictify.
  rewrite bool_decide_false by (simpl; lia).
  run_pops. destruct (isalpha c) eqn:Hc; run_pops.
  all: repeat match goal with
       | |- context [bool_decide (?x = "ICBN")] =>
           is_var x; destruct (decide (x = "ICBN")) as [->|?]; decide_tests
       end.
  all: repeat match goal with
       | |- context [bool_decide (?x ≠ "")] =>
           is_var x; destruct x as [|? ?]; decide_tests; run_pops
       end.
  all: repeat match goal with
       | |- context [if isalpha ?c then _ else _] => destruct (isalpha c) eqn:?
       end.
  all: eexists; split;
    [ eapply annotation_finish;
      [ strings_only | vm_compute; reflexivity | by (left + right) ] | ].
  all: split_and!;
    [ intros i name v Hi Hname Hv;
      do 24 (destruct i as [|i];
             [ simpl in Hname, Hv; injection Hname as <-; injection Hv as <-;
               read_plain_field | ]);
      lia
    | intros v Hv; simpl in Hv; injection Hv as <-; read_plain_field
    | intros v Hv; simpl in Hv; injection Hv as <-; read_plain_field ].
Qed.

End annotations.

(** ** Claims about the decoders *)

Section decoder_claims.
Import TransformHelper.

(** C1. A row with the wrong number of columns is a decode failure in the
    occurrence and annotation decoders only.  The type and media decoders
    have no length check: with 14 and 20 columns they return a mapping,
    built from the first 13 and 19 columns. *)
Theorem long_media_and_type_rows_decode :
  let media_row := "OCC1" :: replicate 13 "x" in
  let type_row := "7" :: replicate 19 "x" in
  length media_row = 14%nat ∧
  MediaHandler.dictify media_row = MediaHandler.dictify (take 13 media_row) ∧
  (∃ d, MediaHandler.dictify media_row = Ok d ∧
        d !! "occurrence_id" = Some (VStr "OCC1")) ∧
  length type_row = 20%nat ∧
  (∃ d, @TypesHandler.dictify plain_builtins type_row = Ok d ∧
        d !! "occurrence_id" = Some (VInt 7)).
Proof.
  cbn zeta. split; [done|].
  rewrite !media_dictify_enough by (simpl; lia).
  split; [done|].
  split; [eexists; split; [done|by vm_compute]|].
  split; [done|].
  erewrite (types_dictify_enough (H := plain_builtins)) by (done || simpl; lia).
  eexists; split; [done|by vm_compute].
Qed.

(** C10. An annotation row of 34 columns with an empty third column
    makes the decoder raise: the first-character test indexes the empty
    string. *)
Theorem annotations_dictify_empty_sequence_number row :
  length row = 34%nat → row !! 2%nat = Some "" →
  AnnotationsHandler.dictify row = Raise IndexError.
Proof.
  intros Hlen H2. unfold AnnotationsHandler.dictify.
  rewrite bool_decide_false by lia.
  do 3 (destruct row as [|? row]; try discriminate Hlen).
  simpl in H2. by simplify_eq.
Qed.

Lemma annotations_dictify_empty_sequence_number_witness :
  AnnotationsHandler.dictify (annotation_row "" "Asteraceae" []) = Raise IndexError.
Proof.
  apply annotations_dictify_empty_sequence_number; reflexivity.
Defined.

(** The columns of a row of 34 that the lemma above names. *)
Lemma row_column (row : list string) (i : nat) :
  length row = 34%nat → (i < 34)%nat → ∃ v, row !! i = Some v.
Proof. intros Hlen Hi. apply lookup_lt_is_Some. lia. Qed.

(** C9, as amended.  On a row of 34 columns whose third column is not
    empty: if that column starts with a letter, it is the family and the
    sequence number is null, and the fields after the family are read from
    the fourth column on, one column earlier than otherwise; if not, it is
    the sequence number, null if it is the literal question mark, the
    family is the fourth column, null if that column is empty, and the
    fields after the family are read from the fifth column on. *)
Theorem annotations_dictify_sequence_number row c s fam :
  length row = 34%nat →
  row !! 2%nat = Some (String c s) →
  row !! 3%nat = Some fam →
  let k := (if isalpha c then 3 else 4)%nat in
  ∃ d, AnnotationsHandler.dictify row = Ok d ∧
    (if isalpha c then
       d !! "sequence_number" = Some VNone ∧
       d !! "family" = Some (VStr (String c s))
     else
       d !! "sequence_number" =
         Some (if decide (String c s = "?") then VNone else VStr (String c s)) ∧
       d !! "family" = Some (if decide (fam = "") then VNone else VStr fam)) ∧
    (∀ i name v,
       (i < 24)%nat → AnnotationsHandler.name_fields !! i = Some name →
       row !! (k + i)%nat = Some v →
       d !! name = Some (if decide (v = "") then VNone else VStr v)) ∧
    (∀ v, row !! (k + 28)%nat = Some v →
       d !! "annotation_references" =
         Some (if decide (v = "") then VNone else VStr v)) ∧
    (∀ v, row !! (k + 29)%nat = Some v →
       d !! "annotation_remarks" =
         Some (if decide (v = "") then VNone else VStr v)).
Proof.
  intros Hlen H2 H3 k.
  set (j := (if isalpha c then 27 else 28)%nat).
  assert (j + 3 < 34)%nat as Hj by (subst j; destruct (isalpha c); lia).
  destruct (row_column row j) as [by_ Hby]; [done|lia|].
  destruct (row_column row (j + 1)) as [day Hday]; [done|lia|].
  destruct (row_column row (j + 2)) as [month Hmonth]; [done|lia|].
  destruct (row_column row (j + 3)) as [year Hyear]; [done|lia|].
  destruct (annotations_dictify_fields row c s fam by_ day month year)
    as (d & Hd & Hseq & Hfam & _); try done.
  destruct (annotations_dictify_names row c s Hlen H2)
    as (d' & Hd' & Hnames & Hreferences & Hremarks).
  rewrite Hd in Hd'. injection Hd' as <-.
  exists d. split; [done|]. rewrite Hseq, Hfam. split_and!.
  - destruct (isalpha c); [done|]. rewrite empty_to_none_str. split; [|done].
    unfold question_mark_to_none, py_eqb.
    case_bool_decide; case_decide; congruence.
  - intros i name v Hi Hname Hv.
    by rewrite (Hnames i name v Hi Hname Hv), empty_to_none_str.
  - intros v Hv. by rewrite (Hreferences v Hv), empty_to_none_str.
  - intros v Hv. by rewrite (Hremarks v Hv), empty_to_none_str.
Qed.

Lemma annotations_dictify_sequence_number_witness :
  let row := annotation_row "42" "Asteraceae" [] in
  ∃ d, AnnotationsHandler.dictify row = Ok d ∧
    (d !! "sequence_number" = Some (VStr "42") ∧
     d !! "family" = Some (VStr "Asteraceae")) ∧
    (∀ i name v,
       (i < 24)%nat → AnnotationsHandler.name_fields !! i = Some name →
       row !! (4 + i)%nat = Some v →
       d !! name = Some (if decide (v = "") then VNone else VStr v)) ∧
    (∀ v, row !! (4 + 28)%nat = Some v →
       d !! "annotation_references" =
         Some (if decide (v = "") then VNone else VStr v)) ∧
    (∀ v, row !! (4 + 29)%nat = Some v →
       d !! "annotation_remarks" =
         Some (if decide (v = "") then VNone else VStr v)).
Proof.
  exact (annotations_dictify_sequence_number
           (annotation_row "42" "Asteraceae" []) "4" "2" "Asteraceae"
           eq_refl eq_refl eq_refl).
Defined.

(** The example of the specification with a family in the third column:
    the fourth column is the scientific name, not the family. *)
Example family_in_third_column_example :
  let row := annotation_row "Asteraceae" "Aster" [] in
  decoded_field (AnnotationsHandler.dictify row) "sequence_number" = Some VNone ∧
  decoded_field (AnnotationsHandler.dictify row) "family" =
    Some (VStr "Asteraceae") ∧
  decoded_field (AnnotationsHandler.dictify row) "scientific_name" =
    Some (VStr "Aster").
Proof. by vm_compute. Qed.

(** The claim does not hold as stated: a third column ["?"] does not start
    with a letter, yet the sequence number is not that value but null. *)
Lemma question_mark_sequence_number_is_null :
  let row := annotation_row "?" "Asteraceae" [] in
  length row = 34%nat ∧ row !! 2%nat = Some "?" ∧
  first_isalpha "?" = Ok false ∧
  (∃ d, AnnotationsHandler.dictify row = Ok d ∧
        d !! "sequence_number" = Some VNone) ∧
  ¬ (∃ d, AnnotationsHandler.dictify row = Ok d ∧
          d !! "sequence_number" = Some (VStr "?") ∧
          d !! "family" = Some (VStr "Asteraceae")).
Proof.
  cbn zeta.
  assert (decoded_field (AnnotationsHandler.dictify
            (annotation_row "?" "Asteraceae" [])) "sequence_number" = Some VNone)
    as Hfield by (by vm_compute).
  apply decoded_field_Some in Hfield as (d & Hd & Hseq).
  split_and!.
  - reflexivity.
  - reflexivity.
  - reflexivity.
  - exists d. by split.
  - intros (d' & Hd' & Hseq' & _).
    rewrite Hd in Hd'. injection Hd' as <-.
    rewrite Hseq in Hseq'. discriminate Hseq'.
Qed.

(** C4, as amended.  On a row of 34 columns whose third column is not
    empty and whose day column is ["ICBN"], the day is null; the annotator
    is read from the year column, and the year is null, exactly when the
    month column is ["ICBN"] as well.  Otherwise the year keeps its column
    and the annotator is the month column if that holds a name, and the
    annotator column if not. *)
Theorem annotations_dictify_icbn_day row c s by_ month year :
  length row = 34%nat →
  row !! 2%nat = Some (String c s) →
  let k := (if isalpha c then 27 else 28)%nat in
  row !! k = Some by_ →
  row !! (k + 1)%nat = Some "ICBN" →
  row !! (k + 2)%nat = Some month →
  row !! (k + 3)%nat = Some year →
  ∃ d, AnnotationsHandler.dictify row = Ok d ∧
    d !! "day_annotated" = Some VNone ∧
    if decide (month = "ICBN") then
      d !! "annotated_by" = Some (empty_to_none (VStr year)) ∧
      d !! "year_annotated" = Some VNone
    else
      d !! "year_annotated" = Some (empty_to_none (VStr year)) ∧
      d !! "annotated_by" =
        Some (if month_is_name month then VStr month
              else empty_to_none (VStr by_)).
Proof.
  intros Hlen H2 k Hby Hday Hmonth Hyear.
  destruct (row_column row 3) as [fam Hfam]; [done|lia|].
  destruct (annotations_dictify_fields row c s fam by_ "ICBN" month year)
    as (d & Hd & _ & _ & Hd1 & _ & Hd2 & Hd3); try done.
  exists d. split; [done|]. rewrite Hd1, Hd2, Hd3.
  split; [done|]. by case_decide.
Qed.

Lemma annotations_dictify_icbn_day_witness :
  ∃ d, AnnotationsHandler.dictify
         (annotation_row "42" "Asteraceae"
            ["nobody"; "ICBN"; "ICBN"; "A. Smith"; "refs"; "remarks"]) = Ok d ∧
    d !! "day_annotated" = Some VNone ∧
    d !! "annotated_by" = Some (VStr "A. Smith") ∧
    d !! "year_annotated" = Some VNone.
Proof.
  apply (annotations_dictify_icbn_day
           (annotation_row "42" "Asteraceae"
              ["nobody"; "ICBN"; "ICBN"; "A. Smith"; "refs"; "remarks"])
           "4" "2" "nobody" "ICBN" "A. Smith");
    reflexivity.
Defined.

(** The claim does not hold as stated: with ["ICBN"] in the day column and
    a number in the month column, the year stays the year and the
    annotator stays the annotator. *)
Lemma icbn_day_keeps_year :
  let row := annotation_row "42" "Asteraceae"
               ["A. Smith"; "ICBN"; "5"; "1999"; "refs"; "remarks"] in
  length row = 34%nat ∧ row !! 29%nat = Some "ICBN" ∧
  (∃ d, AnnotationsHandler.dictify row = Ok d ∧
        d !! "day_annotated" = Some VNone ∧
        d !! "annotated_by" = Some (VStr "A. Smith") ∧
        d !! "year_annotated" = Some (VStr "1999")) ∧
  ¬ (∃ d, AnnotationsHandler.dictify row = Ok d ∧
          d !! "day_annotated" = Some VNone ∧
          d !! "annotated_by" = Some (VStr "1999") ∧
          d !! "year_annotated" = Some VNone).
Proof.
  cbn zeta.
  set (row := annotation_row _ _ _).
  assert (decoded_field (AnnotationsHandler.dictify row) "day_annotated"
            = Some VNone) as Hday by (by vm_compute).
  assert (decoded_field (AnnotationsHandler.dictify row) "annotated_by"
            = Some (VStr "A. Smith")) as Hby by (by vm_compute).
  assert (decoded_field (AnnotationsHandler.dictify row) "year_annotated"
            = Some (VStr "1999")) as Hyear by (by vm_compute).
  apply decoded_field_Some in Hday as (d & Hd & Hday).
  rewrite Hd in Hby, Hyear. cbn [decoded_field] in Hby, Hyear.
  split_and!.
  - reflexivity.
  - reflexivity.
  - exists d. by split_and!.
  - intros (d' & Hd' & _ & _ & Hyear').
    rewrite Hd in Hd'. injection Hd' as <-.
    rewrite Hyear in Hyear'. discriminate Hyear'.
Qed.

End decoder_claims.

(** ** Batches of a list *)

Section batches.
Context {A : Type}.
Implicit Types (l : list A) (b : nat).

Lemma full_batches_length b l : length (full_batches b l) = (length l / b)%nat.
Proof. unfold full_batches. by rewrite length_fmap, length_seq. Qed.

Lemma full_batches_lookup b l i :
  (i < length l / b)%nat →
  full_batches b l !! i = Some (take b (drop (i * b) l)).
Proof.
  intros Hi. unfold full_batches.
  rewrite list_lookup_fmap, lookup_seq_lt by done. done.
Qed.

Lemma full_batch_length b l i :
  (0 < b)%nat → (i < length l / b)%nat →
  length (take b (drop (i * b) l)) = b.
Proof.
  intros Hb Hi. rewrite length_take, length_drop.
  assert (S i * b ≤ length l)%nat; [|lia].
  transitivity (length l / b * b)%nat.
  - apply Nat.mul_le_mono_r. lia.
  - rewrite Nat.mul_comm. apply Nat.Div0.mul_div_le.
Qed.

Lemma last_batch_length b l :
  (0 < b)%nat → length (last_batch b l) = (length l mod b)%nat.
Proof.
  intros Hb. unfold last_batch. rewrite length_drop.
  rewrite (Nat.div_mod_eq (length l) b) at 1. lia.
Qed.

Lemma full_batches_short b l :
  (length l < b)%nat → full_batches b l = [] ∧ last_batch b l = l.
Proof.
  intros Hl. unfold full_batches, last_batch.
  by rewrite Nat.div_small.
Qed.

Lemma full_batches_app b l1 l2 :
  (0 < b)%nat → length l1 = b →
  full_batches b (l1 ++ l2) = l1 :: full_batches b l2 ∧
  last_batch b (l1 ++ l2) = last_batch b l2.
Proof.
  intros Hb Hl1. unfold full_batches, last_batch. rewrite length_app, Hl1.
  replace ((b + length l2) / b)%nat with (S (length l2 / b)).
  2:{ replace (b + length l2)%nat with (1 * b + length l2)%nat by lia.
      rewrite Nat.div_add_l by lia. done. }
  split.
  - cbn [seq fmap list_fmap]. f_equal.
    + rewrite Nat.mul_0_l, drop_0. by apply take_app_length'.
    + rewrite <- fmap_S_seq, <- list_fmap_compose.
      apply list_fmap_ext. intros _ i _. cbn [compose].
      rewrite Nat.mul_succ_l, Nat.add_comm, <- drop_drop.
      by rewrite drop_app_length'.
  - rewrite Nat.mul_succ_l, Nat.add_comm, <- drop_drop.
    by rewrite drop_app_length'.
Qed.

(** The number of batches is the quotient rounded up. *)
Lemma div_up n b :
  (0 < b)%nat →
  ((n + b - 1) / b = n / b + (if decide (n mod b = 0) then 0 else 1))%nat.
Proof.
  intros Hb. pose proof (Nat.div_mod_eq n b) as Hn.
  pose proof (Nat.mod_upper_bound n b) as Hr.
  case_decide as H0.
  - symmetry. apply (Nat.div_unique _ _ _ (b - 1)); lia.
  - symmetry. apply (Nat.div_unique _ _ _ (n mod b - 1)); lia.
Qed.

End batches.

(** ** State and exceptions *)

Section prog.
Context {S A B : Type}.

Lemma bind_ok (m : prog S A) (f : A → prog S B) st a st' :
  m st = (Ok a, st') → (m ≫= f) st = f a st'.
Proof. intros Hm. unfold mbind, prog_bind. by rewrite Hm. Qed.

Lemma bind_raise (m : prog S A) (f : A → prog S B) st e st' :
  m st = (Raise e, st') → (m ≫= f) st = (Raise e, st').
Proof. intros Hm. unfold mbind, prog_bind. by rewrite Hm. Qed.

End prog.

(** ** BaseHandler *)

Lemma executed_app tr1 tr2 : executed (tr1 ++ tr2) = executed tr1 ++ executed tr2.
Proof. apply omap_app. Qed.

Lemma failed_app tr1 tr2 : failed (tr1 ++ tr2) = failed tr1 ++ failed tr2.
Proof. apply omap_app. Qed.

Lemma logged_errors_app tr1 tr2 :
  logged_errors (tr1 ++ tr2) = logged_errors tr1 ++ logged_errors tr2.
Proof. apply omap_app. Qed.

Lemma rollbacks_app tr1 tr2 : rollbacks (tr1 ++ tr2) = rollbacks tr1 ++ rollbacks tr2.
Proof. apply omap_app. Qed.

Lemma batch_events_executed outcome entities :
  executed (batch_events outcome entities) = [entities].
Proof. by destruct outcome. Qed.

Lemma batch_events_accounted outcome entities :
  logged_errors (batch_events outcome entities) = failed (batch_events outcome entities) ∧
  length (rollbacks (batch_events outcome entities)) =
    length (failed (batch_events outcome entities)) ∧
  failed (batch_events outcome entities) = option_list outcome.
Proof. by destruct outcome. Qed.

Lemma accounted_nil : accounted [].
Proof. done. Qed.

Lemma accounted_app ev1 ev2 : accounted ev1 → accounted ev2 → accounted (ev1 ++ ev2).
Proof.
  intros [H1 H1'] [H2 H2']. unfold accounted.
  rewrite logged_errors_app, failed_app, rollbacks_app, !length_app. split; congruence.
Qed.

Lemma accounted_batch_events outcome entities :
  accounted (batch_events outcome entities).
Proof. by destruct outcome. Qed.

Section base_handler.
Variable dictify : list string → result dict.
Variable execute_values : sink.
Variable valid_keys : gset pyval.
Variable table_name : option string.

(** [batch_insert] returns normally whatever the sink does. *)
Lemma batch_insert_spec entities tr :
  BaseHandler.batch_insert execute_values entities tr =
  (Ok (), tr ++ batch_events (execute_values (tr ++ [ECursor]) entities) entities).
Proof.
  unfold BaseHandler.batch_insert, BaseHandler.with_cursor, try_finally,
    try_except, BaseHandler.execute, BaseHandler.emit, modify, batch_events,
    mbind, prog_bind.
  destruct (execute_values (tr ++ [ECursor]) entities) as [error|];
    cbn [is_Exception]; by rewrite <- !app_assoc.
Qed.

Section handle.
Variable batch_size : Z.
Variable skip_fkey_validation : bool.
Variable no_commit : bool.

Abbreviation handle_rows :=
  (BaseHandler.handle_rows dictify execute_values valid_keys batch_size
     skip_fkey_validation no_commit).
Abbreviation handle :=
  (BaseHandler.handle dictify execute_values valid_keys table_name batch_size
     skip_fkey_validation no_commit).

Abbreviation row_decodes := (decodes dictify skip_fkey_validation).
Abbreviation kept := (forwarded skip_fkey_validation valid_keys).

Lemma forwarded_cons d ds :
  kept (d :: ds) = kept [d] ++ kept ds.
Proof.
  unfold forwarded. destruct skip_fkey_validation; [done|].
  rewrite !filter_cons, filter_nil. by case_decide.
Qed.

Lemma forwarded_one_length d :
  (length (kept [d]) ≤ 1)%nat.
Proof.
  unfold forwarded. destruct skip_fkey_validation; [done|].
  rewrite filter_cons, filter_nil. case_decide; simpl; lia.
Qed.

Lemma handle_rows_step row rows d entities num_rows tr :
  row_decodes row d →
  handle_rows (row :: rows) entities num_rows tr =
  let entities := entities ++ kept [d] in
  let commit := if no_commit then [] else [ECommit] in
  if bool_decide (Z.of_nat (length entities) >= batch_size)
  then
    handle_rows rows [] (S num_rows)
      ((tr ++ batch_events (execute_values (tr ++ [ECursor]) entities) entities)
         ++ commit)
  else handle_rows rows entities (S num_rows) (tr ++ commit).
Proof.
  intros [Hd Hkey]. cbn zeta. cbn [BaseHandler.handle_rows].
  unfold forwarded, lift at 1. unfold mbind at 1, prog_bind at 1.
  rewrite Hd.
  assert (∀ entities tr,
    ((if negb no_commit then BaseHandler.emit ECommit else mret ()) ;;
     handle_rows rows entities (S num_rows)) tr =
    handle_rows rows entities (S num_rows)
      (tr ++ (if no_commit then [] else [ECommit]))) as Hcommit.
  { intros entities' tr'. unfold mbind, prog_bind, BaseHandler.emit, modify.
    destruct no_commit; cbn [negb mret prog_ret]; by rewrite ?app_nil_r. }
  assert (∀ entities tr,
    ((if bool_decide (Z.of_nat (length entities) >= batch_size)
      then BaseHandler.batch_insert execute_values entities ;; mret []
      else mret entities) ≫= λ entities,
       (if negb no_commit then BaseHandler.emit ECommit else mret ()) ;;
       handle_rows rows entities (S num_rows)) tr =
    if bool_decide (Z.of_nat (length entities) >= batch_size)
    then handle_rows rows [] (S num_rows)
      ((tr ++ batch_events (execute_values (tr ++ [ECursor]) entities) entities)
         ++ (if no_commit then [] else [ECommit]))
    else handle_rows rows entities (S num_rows)
           (tr ++ (if no_commit then [] else [ECommit]))) as Hflush.
  { intros entities' tr'. case_bool_decide.
    - unfold mbind at 1, prog_bind at 1. unfold mbind at 1, prog_bind at 1.
      rewrite batch_insert_spec. cbn [mret prog_ret]. apply Hcommit.
    - unfold mbind at 1, prog_bind at 1. cbn [mret prog_ret]. apply Hcommit. }
  destruct skip_fkey_validation; cbn [negb].
  - unfold mbind at 1, prog_bind at 1. cbn [mret prog_ret]. apply Hflush.
  - destruct Hkey as [occurrence_id Hkey]; [done|].
    unfold lift, getitem. rewrite Hkey.
    unfold mbind at 1, prog_bind at 1. unfold mbind at 1, prog_bind at 1.
    cbn [mret prog_ret].
    rewrite filter_cons, filter_nil. unfold occurrence_id_in. rewrite Hkey.
    rewrite Hflush.
    destruct (py_in occurrence_id valid_keys); case_decide; try done.
    by rewrite app_nil_r.
Qed.

(** The loop for any batch size: what was flushed and what is still
    held make up the rows that passed the filter. *)
Lemma handle_rows_forwarded rows ds :
  Forall2 row_decodes rows ds →
  ∀ entities num_rows tr, ∃ entities' ev,
    handle_rows rows entities num_rows tr =
      (Ok (entities', (num_rows + length rows)%nat), tr ++ ev) ∧
    concat (executed ev) ++ entities' = entities ++ kept ds ∧
    accounted ev.
Proof.
  induction 1 as [|row d rows ds Hd _ IH]; intros entities num_rows tr.
  - exists entities, []. cbn [BaseHandler.handle_rows mret prog_ret].
    rewrite !app_nil_r, Nat.add_0_r. unfold forwarded.
    destruct skip_fkey_validation; by rewrite ?filter_nil, ?app_nil_r.
  - rewrite (handle_rows_step row rows d) by done. cbn zeta.
    rewrite (forwarded_cons d ds), app_assoc.
    set (entities1 := entities ++ kept [d]).
    set (commit := if no_commit then [] else [ECommit]).
    assert (accounted commit ∧ executed commit = []) as [Hc1 Hc2]
      by (subst commit; by destruct no_commit).
    replace (num_rows + length (row :: rows))%nat
      with (S num_rows + length rows)%nat by (simpl; lia).
    case_bool_decide.
    + set (be := batch_events _ entities1).
      destruct (IH [] (S num_rows) ((tr ++ be) ++ commit))
        as (entities' & ev & -> & Hcat & Hacc).
      exists entities', (be ++ commit ++ ev).
      rewrite <- !app_assoc. split; [done|].
      rewrite !executed_app, Hc2. subst be. rewrite batch_events_executed.
      change (concat ([entities1] ++ [] ++ executed ev))
        with (entities1 ++ concat (executed ev)).
      rewrite <- app_assoc, Hcat. split; [done|].
      auto using accounted_app, accounted_batch_events.
    + destruct (IH entities1 (S num_rows) (tr ++ commit))
        as (entities' & ev & -> & Hcat & Hacc).
      exists entities', (commit ++ ev).
      rewrite <- !app_assoc. split; [done|].
      rewrite !executed_app, Hc2. split; [done|].
      auto using accounted_app.
Qed.

(** The loop for a batch size [b] of at least one: every flush hands
    over exactly [b] rows, and fewer than [b] are held at any time. *)
Lemma handle_rows_batches (b : nat) rows ds :
  batch_size = Z.of_nat b → (0 < b)%nat →
  Forall2 row_decodes rows ds →
  ∀ entities num_rows tr, (length entities < b)%nat → ∃ ev,
    handle_rows rows entities num_rows tr =
      (Ok (last_batch b (entities ++ kept ds),
           (num_rows + length rows)%nat), tr ++ ev) ∧
    executed ev = full_batches b (entities ++ kept ds).
Proof.
  intros Hbs Hb. induction 1 as [|row d rows ds Hd _ IH];
    intros entities num_rows tr Hlen.
  - exists []. cbn [BaseHandler.handle_rows mret prog_ret].
    assert (kept [] = []) as ->.
    { unfold forwarded. by destruct skip_fkey_validation. }
    rewrite !app_nil_r, Nat.add_0_r.
    by destruct (full_batches_short b entities Hlen) as [-> ->].
  - rewrite (handle_rows_step row rows d) by done. cbn zeta.
    rewrite (forwarded_cons d ds), app_assoc.
    pose proof (forwarded_one_length d) as Hone.
    set (entities1 := entities ++ kept [d]) in *.
    assert (length entities1 ≤ b)%nat as Hlen1
      by (subst entities1; rewrite length_app; lia).
    set (commit := if no_commit then [] else [ECommit]).
    assert (executed commit = []) as Hc by (subst commit; by destruct no_commit).
    replace (num_rows + length (row :: rows))%nat
      with (S num_rows + length rows)%nat by (simpl; lia).
    case_bool_decide as Hfull; rewrite Hbs in Hfull.
    + assert (length entities1 = b) as Hb1 by lia.
      set (be := batch_events _ entities1).
      destruct (IH [] (S num_rows) ((tr ++ be) ++ commit))
        as (ev & -> & Hex); [simpl; lia|].
      destruct (full_batches_app b entities1 (kept ds) Hb Hb1) as [-> ->].
      exists (be ++ commit ++ ev).
      rewrite <- !app_assoc. split; [done|].
      subst be. by rewrite !executed_app, batch_events_executed, Hc, Hex.
    + destruct (IH entities1 (S num_rows) (tr ++ commit))
        as (ev & -> & Hex); [lia|].
      exists (commit ++ ev).
      rewrite <- !app_assoc. split; [done|].
      by rewrite !executed_app, Hc, Hex.
Qed.

(** The whole pass over a file with a header. *)
Lemma handle_spec header rows ds tr :
  Forall2 row_decodes rows ds →
  ∃ ev, handle (header :: rows) tr = (Ok (), tr ++ ev) ∧
    concat (executed ev) = kept ds ∧
    accounted ev ∧
    ∀ b : nat, batch_size = Z.of_nat b → (0 < b)%nat →
      executed ev = full_batches b (kept ds) ++
        (if decide (length (kept ds) mod b = 0)%nat then []
         else [last_batch b (kept ds)]).
Proof.
  intros Hrows. unfold BaseHandler.handle.
  set (warn := if skip_fkey_validation
               then [ELogWarning "Skipping foreign key validation"] else []).
  assert (accounted warn ∧ executed warn = []) as [Hw1 Hw2]
    by (subst warn; by destruct skip_fkey_validation).
  assert (∀ k : () → prog trace (),
    ((if skip_fkey_validation
      then BaseHandler.emit (ELogWarning "Skipping foreign key validation")
      else mret ()) ≫= k) tr = k () (tr ++ warn)) as ->.
  { intros k. subst warn. unfold mbind, prog_bind, BaseHandler.emit, modify.
    destruct skip_fkey_validation; cbn [mret prog_ret]; by rewrite ?app_nil_r. }
  unfold mbind at 1, prog_bind at 1. cbn [next_rows mret prog_ret].
  unfold mbind at 1, prog_bind at 1.
  destruct (handle_rows_forwarded rows ds Hrows [] 0%nat (tr ++ warn))
    as (entities' & ev & Hloop & Hcat & Hacc).
  rewrite Hloop. simpl in Hcat.
  set (final := if bool_decide (Z.of_nat (length entities') > 0)
                then batch_events (execute_values ((tr ++ warn ++ ev) ++ [ECursor])
                                     entities') entities'
                else []).
  exists (warn ++ ev ++ final ++ [ELogInfo (0 + length rows) table_name]).
  assert (concat (executed final) = entities' ∧ accounted final) as [Hf1 Hf2].
  { subst final. case_bool_decide as Hlen.
    - rewrite batch_events_executed. simpl. rewrite app_nil_r.
      auto using accounted_batch_events.
    - destruct entities'; [done|]. simpl in Hlen. lia. }
  split_and!.
  - unfold mbind, prog_bind, BaseHandler.emit, modify. subst final.
    case_bool_decide.
    + rewrite batch_insert_spec. by rewrite <- !app_assoc.
    + cbn [mret prog_ret]. by rewrite <- !app_assoc.
  - rewrite !executed_app, Hw2. simpl. rewrite !concat_app, Hf1. simpl.
    by rewrite app_nil_r.
  - repeat apply accounted_app; done.
  - intros b Hbs Hb.
    destruct (handle_rows_batches b rows ds Hbs Hb Hrows [] 0%nat (tr ++ warn))
      as (ev' & Hloop' & Hex); [simpl; lia|].
    rewrite Hloop in Hloop'. simpl in Hloop'.
    injection Hloop' as -> Hev. apply app_inv_head in Hev as <-.
    rewrite !executed_app, Hw2, Hex. simpl. rewrite app_nil_r. f_equal.
    subst final. pose proof (last_batch_length b (kept ds) Hb) as Hlast.
    clear Hf1 Hf2.
    destruct (decide (length (kept ds) mod b = 0)%nat) as [Hmod|Hmod].
    * by rewrite bool_decide_false by lia.
    * rewrite bool_decide_true by lia. by rewrite batch_events_executed.
Qed.

(** When the filter is on and rejects every row that decodes, nothing
    is ever held, and the sink is handed no row, whether or not the pass
    ends with an exception. *)
Lemma handle_rows_none_forwarded rows :
  skip_fkey_validation = false →
  (∀ row d, dictify row = Ok d →
     ∃ occurrence_id, d !! "occurrence_id" = Some occurrence_id ∧
       py_in occurrence_id valid_keys = false) →
  ∀ num_rows tr,
    concat (executed (handle_rows rows [] num_rows tr).2) = concat (executed tr) ∧
    ∀ entities n, (handle_rows rows [] num_rows tr).1 = Ok (entities, n) →
      entities = [].
Proof.
  intros Hskip Hreject.
  induction rows as [|row rows IH]; intros num_rows tr.
  - cbn [BaseHandler.handle_rows mret prog_ret]. split; [done|].
    intros entities n. simpl. congruence.
  - destruct (dictify row) as [d|e] eqn:Hd.
    + destruct (Hreject row d Hd) as (occurrence_id & Hkey & Hin).
      rewrite (handle_rows_step row rows d) by (split; eauto).
      assert (kept [d] = []) as ->.
      { unfold forwarded. rewrite Hskip, filter_cons, filter_nil.
        unfold occurrence_id_in. rewrite Hkey, Hin. by case_decide. }
      cbn zeta. rewrite app_nil_r.
      set (commit := if no_commit then [] else [ECommit]).
      assert (executed commit = []) as Hc by (subst commit; by destruct no_commit).
      case_bool_decide.
      * destruct (IH (S num_rows)
          ((tr ++ batch_events (execute_values (tr ++ [ECursor]) []) []) ++ commit))
          as [-> Hheld].
        split; [|done].
        rewrite !executed_app, batch_events_executed, Hc, !concat_app. simpl.
        by rewrite !app_nil_r.
      * destruct (IH (S num_rows) (tr ++ commit)) as [-> Hheld].
        split; [|done]. by rewrite executed_app, Hc, app_nil_r.
    + cbn [BaseHandler.handle_rows]. unfold mbind at 1, prog_bind at 1, lift at 1.
      rewrite Hd. split; [done|]. intros entities n. simpl. congruence.
Qed.

Lemma handle_none_forwarded file tr :
  skip_fkey_validation = false →
  (∀ row d, dictify row = Ok d →
     ∃ occurrence_id, d !! "occurrence_id" = Some occurrence_id ∧
       py_in occurrence_id valid_keys = false) →
  concat (executed (handle file tr).2) = concat (executed tr).
Proof.
  intros Hskip Hreject. unfold BaseHandler.handle. rewrite Hskip at 1.
  unfold mbind at 1, prog_bind at 1. cbn [mret prog_ret].
  destruct file as [|header rows].
  { by unfold mbind, prog_bind, next_rows, lift. }
  unfold mbind at 1, prog_bind at 1. cbn [next_rows mret prog_ret].
  unfold mbind at 1, prog_bind at 1.
  destruct (handle_rows_none_forwarded rows Hskip Hreject 0%nat tr) as [Hex Hheld].
  destruct (handle_rows rows [] 0%nat tr) as [[[entities n]|e] tr'] eqn:Hloop;
    simpl in Hex, Hheld; [|done].
  rewrite (Hheld entities n eq_refl).
  unfold mbind, prog_bind, BaseHandler.emit, modify. cbn [mret prog_ret].
  simpl. by rewrite executed_app, app_nil_r.
Qed.

End handle.
End base_handler.

(** ** Passes over any file *)

Section base_handler_runs.
Variable dictify : list string → result dict.
Variable execute_values : sink.
Variable valid_keys : gset pyval.
Variable table_name : option string.
Variable batch_size : Z.
Variable skip_fkey_validation : bool.
Variable no_commit : bool.

Abbreviation handle_rows :=
  (BaseHandler.handle_rows dictify execute_values valid_keys batch_size
     skip_fkey_validation no_commit).
Abbreviation handle :=
  (BaseHandler.handle dictify execute_values valid_keys table_name batch_size
     skip_fkey_validation no_commit).
Abbreviation row_decodes := (decodes dictify skip_fkey_validation).
Abbreviation kept := (forwarded skip_fkey_validation valid_keys).
Abbreviation read := (decoded_prefix dictify skip_fkey_validation).
Abbreviation failure := (first_failure dictify skip_fkey_validation).

(** The pass in terms of its loop. *)
Lemma handle_run header rows tr :
  handle (header :: rows) tr =
  let warn := if skip_fkey_validation
              then [ELogWarning "Skipping foreign key validation"] else [] in
  match handle_rows rows [] 0%nat (tr ++ warn) with
  | (Ok (entities, num_rows), tr') =>
      (Ok (),
       tr' ++ (if bool_decide (Z.of_nat (length entities) > 0)
               then batch_events (execute_values (tr' ++ [ECursor]) entities)
                      entities
               else []) ++ [ELogInfo num_rows table_name])
  | (Raise e, tr') => (Raise e, tr')
  end.
Proof.
  cbn zeta. unfold BaseHandler.handle.
  set (warn := if skip_fkey_validation
               then [ELogWarning "Skipping foreign key validation"] else []).
  assert (∀ k : () → prog trace (),
    ((if skip_fkey_validation
      then BaseHandler.emit (ELogWarning "Skipping foreign key validation")
      else mret ()) ≫= k) tr = k () (tr ++ warn)) as ->.
  { intros k. subst warn. unfold mbind, prog_bind, BaseHandler.emit, modify.
    destruct skip_fkey_validation; cbn [mret prog_ret]; by rewrite ?app_nil_r. }
  unfold mbind at 1, prog_bind at 1. cbn [next_rows mret prog_ret].
  unfold mbind at 1, prog_bind at 1.
  destruct (handle_rows rows [] 0%nat (tr ++ warn)) as [[[entities n]|e] tr'];
    [|done].
  unfold mbind, prog_bind. case_bool_decide.
  - rewrite batch_insert_spec. unfold BaseHandler.emit, modify.
    by rewrite <- app_assoc.
  - unfold BaseHandler.emit, modify. by cbn [mret prog_ret app].
Qed.

Lemma forwarded_nil : kept [] = [].
Proof. unfold forwarded. by destruct skip_fkey_validation. Qed.

(** The first row either decodes, with the key the filter reads, or ends
    the loop. *)
Lemma first_row_cases row rows :
  (∃ d, row_decodes row d ∧ read (row :: rows) = d :: read rows ∧
        failure (row :: rows) = failure rows) ∨
  (∃ e, failure (row :: rows) = Some e ∧ read (row :: rows) = [] ∧
        ∀ entities num_rows tr,
          handle_rows (row :: rows) entities num_rows tr = (Raise e, tr)).
Proof.
  cbn [decoded_prefix first_failure BaseHandler.handle_rows].
  destruct (dictify row) as [d|e] eqn:Hd.
  - destruct (skip_fkey_validation || bool_decide (is_Some (d !! "occurrence_id")))
      eqn:Hkey.
    + left. exists d. split_and!; [split; [done|]|done|done].
      intros Hskip. rewrite Hskip in Hkey. by apply bool_decide_eq_true in Hkey.
    + right. exists KeyError. split_and!; [done|done|].
      apply orb_false_iff in Hkey as [Hskip Hkey].
      apply bool_decide_eq_false in Hkey.
      intros entities num_rows tr. rewrite Hskip.
      unfold mbind at 1, prog_bind at 1, lift at 1. cbn [negb].
      unfold mbind at 1, prog_bind at 1. unfold mbind at 1, prog_bind at 1.
      unfold lift, getitem.
      destruct (d !! "occurrence_id") as [occurrence_id|]; [|done].
      destruct Hkey. by eexists.
  - right. exists e. split_and!; [done|done|].
    intros entities num_rows tr. by unfold mbind at 1, prog_bind at 1, lift at 1.
Qed.

(** The loop on any rows, for any batch size: what was handed to the sink
    and what is still held make up the rows that were read and kept. *)
Lemma handle_rows_read rows :
  ∀ entities num_rows tr,
    (entities = [] ∨ Z.of_nat (length entities) < batch_size) →
    ∃ ev held,
      handle_rows rows entities num_rows tr =
        (pass_result (failure rows) (held, (num_rows + length rows)%nat), tr ++ ev) ∧
      concat (executed ev) ++ held = entities ++ kept (read rows) ∧
      (held = [] ∨ Z.of_nat (length held) < batch_size).
Proof.
  induction rows as [|row rows IH]; intros entities num_rows tr Hheld.
  { exists [], entities. cbn [BaseHandler.handle_rows mret prog_ret pass_result
      first_failure decoded_prefix].
    by rewrite forwarded_nil, !app_nil_r, Nat.add_0_r. }
  destruct (first_row_cases row rows)
    as [(d & Hd & -> & ->)|(e & -> & -> & ->)].
  2:{ exists [], entities. by rewrite forwarded_nil, !app_nil_r. }
  rewrite (handle_rows_step _ _ _ _ _ _ row rows d) by done. cbn zeta.
  rewrite (forwarded_cons _ _ d (read rows)), app_assoc.
  set (entities1 := entities ++ kept [d]).
  set (commit := if no_commit then [] else [ECommit]).
  assert (executed commit = []) as Hc by (subst commit; by destruct no_commit).
  replace (num_rows + length (row :: rows))%nat
    with (S num_rows + length rows)%nat by (simpl; lia).
  case_bool_decide as Hfull.
  - set (be := batch_events _ entities1).
    destruct (IH [] (S num_rows) ((tr ++ be) ++ commit))
      as (ev & held & -> & Hcat & Hheld'); [by left|].
    exists (be ++ commit ++ ev), held. rewrite <- !app_assoc.
    split_and!; [done| |done]. subst be.
    rewrite !executed_app, batch_events_executed, Hc. simpl.
    by rewrite <- app_assoc, Hcat.
  - destruct (IH entities1 (S num_rows) (tr ++ commit))
      as (ev & held & -> & Hcat & Hheld'); [right; lia|].
    exists (commit ++ ev), held. rewrite <- !app_assoc.
    split_and!; [done| |done].
    by rewrite !executed_app, Hc.
Qed.

(** The same loop for a batch size [b > 0]: the sink was handed the full
    batches of the rows read and kept, and the rest is held. *)
Lemma handle_rows_read_batches (b : nat) rows :
  batch_size = Z.of_nat b → (0 < b)%nat →
  ∀ entities num_rows tr, (length entities < b)%nat → ∃ ev,
    handle_rows rows entities num_rows tr =
      (pass_result (failure rows)
         (last_batch b (entities ++ kept (read rows)),
          (num_rows + length rows)%nat), tr ++ ev) ∧
    executed ev = full_batches b (entities ++ kept (read rows)).
Proof.
  intros Hbs Hb.
  induction rows as [|row rows IH]; intros entities num_rows tr Hlen.
  { exists []. cbn [BaseHandler.handle_rows mret prog_ret pass_result
      first_failure decoded_prefix].
    rewrite forwarded_nil, !app_nil_r, Nat.add_0_r.
    by destruct (full_batches_short b entities Hlen) as [-> ->]. }
  destruct (first_row_cases row rows)
    as [(d & Hd & -> & ->)|(e & -> & -> & ->)].
  2:{ exists []. rewrite forwarded_nil, !app_nil_r.
      by destruct (full_batches_short b entities Hlen) as [-> _]. }
  rewrite (handle_rows_step _ _ _ _ _ _ row rows d) by done. cbn zeta.
  rewrite (forwarded_cons _ _ d (read rows)), app_assoc.
  pose proof (forwarded_one_length valid_keys skip_fkey_validation d) as Hone.
  set (entities1 := entities ++ kept [d]) in *.
  assert (length entities1 ≤ b)%nat as Hlen1
    by (subst entities1; rewrite length_app; lia).
  set (commit := if no_commit then [] else [ECommit]).
  assert (executed commit = []) as Hc by (subst commit; by destruct no_commit).
  replace (num_rows + length (row :: rows))%nat
    with (S num_rows + length rows)%nat by (simpl; lia).
  case_bool_decide as Hfull; rewrite Hbs in Hfull.
  - assert (length entities1 = b) as Hb1 by lia.
    set (be := batch_events _ entities1).
    destruct (IH [] (S num_rows) ((tr ++ be) ++ commit))
      as (ev & -> & Hex); [simpl; lia|].
    destruct (full_batches_app b entities1 (kept (read rows)) Hb Hb1) as [-> ->].
    exists (be ++ commit ++ ev).
    rewrite <- !app_assoc. split; [done|].
    subst be. by rewrite !executed_app, batch_events_executed, Hc, Hex.
  - destruct (IH entities1 (S num_rows) (tr ++ commit))
      as (ev & -> & Hex); [lia|].
    exists (commit ++ ev).
    rewrite <- !app_assoc. split; [done|].
    by rewrite !executed_app, Hc, Hex.
Qed.

(** A pass over any file with a header. *)
Lemma handle_read header rows tr :
  ∃ ev held,
    handle (header :: rows) tr = (pass_result (failure rows) (), tr ++ ev) ∧
    concat (executed ev) ++ held = kept (read rows) ∧
    (failure rows = None → held = []) ∧
    (held = [] ∨ Z.of_nat (length held) < batch_size) ∧
    ∀ b : nat, batch_size = Z.of_nat b → (0 < b)%nat →
      executed ev = full_batches b (kept (read rows)) ++
        (if decide (failure rows = None ∧ length (kept (read rows)) mod b ≠ 0)%nat
         then [last_batch b (kept (read rows))] else []).
Proof.
  rewrite handle_run. cbn zeta.
  set (warn := if skip_fkey_validation
               then [ELogWarning "Skipping foreign key validation"] else []).
  assert (executed warn = []) as Hw by (subst warn; by destruct skip_fkey_validation).
  destruct (handle_rows_read rows [] 0%nat (tr ++ warn))
    as (ev & held & Hloop & Hcat & Hheld); [by left|].
  rewrite Hloop. simpl in Hcat.
  destruct (failure rows) as [e|] eqn:Hfailure; cbn [pass_result].
  - exists (warn ++ ev), held. rewrite <- app_assoc, executed_app, Hw.
    split_and!; [done|done|done|done|].
    intros b Hbs Hb.
    destruct (handle_rows_read_batches b rows Hbs Hb [] 0%nat (tr ++ warn))
      as (ev' & Hloop' & Hex); [simpl; lia|].
    rewrite Hloop, Hfailure in Hloop'. cbn [pass_result app] in Hloop'.
    injection Hloop' as Hev. apply app_inv_head in Hev as <-.
    rewrite Hex. cbn [app]. rewrite decide_False by (by intros [? _]).
    by rewrite app_nil_r.
  - set (final := if bool_decide (Z.of_nat (length held) > 0)
                  then batch_events
                         (execute_values (((tr ++ warn) ++ ev) ++ [ECursor]) held)
                         held
                  else []).
    assert (concat (executed final) = held) as Hfinal.
    { subst final. case_bool_decide as Hlen.
      - rewrite batch_events_executed. simpl. by rewrite app_nil_r.
      - destruct held; [done|]. simpl in Hlen. lia. }
    exists (warn ++ ev ++ final ++ [ELogInfo (0 + length rows) table_name]), [].
    split_and!; [by rewrite <- !app_assoc| |done|by left|].
    + rewrite !executed_app, Hw. simpl. rewrite !concat_app, Hfinal. simpl.
      by rewrite !app_nil_r.
    + intros b Hbs Hb.
      destruct (handle_rows_read_batches b rows Hbs Hb [] 0%nat (tr ++ warn))
        as (ev' & Hloop' & Hex); [simpl; lia|].
      rewrite Hloop, Hfailure in Hloop'. cbn [pass_result app] in Hloop'.
      injection Hloop' as -> Hev. apply app_inv_head in Hev as <-.
      rewrite !executed_app, Hw, Hex. simpl. rewrite app_nil_r. f_equal.
      subst final.
      pose proof (last_batch_length b (kept (read rows)) Hb) as Hlast.
      clear Hfinal Hcat Hheld Hloop.
      case_decide as Hmod.
      * rewrite bool_decide_true by lia. by rewrite batch_events_executed.
      * rewrite bool_decide_false; [done|].
        destruct (decide (length (kept (read rows)) mod b = 0)%nat); [lia|].
        destruct Hmod. by split.
Qed.

(** Rows that all decode are all read. *)
Lemma read_all rows ds :
  Forall2 row_decodes rows ds → read rows = ds ∧ failure rows = None.
Proof.
  induction 1 as [|row d rows ds [Hd Hkey] _ [IH1 IH2]]; [done|].
  cbn [decoded_prefix first_failure]. rewrite Hd.
  assert (skip_fkey_validation || bool_decide (is_Some (d !! "occurrence_id"))
          = true) as ->.
  { destruct skip_fkey_validation; [done|]. by rewrite bool_decide_true by auto. }
  by rewrite IH1, IH2.
Qed.

End base_handler_runs.

(** ** Claims about the ingestion handler *)

Lemma media_row_decodes skip occurrence_id :
  decodes MediaHandler.dictify skip (media_row occurrence_id)
    (media_entity occurrence_id).
Proof.
  split.
  - by rewrite media_dictify_enough by (simpl; lia).
  - intros _. exists (TransformHelper.empty_to_none (VStr occurrence_id)).
    unfold media_entity. cbn zeta.
    unfold TransformHelper.transform_empty_to_none.
    by rewrite map_fields_keys_lookup.
Qed.

Lemma media_rows_decode skip occurrence_ids :
  Forall2 (decodes MediaHandler.dictify skip)
    (media_row <$> occurrence_ids) (media_entity <$> occurrence_ids).
Proof.
  induction occurrence_ids; constructor; auto using media_row_decodes.
Qed.




(** The example of the specification: with valid keys OCC1 and OCC2 and
    rows for OCC1 and OCC3, only the OCC1 row passes the filter. *)
Example forwarded_example :
  forwarded false {[ VStr "OCC1"; VStr "OCC2" ]} (media_entity <$> ["OCC1"; "OCC3"])
  = [media_entity "OCC1"].
Proof.
  unfold forwarded. cbn [fmap list_fmap].
  rewrite !filter_cons, filter_nil.
  rewrite decide_True by (by vm_compute).
  rewrite decide_False; [done|]. by vm_compute.
Qed.

(** C6, as amended.  With a batch size [b] of at least one, in a pass over
    any file with a header, let [n] be the number of rows that pass the
    filter among the rows read before the first row that fails to decode.
    The sink receives [n / b] batches of exactly [b] rows, cut from those
    rows in order.  When no row fails, one more batch follows with the
    [n mod b] remaining rows if there are any, [n / b] rounded up in all.
    When a row fails, the pass ends with its exception and that last batch
    is never sent. *)
Theorem handle_batches dictify execute_values valid_keys table_name (b : nat)
    skip_fkey_validation no_commit header rows tr :
  (1 ≤ b)%nat →
  (let survivors := forwarded skip_fkey_validation valid_keys
                      (decoded_prefix dictify skip_fkey_validation rows) in
   let n := length survivors in
   let failure := first_failure dictify skip_fkey_validation rows in
   ∃ ev,
     BaseHandler.handle dictify execute_values valid_keys table_name (Z.of_nat b)
       skip_fkey_validation no_commit (header :: rows) tr =
       (pass_result failure (), tr ++ ev) ∧
     length (executed ev) =
       (if failure is None then (n + b - 1) / b else n / b)%nat ∧
     (∀ i, (i < n / b)%nat →
        executed ev !! i = Some (take b (drop (i * b) survivors)) ∧
        length (take b (drop (i * b) survivors)) = b) ∧
     (failure = None → (0 < n mod b)%nat →
        executed ev !! (n / b)%nat = Some (drop (n / b * b) survivors) ∧
        length (drop (n / b * b) survivors) = (n mod b)%nat)) ∧
  (∀ ds,
     Forall2 (decodes dictify skip_fkey_validation) rows ds →
     let survivors := forwarded skip_fkey_validation valid_keys ds in
     let n := length survivors in
     ∃ ev,
       BaseHandler.handle dictify execute_values valid_keys table_name (Z.of_nat b)
         skip_fkey_validation no_commit (header :: rows) tr = (Ok (), tr ++ ev) ∧
       length (executed ev) = ((n + b - 1) / b)%nat ∧
       (∀ i, (i < n / b)%nat →
          executed ev !! i = Some (take b (drop (i * b) survivors)) ∧
          length (take b (drop (i * b) survivors)) = b) ∧
       ((0 < n mod b)%nat →
          executed ev !! (n / b)%nat = Some (drop (n / b * b) survivors) ∧
          length (drop (n / b * b) survivors) = (n mod b)%nat)).
Proof.
  intros Hb.
  assert (∀ survivors ev (last : bool),
    executed ev = full_batches b survivors ++
      (if last then [last_batch b survivors] else []) →
    let n := length survivors in
    length (executed ev) = (n / b + if last then 1 else 0)%nat ∧
    (∀ i, (i < n / b)%nat →
       executed ev !! i = Some (take b (drop (i * b) survivors)) ∧
       length (take b (drop (i * b) survivors)) = b) ∧
    (last = true → (0 < n mod b)%nat →
       executed ev !! (n / b)%nat = Some (drop (n / b * b) survivors) ∧
       length (drop (n / b * b) survivors) = (n mod b)%nat)) as Hcut.
  { intros survivors ev last Hex. cbn zeta. rewrite Hex.
    pose proof (full_batches_length b survivors) as Hfull.
    split_and!.
    - rewrite length_app, Hfull. by destruct last.
    - intros i Hi. split; [|by apply full_batch_length; lia].
      rewrite lookup_app_l by lia. by apply full_batches_lookup.
    - intros -> Hmod.
      split; [|apply (last_batch_length b survivors); lia].
      rewrite lookup_app_r by lia. by rewrite Hfull, Nat.sub_diag. }
  split.
  - intros survivors n failure.
    destruct (handle_read dictify execute_values valid_keys table_name (Z.of_nat b)
                skip_fkey_validation no_commit header rows tr)
      as (ev & held & Hev & _ & _ & _ & Hex).
    specialize (Hex b eq_refl Hb). fold survivors failure n in Hex.
    exists ev. split; [done|].
    destruct (Hcut survivors ev
                (bool_decide (failure = None ∧ (n mod b)%nat ≠ 0%nat)))
      as (Hlen & Hfull & Hlast).
    { rewrite Hex. by case_decide; [rewrite bool_decide_true|rewrite bool_decide_false]. }
    cbn zeta in Hlen, Hfull, Hlast. fold n in Hlen, Hfull, Hlast.
    split_and!.
    + rewrite Hlen. destruct failure as [e|].
      * rewrite bool_decide_false by (by intros [? _]). lia.
      * rewrite div_up by lia.
        destruct (decide (n mod b = 0)%nat) as [Hmod|Hmod].
        -- by rewrite bool_decide_false by (by intros [_ ?]).
        -- by rewrite bool_decide_true.
    + done.
    + intros Hnone Hmod. apply Hlast; [|done].
      apply bool_decide_eq_true. split; [done|lia].
  - intros ds Hrows survivors n.
    destruct (handle_spec dictify execute_values valid_keys table_name (Z.of_nat b)
                skip_fkey_validation no_commit header rows ds tr Hrows)
      as (ev & Hev & _ & _ & Hex).
    specialize (Hex b eq_refl Hb). fold survivors in Hex. fold n in Hex.
    exists ev. split; [done|].
    destruct (Hcut survivors ev (bool_decide (n mod b ≠ 0)%nat))
      as (Hlen & Hfull & Hlast).
    { rewrite Hex. fold n.
      by case_decide; [rewrite bool_decide_false by lia
                      |rewrite bool_decide_true by lia]. }
    cbn zeta in Hlen, Hfull, Hlast. fold n in Hlen, Hfull, Hlast.
    split_and!.
    + rewrite Hlen, div_up by lia.
      destruct (decide (n mod b = 0)%nat) as [Hmod|Hmod].
      * by rewrite bool_decide_false by (by intros ?).
      * by rewrite bool_decide_true.
    + done.
    + intros Hmod. apply Hlast; [|done]. apply bool_decide_eq_true. lia.
Qed.

Lemma handle_batches_witness :
  let survivors := forwarded true ∅ (media_entity <$> ["A"; "B"; "C"; "D"; "E"]) in
  let n := length survivors in
  ∃ ev,
    BaseHandler.handle MediaHandler.dictify sink_accepts ∅ None (Z.of_nat 2)
      true true (media_file ["A"; "B"; "C"; "D"; "E"]) [] = (Ok (), [] ++ ev) ∧
    length (executed ev) = ((n + 2 - 1) / 2)%nat ∧
    (∀ i, (i < n / 2)%nat →
       executed ev !! i = Some (take 2 (drop (i * 2) survivors)) ∧
       length (take 2 (drop (i * 2) survivors)) = 2%nat) ∧
    ((0 < n mod 2)%nat →
       executed ev !! (n / 2)%nat = Some (drop (n / 2 * 2) survivors) ∧
       length (drop (n / 2 * 2) survivors) = (n mod 2)%nat).
Proof.
  destruct (handle_batches MediaHandler.dictify sink_accepts ∅ None 2 true true
              MediaHandler.fields (media_row <$> ["A"; "B"; "C"; "D"; "E"]) [])
    as [_ Hall]; [lia|].
  apply (Hall (media_entity <$> ["A"; "B"; "C"; "D"; "E"])).
  apply media_rows_decode.
Defined.

(** The claim does not hold as stated for every run: with batch size 2,
    three rows that decode and pass the filter and then a row that fails to
    decode, the sink receives one bulk insert, of the first two rows, not
    two. *)
Lemma aborted_pass_skips_last_batch :
  let good := ["A"; "B"; "C"] in
  let file := MediaHandler.fields :: (media_row <$> good) ++ [["D"]] in
  let run := BaseHandler.handle MediaHandler.dictify sink_accepts ∅ None 2
               true true file [] in
  Forall2 (decodes MediaHandler.dictify true)
    (media_row <$> good) (media_entity <$> good) ∧
  length (forwarded true ∅ (media_entity <$> good)) = 3%nat ∧
  run.1 = Raise IndexError ∧
  length <$> executed run.2 = [2%nat] ∧
  length (executed run.2) ≠ ((3 + 2 - 1) / 2)%nat.
Proof.
  cbn zeta. split_and!.
  - apply media_rows_decode.
  - reflexivity.
  - by vm_compute.
  - by vm_compute.
  - by vm_compute.
Qed.

(** The example of the specification: batch size 2 and five rows give three
    bulk inserts, of 2, 2 and 1 rows. *)
Example batch_sizes_example :
  length <$> executed
    (BaseHandler.handle MediaHandler.dictify sink_accepts ∅ None 2 true true
       (media_file ["A"; "B"; "C"; "D"; "E"]) []).2 = [2; 2; 1]%nat.
Proof. by vm_compute. Qed.

(** C7. [batch_insert] returns normally whatever the sink does: when the
    bulk insert raises, the error is logged and the connection rolled back.
    So a pass over a file whose rows all decode ends without an exception,
    every batch is attempted whether or not an earlier one failed, and the
    errors logged are exactly the errors raised, one rollback each. *)
Theorem batch_failures_are_isolated dictify execute_values valid_keys table_name
    (b : nat) skip_fkey_validation no_commit header rows ds tr :
  (1 ≤ b)%nat →
  Forall2 (decodes dictify skip_fkey_validation) rows ds →
  let survivors := forwarded skip_fkey_validation valid_keys ds in
  (∀ entities tr,
     BaseHandler.batch_insert execute_values entities tr =
     (Ok (), tr ++ batch_events (execute_values (tr ++ [ECursor]) entities) entities)) ∧
  ∃ ev,
    BaseHandler.handle dictify execute_values valid_keys table_name (Z.of_nat b)
      skip_fkey_validation no_commit (header :: rows) tr = (Ok (), tr ++ ev) ∧
    executed ev =
      full_batches b survivors ++
      (if decide (length survivors mod b = 0)%nat then []
       else [last_batch b survivors]) ∧
    logged_errors ev = failed ev ∧
    length (rollbacks ev) = length (failed ev).
Proof.
  intros Hb Hrows survivors. split; [apply batch_insert_spec|].
  destruct (handle_spec dictify execute_values valid_keys table_name (Z.of_nat b)
              skip_fkey_validation no_commit header rows ds tr Hrows)
    as (ev & Hev & _ & [Hlog Hroll] & Hex).
  exists ev. split_and!; try done. by apply Hex.
Qed.

Lemma batch_failures_are_isolated_witness :
  let survivors := forwarded true ∅ (media_entity <$> ["A"; "B"; "C"; "D"; "E"]) in
  (∀ entities tr,
     BaseHandler.batch_insert sink_second_fails entities tr =
     (Ok (), tr ++ batch_events (sink_second_fails (tr ++ [ECursor]) entities) entities)) ∧
  ∃ ev,
    BaseHandler.handle MediaHandler.dictify sink_second_fails ∅ None (Z.of_nat 2)
      true true (media_file ["A"; "B"; "C"; "D"; "E"]) [] = (Ok (), [] ++ ev) ∧
    executed ev =
      full_batches 2 survivors ++
      (if decide (length survivors mod 2 = 0)%nat then []
       else [last_batch 2 survivors]) ∧
    logged_errors ev = failed ev ∧
    length (rollbacks ev) = length (failed ev).
Proof.
  apply (batch_failures_are_isolated MediaHandler.dictify sink_second_fails ∅ None
           2 true true MediaHandler.fields (media_row <$> ["A"; "B"; "C"; "D"; "E"])
           (media_entity <$> ["A"; "B"; "C"; "D"; "E"]) []).
  - lia.
  - apply media_rows_decode.
Defined.

(** The example of the specification: the second of three batches raises;
    the pass ends normally, all three batches are attempted, and one error
    and one rollback are recorded. *)
Example second_batch_fails_example :
  let run := BaseHandler.handle MediaHandler.dictify sink_second_fails ∅ None 2
               true true (media_file ["A"; "B"; "C"; "D"; "E"]) [] in
  run.1 = Ok () ∧
  length <$> executed run.2 = [2; 2; 1]%nat ∧
  failed run.2 = [SinkError "constraint violation"] ∧
  logged_errors run.2 = [SinkError "constraint violation"] ∧
  rollbacks run.2 = [()].
Proof. cbn zeta. split_and!; by vm_compute. Qed.

(** ** Validator *)

Section preserves.
Context {S : Type} (R : relation S) `{!PreOrder R}.

Lemma preserves_ret {A} (a : A) : preserves R (mret a : prog S A).
Proof. intros st. simpl. reflexivity. Qed.

Lemma preserves_lift {A} (r : result A) : preserves R (lift r : prog S A).
Proof. intros st. simpl. reflexivity. Qed.

Lemma preserves_read {A} (f : S → result A) : preserves R (λ st, (f st, st)).
Proof. intros st. simpl. reflexivity. Qed.

Lemma preserves_modify (f : S → S) : (∀ st, R st (f st)) → preserves R (modify f).
Proof. intros Hf st. apply Hf. Qed.

Lemma preserves_bind {A B} (m : prog S A) (f : A → prog S B) :
  preserves R m → (∀ a, preserves R (f a)) → preserves R (m ≫= f).
Proof.
  intros Hm Hf st. unfold mbind, prog_bind. specialize (Hm st).
  destruct (m st) as [[a|e] st']; simpl in Hm; [|done].
  by etrans; [|apply Hf].
Qed.

Lemma preserves_try_except {A} (body : prog S A) handles handler :
  preserves R body → (∀ e, preserves R (handler e)) →
  preserves R (try_except body handles handler).
Proof.
  intros Hbody Hhandler st. unfold try_except. specialize (Hbody st).
  destruct (body st) as [[a|e] st']; simpl in Hbody; [done|].
  destruct (handles e); [|done]. by etrans; [|apply Hhandler].
Qed.

Lemma preserves_for_each {A} (xs : list A) (body : A → prog S unit) :
  (∀ x, preserves R (body x)) → preserves R (for_each xs body).
Proof.
  intros Hbody. induction xs as [|x xs IH]; cbn [for_each].
  - apply preserves_ret.
  - apply preserves_bind; auto.
Qed.

Lemma preserves_next_rows rows : preserves R (next_rows rows : prog S _).
Proof. destruct rows; [apply preserves_lift|apply preserves_ret]. Qed.

End preserves.

Lemma preserves_weaken {S A} (R R' : relation S) (m : prog S A) :
  (∀ st st', R st st' → R' st st') → preserves R m → preserves R' m.
Proof. intros HR Hm st. apply HR, Hm. Qed.

Global Instance only_reports_preorder : PreOrder only_reports.
Proof.
  split.
  - by intros st.
  - intros st1 st2 st3 (H1 & H1' & H1'') (H2 & H2' & H2'').
    split_and!; [congruence..|auto].
Qed.

Create HintDb reports discriminated.

(** Steps through a validator routine, one statement at a time; the leaves
    are closed from the [reports] database. *)
Ltac preserves_step :=
  lazymatch goal with
  | |- preserves _ (mbind _ _) => apply preserves_bind; [apply _| |intros ?]
  | |- preserves _ (mret _) => apply preserves_ret; apply _
  | |- preserves _ (lift _) => apply preserves_lift; apply _
  | |- preserves _ (next_rows _) => apply preserves_next_rows; apply _
  | |- preserves _ (for_each _ _) => apply preserves_for_each; [apply _|intros ?]
  | |- preserves _ (try_except _ _ _) =>
      apply preserves_try_except; [apply _| |intros ?]
  | |- preserves _ (if ?b then _ else _) => destruct b
  | |- preserves _ (match ?x with Some _ => _ | None => _ end) => destruct x
  | |- preserves _ (λ st, (_, st)) => apply preserves_read; apply _
  | |- preserves _ _ => solve [auto with reports]
  end.

Section only_reports.
Import Validator.
Context `{Builtins}.

(** Recording an error appends it to the list of its entity and keeps
    everything else. *)
Lemma add_error_spec table_name entity_id value st :
  is_Some (errors st !! table_name) →
  ∃ st', _add_error_for_entity table_name entity_id value st = (Ok (), st') ∧
    errors_of st' table_name entity_id =
      errors_of st table_name entity_id ++ [value] ∧
    only_reports st st'.
Proof.
  intros [table Htable]. eexists. split.
  { unfold _add_error_for_entity, mbind, prog_bind, getitem, modify, set_errors.
    rewrite Htable. reflexivity. }
  unfold only_reports, set_errors. simpl.
  split_and!; try done.
  - unfold errors_of. simpl. rewrite lookup_insert_eq, Htable. simpl.
    by rewrite lookup_insert_eq.
  - rewrite dom_insert_L. apply elem_of_dom_2 in Htable.
    by apply subseteq_union_1_L, singleton_subseteq_l.
  - intros table_name' entity_id' error. unfold errors_of. simpl.
    destruct (decide (table_name = table_name')) as [<-|Hne].
    + rewrite lookup_insert_eq, Htable. simpl.
      destruct (decide (hkey entity_id = hkey entity_id')) as [<-|Hne'].
      * rewrite lookup_insert_eq. simpl. intros Hin.
        apply elem_of_app. by left.
      * by rewrite lookup_insert_ne.
    + by rewrite lookup_insert_ne.
Qed.

Lemma add_error_only_reports table_name entity_id value :
  preserves only_reports (_add_error_for_entity table_name entity_id value).
Proof.
  intros st. destruct (errors st !! table_name) as [table|] eqn:Htable.
  - destruct (add_error_spec table_name entity_id value st) as (st' & -> & _ & Hst');
      eauto.
  - unfold _add_error_for_entity, mbind, prog_bind, getitem.
    rewrite Htable. simpl. reflexivity.
Qed.
Hint Resolve add_error_only_reports : reports.

Lemma discard_only_reports {A} (m : prog state A) :
  preserves only_reports m → preserves only_reports (discard m).
Proof. intros Hm. unfold discard. by repeat preserves_step. Qed.
Hint Resolve discard_only_reports : reports.

Lemma validate_fkey_only_reports table_name entity :
  preserves only_reports (validate_fkey table_name entity).
Proof. unfold validate_fkey. repeat preserves_step. Qed.

Lemma validate_length_only_reports table_name key entity length :
  preserves only_reports (validate_length table_name key entity length).
Proof. unfold validate_length. repeat preserves_step. Qed.

Lemma validate_integer_only_reports table_name key entity :
  preserves only_reports (validate_integer table_name key entity).
Proof. unfold validate_integer. repeat preserves_step. Qed.

Lemma validate_numeric_only_reports table_name key entity :
  preserves only_reports (validate_numeric table_name key entity).
Proof. unfold validate_numeric. repeat preserves_step. Qed.

Hint Resolve validate_fkey_only_reports validate_length_only_reports
  validate_integer_only_reports validate_numeric_only_reports : reports.

Lemma validate_media_only_reports entity :
  preserves only_reports (validate_media entity).
Proof. unfold validate_media. repeat preserves_step. Qed.

Lemma _validate_media_only_reports file :
  preserves only_reports (_validate_media file).
Proof.
  unfold _validate_media. repeat preserves_step.
  apply validate_media_only_reports.
Qed.

End only_reports.

#[global] Hint Resolve add_error_only_reports discard_only_reports
  validate_fkey_only_reports validate_length_only_reports
  validate_integer_only_reports validate_numeric_only_reports : reports.

Section validator_claims.
Import Validator.
Context `{Builtins}.

(** C3.  A numeric field that holds a string the [Decimal] constructor
    rejects makes [validate_numeric] raise: the constructor raises
    [decimal.InvalidOperation], which [except ValueError] does not handle.
    Nothing is recorded and the validation run stops there. *)
Theorem validate_numeric_raises table_name key entity s st :
  entity !! key = Some (VStr s) →
  decimal_of_str s = false →
  validate_numeric table_name key entity st = (Raise InvalidOperation, st).
Proof.
  intros Hkey Hs.
  unfold validate_numeric, try_except, lift, getitem, mbind, prog_bind.
  rewrite Hkey. cbn [is_None Decimal]. by rewrite Hs.
Qed.

(** The integer check, by contrast, records the error and returns. *)
Lemma validate_integer_records table_name key entity s occurrence_id st :
  entity !! key = Some (VStr s) →
  int_of_str s = None →
  entity !! "occurrence_id" = Some occurrence_id →
  is_Some (errors st !! table_name) →
  let error := ("Expected integer value for key " +:+ key, VStr s) in
  ∃ st', validate_integer table_name key entity st = (Ok (Some error), st') ∧
    errors_of st' table_name occurrence_id =
      errors_of st table_name occurrence_id ++ [error].
Proof.
  intros Hkey Hs Hid Htable error.
  destruct (add_error_spec table_name occurrence_id error st Htable)
    as (st' & Hadd & Herrors & _).
  exists st'. split; [|done].
  unfold validate_integer, try_except, lift, getitem, mbind, prog_bind.
  rewrite Hkey. cbn [is_None int]. rewrite Hs. cbn [is_ValueError].
  rewrite Hid. fold error. by rewrite Hadd.
Qed.

End validator_claims.

Lemma validate_numeric_raises_witness :
  @Validator.validate_numeric plain_builtins "corpus_occurrences"
    "decimal_latitude" bad_latitude_entity Validator.init
  = (Raise InvalidOperation, Validator.init).
Proof.
  apply (@validate_numeric_raises plain_builtins "corpus_occurrences"
           "decimal_latitude" bad_latitude_entity "north" Validator.init);
    reflexivity.
Defined.

(** A whole validation pass over an occurrence file stops at the row whose
    latitude is not a number. *)
Example validation_halts_example :
  (@Validator._validate_occurrences plain_builtins
     [OccurencesHandler.fields; bad_latitude_row; occurrence_row "OCC2" "guid-2"]
     Validator.init).1 = Raise InvalidOperation.
Proof. by vm_compute. Qed.

Section uniqueness.
Import Validator.
Context `{Builtins}.

(** [validate_unique] on a value not seen before, or null: no error, and
    the value joins the seen set. *)
Lemma validate_unique_fresh table_name key entity value st :
  entity !! key = Some value →
  let set_key := table_name +:+ ":" +:+ key in
  let seen := default ∅ (sets st !! set_key) in
  negb (is_None value) && py_in value seen = false →
  validate_unique table_name key entity st =
  (Ok None, set_sets (<[set_key := py_add value seen]>) st).
Proof.
  intros Hkey set_key seen Hfresh.
  unfold validate_unique, lift, getitem, modify, mbind, prog_bind.
  fold set_key. rewrite Hkey.
  destruct (sets st !! set_key) as [seen'|] eqn:Hseen; subst seen; simpl in *.
  - rewrite Hseen, Hfresh. done.
  - rewrite lookup_insert_eq, Hfresh. unfold set_sets. simpl.
    by rewrite insert_insert_eq.
Qed.

(** [validate_unique] on a value seen before: the error is recorded under
    the entity's key and the value sets stay as they are. *)
Lemma validate_unique_duplicate table_name key entity value occurrence_id st :
  entity !! key = Some value →
  entity !! "occurrence_id" = Some occurrence_id →
  is_Some (errors st !! table_name) →
  let set_key := table_name +:+ ":" +:+ key in
  let seen := default ∅ (sets st !! set_key) in
  let error := ("Duplicate " +:+ key +:+ " found", value) in
  negb (is_None value) && py_in value seen = true →
  ∃ st', validate_unique table_name key entity st = (Ok (Some error), st') ∧
    errors_of st' table_name occurrence_id =
      errors_of st table_name occurrence_id ++ [error] ∧
    only_reports st st'.
Proof.
  intros Hkey Hid Htable set_key seen error Hdup.
  destruct (add_error_spec table_name occurrence_id error st Htable)
    as (st' & Hadd & Herrors & Hst').
  exists st'. split; [|done].
  unfold validate_unique, lift, getitem, modify, mbind, prog_bind.
  fold set_key. rewrite Hkey.
  destruct (sets st !! set_key) as [seen'|] eqn:Hseen; subst seen; simpl in *.
  - rewrite Hseen, Hdup, Hid. fold error. by rewrite Hadd.
  - apply andb_true_iff in Hdup as [_ Hin].
    apply py_in_spec in Hin. by apply not_elem_of_empty in Hin.
Qed.

Lemma validate_occurrence_checks_only_report entity :
  preserves only_reports
    (for_each occurrence_varchar_255_fields (λ field,
       discard (validate_length "corpus_occurrences" field entity 255)) ;;
     for_each occurrence_numeric_fields (λ field,
       discard (validate_numeric "corpus_occurrences" field entity))).
Proof. repeat preserves_step. Qed.

(** C8.  [validate_occurrence] adds the occurrence's key to the valid-key
    set exactly when the uniqueness check of its guid reports no error,
    that is when the guid is null or was not seen before.  An occurrence
    with a guid seen before is flagged and the set is left as it was.  In
    both cases a guid that is not null is in the seen set afterwards, so
    that the first sighting seeds the set and later ones are flagged. *)
Theorem validate_occurrence_seeds_valid_keys entity guid occurrence_id
    valid_set st :
  entity !! "guid" = Some guid →
  entity !! "occurrence_id" = Some occurrence_id →
  sets st !! "valid_occurrence_ids" = Some valid_set →
  is_Some (errors st !! "corpus_occurrences") →
  let seen := default ∅ (sets st !! "corpus_occurrences:guid") in
  let duplicate := negb (is_None guid) && py_in guid seen in
  let error := ("Duplicate guid found", guid) in
  let st' := (validate_occurrence entity st).2 in
  (validate_unique "corpus_occurrences" "guid" entity st).1 =
    Ok (if duplicate then Some error else None) ∧
  sets st' !! "valid_occurrence_ids" =
    Some (if duplicate then valid_set else py_add occurrence_id valid_set) ∧
  (duplicate = true → error ∈ errors_of st' "corpus_occurrences" occurrence_id) ∧
  sets st' !! "corpus_occurrences:guid" =
    Some (if duplicate then seen else py_add guid seen).
Proof.
  intros Hguid Hid Hvalid Htable seen duplicate error st'.
  pose proof (validate_occurrence_checks_only_report entity) as Hchecks.
  subst st'. unfold validate_occurrence.
  destruct duplicate eqn:Hdup; subst duplicate.
  - destruct (validate_unique_duplicate "corpus_occurrences" "guid" entity guid
                occurrence_id st Hguid Hid Htable Hdup)
      as (st1 & Hunique & Herrors & Hsets & _ & _).
    rewrite Hunique. split; [done|].
    erewrite bind_ok by exact Hunique.
    erewrite bind_ok by reflexivity.
    destruct (Hchecks st1) as (Hsets' & _ & Hgrow).
    rewrite Hsets', Hsets, Hvalid. split_and!; [done| |].
    + intros _. apply Hgrow. rewrite Herrors. apply elem_of_app. right.
      by apply list_elem_of_singleton.
    + apply andb_true_iff in Hdup as [_ Hin]. apply py_in_spec in Hin.
      subst seen. destruct (sets st !! "corpus_occurrences:guid"); [done|].
      by apply not_elem_of_empty in Hin.
  - pose proof (validate_unique_fresh "corpus_occurrences" "guid" entity guid st
                  Hguid Hdup) as Hunique.
    rewrite Hunique. split; [done|].
    erewrite bind_ok by exact Hunique.
    set (st1 := set_sets _ st).
    assert (sets st1 !! "valid_occurrence_ids" = Some valid_set) as Hvalid1.
    { subst st1. simpl. by rewrite lookup_insert_ne. }
    erewrite bind_ok.
    2:{ unfold mbind, prog_bind, lift, getitem, modify.
        rewrite Hvalid1, Hid. reflexivity. }
    match goal with |- context [(_ ?st2).2] => destruct (Hchecks st2) as (-> & _ & _) end.
    simpl. rewrite lookup_insert_eq. split_and!; [done|done|].
    rewrite lookup_insert_ne by done. by rewrite lookup_insert_eq.
Qed.

End uniqueness.

Lemma validate_occurrence_seeds_valid_keys_witness :
  Validator.sets
    (@Validator.validate_occurrence plain_builtins
       (guid_entity "OCC1" "guid-1") Validator.init).2
    !! "valid_occurrence_ids" = Some (py_add (VStr "OCC1") ∅).
Proof.
  destruct (@validate_occurrence_seeds_valid_keys plain_builtins
              (guid_entity "OCC1" "guid-1") (VStr "guid-1") (VStr "OCC1") ∅
              Validator.init) as (_ & Hvalid & _).
  - reflexivity.
  - reflexivity.
  - reflexivity.
  - eexists. reflexivity.
  - exact Hvalid.
Defined.

(** Two occurrences with the same guid: the first seeds the valid-key set,
    the second is flagged and its key is not added. *)
Example duplicate_guid_example :
  let run := @Validator._validate_occurrences plain_builtins
               (occurrence_file [("OCC1", "guid-1"); ("OCC2", "guid-1")])
               Validator.init in
  run.1 = Ok () ∧
  elements (Validator.valid_occurrence_ids run.2) = [VStr "OCC1"] ∧
  errors_of run.2 "corpus_occurrences" (VStr "OCC1") = [] ∧
  errors_of run.2 "corpus_occurrences" (VStr "OCC2") =
    [("Duplicate guid found", VStr "guid-1")].
Proof. cbn zeta. split_and!; by vm_compute. Qed.

(** ** Type records against occurrence keys *)

Section foreign_keys.
Import Validator TransformHelper.
Context `{Builtins}.

Lemma Ok_inj {A} (a b : A) : Ok a = Ok b → a = b.
Proof. by intros [= ->]. Qed.

(** The occurrence decoder keys its mappings by a string or by null. *)
Lemma occurrences_dictify_key row d :
  OccurencesHandler.dictify row = Ok d →
  ∃ v, d !! "occurrence_id" = Some v ∧ str_or_none v.
Proof.
  unfold OccurencesHandler.dictify. case_bool_decide as Hlen; [done|].
  rewrite pop_fields_enough by (rewrite Hlen; compute_done).
  cbn [mbind result_bind].
  unfold transform_invalid_booleans. case_bool_decide; [|done].
  cbn [mbind result_bind]. intros Hd%Ok_inj. subst d.
  destruct (fill_is_Some OccurencesHandler.fields row ∅ "occurrence_id")
    as [v Hv]; [rewrite Hlen; compute_done|compute_done|].
  assert (is_str v = true) as Hstr.
  { eapply (fill_values (λ v, is_str v = true)); [done| |exact Hv].
    apply map_Forall_empty. }
  destruct v as [| | |s]; try done.
  exists (empty_to_none (VStr s)). split.
  - unfold transform_empty_to_none.
    rewrite map_fields_keys_lookup, map_fields_lookup, Hv.
    cbn [fmap option_fmap option_map].
    by rewrite bool_decide_false by compute_done.
  - rewrite empty_to_none_str. case_decide; [by right|by left].
Qed.

(** The type decoder keys its mappings by an integer. *)
Lemma types_dictify_key row d :
  TypesHandler.dictify row = Ok d → ∃ n, d !! "occurrence_id" = Some (VInt n).
Proof.
  destruct row as [|v row]; [done|].
  destruct (int_of_str v) as [n|] eqn:Hv.
  2:{ by rewrite types_dictify_not_int. }
  destruct (decide (length row < 18)%nat) as [Hshort|Hlong].
  - pose proof (types_dictify_short (v :: row)) as Hraise.
    intros Hd. rewrite Hd in Hraise. simpl in Hraise.
    discriminate Hraise. lia.
  - rewrite (types_dictify_enough v row n) by (done || lia).
    cbn zeta. intros Hd%Ok_inj. subst d. exists n.
    unfold transform_empty_to_none.
    rewrite map_fields_keys_lookup, fill_lookup_other by compute_done.
    by rewrite lookup_insert_eq.
Qed.

(** An integer is in no set of strings and nulls. *)
Lemma int_not_in_occurrence_keys n (valid_set : gset pyval) :
  (∀ v, v ∈ valid_set → str_or_none v) → py_in (VInt n) valid_set = false.
Proof.
  intros Hkeys. apply not_true_is_false. rewrite py_in_spec. intros Hin.
  by destruct (Hkeys _ Hin).
Qed.

Global Instance keeps_occurrence_keys_preorder : PreOrder keeps_occurrence_keys.
Proof. split; unfold keeps_occurrence_keys; [by intros st|]. intros st1 st2 st3. auto. Qed.

Lemma only_reports_keeps st st' : only_reports st st' → keeps_occurrence_keys st st'.
Proof.
  intros (Hsets & Hdom & _) [Hvalid Htable]. split.
  - by rewrite Hsets.
  - apply elem_of_dom. rewrite Hdom. by apply elem_of_dom.
Qed.

Lemma set_other_keeps key (seen : gset pyval) st :
  key ≠ "valid_occurrence_ids" →
  keeps_occurrence_keys st (set_sets (<[key := seen]>) st).
Proof.
  intros Hkey [Hvalid Htable]. split; [|done]. simpl.
  by rewrite lookup_insert_ne.
Qed.

Lemma validate_unique_keeps table_name key entity :
  table_name +:+ ":" +:+ key ≠ "valid_occurrence_ids" →
  preserves keeps_occurrence_keys (validate_unique table_name key entity).
Proof.
  intros Hkey. unfold validate_unique. repeat preserves_step.
  - apply preserves_modify. intros st.
    destruct (sets st !! _); [reflexivity|by apply set_other_keeps].
  - eapply preserves_weaken; [apply only_reports_keeps|].
    apply add_error_only_reports.
  - apply preserves_modify. intros st. by apply set_other_keeps.
Qed.

Lemma preserves_bind_lift {S A B} (R : relation S) `{!PreOrder R}
    (r : result A) (f : A → prog S B) :
  (∀ a, r = Ok a → preserves R (f a)) → preserves R (lift r ≫= f).
Proof.
  intros Hf st. unfold mbind, prog_bind, lift.
  destruct r as [a|e]; [by apply Hf|reflexivity].
Qed.

(** Validating an occurrence whose key is a string or null keeps the
    invariant: only such keys enter the valid-key set. *)
Lemma validate_occurrence_keeps entity :
  (∀ v, entity !! "occurrence_id" = Some v → str_or_none v) →
  preserves keeps_occurrence_keys (validate_occurrence entity).
Proof.
  intros Hid. unfold validate_occurrence.
  apply preserves_bind; [apply _| |intros e].
  { apply validate_unique_keeps. compute_done. }
  apply preserves_bind; [apply _| |intros _].
  2:{ eapply preserves_weaken; [apply only_reports_keeps|].
      apply validate_occurrence_checks_only_report. }
  destruct e as [e|]; [apply preserves_ret, _|].
  intros st [(valid_set & Hvalid & Hkeys) Htable].
  unfold mbind, prog_bind, lift, getitem, modify. rewrite Hvalid.
  destruct (entity !! "occurrence_id") as [v|] eqn:Hv; [|by split; eauto].
  split; [|done]. simpl. rewrite lookup_insert_eq. eexists. split; [done|].
  intros x [->|Hx]%elem_of_py_add; [|by auto].
  destruct (Hid v eq_refl) as [Hstr| ->]; [|by right].
  destruct v; try done. by left.
Qed.

Lemma _validate_occurrences_keeps file :
  preserves keeps_occurrence_keys (_validate_occurrences file).
Proof.
  unfold _validate_occurrences.
  apply preserves_bind; [apply _|apply preserves_next_rows, _|intros rows].
  apply preserves_for_each; [apply _|intros row].
  apply preserves_bind_lift; [apply _|]. intros d Hd.
  apply validate_occurrence_keeps. intros v Hv.
  destruct (occurrences_dictify_key _ _ Hd) as (v' & Hv' & Hstr). congruence.
Qed.

Lemma init_occurrence_keys : occurrence_keys init.
Proof.
  split.
  - exists ∅. split; [done|]. intros v Hv. by apply not_elem_of_empty in Hv.
  - by eexists.
Qed.

(** After the occurrence pass and the media pass, in any order of
    outcomes, the invariant holds. *)
Lemma validated_occurrence_keys occurrences media :
  occurrence_keys
    ((_validate_occurrences occurrences ;; _validate_media media) init).2.
Proof.
  assert (preserves keeps_occurrence_keys
            (_validate_occurrences occurrences ;; _validate_media media)) as Hkeeps.
  { apply preserves_bind; [apply _|apply _validate_occurrences_keeps|intros _].
    eapply preserves_weaken; [apply only_reports_keeps|].
    apply _validate_media_only_reports. }
  apply Hkeeps, init_occurrence_keys.
Qed.

(** In a state with the invariant, the foreign-key check of a type
    record reports an error and records it under the record's key. *)
Lemma validate_fkey_type_record d st :
  occurrence_keys st →
  ∀ n, d !! "occurrence_id" = Some (VInt n) →
  let error := ("Invalid foreign key", VInt n) in
  py_in (VInt n) (valid_occurrence_ids st) = false ∧
  ∃ st', validate_fkey "corpus_types" d st = (Ok (Some error), st') ∧
    errors_of st' "corpus_types" (VInt n) =
      errors_of st "corpus_types" (VInt n) ++ [error] ∧
    only_reports st st'.
Proof.
  intros [(valid_set & Hvalid & Hkeys) Htable] n Hn error.
  pose proof (int_not_in_occurrence_keys n valid_set Hkeys) as Hin.
  unfold valid_occurrence_ids. rewrite Hvalid. split; [done|].
  destruct (add_error_spec "corpus_types" (VInt n) error st Htable)
    as (st' & Hadd & Herrors & Hst').
  exists st'. split; [|done].
  unfold validate_fkey, mbind, prog_bind, lift, getitem.
  rewrite Hvalid, Hn, Hin. cbn [negb]. fold error. by rewrite Hadd.
Qed.

(** C2.  The valid-key set built by the occurrence pass holds strings and
    nulls only, and the type decoder keys its mappings by an integer.  So
    with the filter on, the ingestion pass over a type file hands no row
    to the sink, whatever the file, and the foreign-key check of the
    validator records an error for every type record it is given, at any
    point of the type pass. *)
Theorem type_rows_never_match_occurrence_keys occurrences media types
    execute_values table_name batch_size no_commit tr :
  let st := ((_validate_occurrences occurrences ;; _validate_media media) init).2 in
  let valid_keys := valid_occurrence_ids st in
  (∀ v, v ∈ valid_keys → str_or_none v) ∧
  concat (executed
    (BaseHandler.handle TypesHandler.dictify execute_values valid_keys
       table_name batch_size false no_commit types tr).2) = concat (executed tr) ∧
  ∀ row d st1,
    TypesHandler.dictify row = Ok d →
    only_reports st st1 →
    ∃ n st2,
      d !! "occurrence_id" = Some (VInt n) ∧
      py_in (VInt n) valid_keys = false ∧
      validate_fkey "corpus_types" d st1 =
        (Ok (Some ("Invalid foreign key", VInt n)), st2) ∧
      errors_of st2 "corpus_types" (VInt n) =
        errors_of st1 "corpus_types" (VInt n) ++ [("Invalid foreign key", VInt n)] ∧
      only_reports st st2.
Proof.
  intros st valid_keys.
  pose proof (validated_occurrence_keys occurrences media) as Hst. fold st in Hst.
  assert (∀ v, v ∈ valid_keys → str_or_none v) as Hkeys.
  { destruct Hst as [(valid_set & Hvalid & Hkeys) _].
    subst valid_keys. unfold valid_occurrence_ids. by rewrite Hvalid. }
  split_and!; [done| |].
  - apply handle_none_forwarded; [done|]. intros row d Hd.
    destruct (types_dictify_key row d Hd) as [n Hn].
    exists (VInt n). split; [done|]. by apply int_not_in_occurrence_keys.
  - intros row d st1 Hd Hst1.
    destruct (types_dictify_key row d Hd) as [n Hn].
    destruct (validate_fkey_type_record d st1 (only_reports_keeps _ _ Hst1 Hst) n Hn)
      as (_ & st2 & Hfkey & Herrors & Hst2).
    exists n, st2. split_and!; try done.
    + by apply int_not_in_occurrence_keys.
    + by etrans.
Qed.

End foreign_keys.

Lemma type_rows_never_match_occurrence_keys_witness :
  let st := ((@Validator._validate_occurrences plain_builtins
                (occurrence_file [("7", "guid-1")]) ;;
              Validator._validate_media (media_file ["7"]))
               Validator.init).2 in
  let d :=
    let d := fill TypesHandler.fields (replicate 18 "x")
               (<["occurrence_id" := VInt 7]> ∅) in
    TransformHelper.transform_empty_to_none d (keys d) in
  ∃ n st2,
    d !! "occurrence_id" = Some (VInt n) ∧
    py_in (VInt n) (Validator.valid_occurrence_ids st) = false ∧
    Validator.validate_fkey "corpus_types" d st =
      (Ok (Some ("Invalid foreign key", VInt n)), st2) ∧
    errors_of st2 "corpus_types" (VInt n) =
      errors_of st "corpus_types" (VInt n) ++ [("Invalid foreign key", VInt n)] ∧
    only_reports st st2.
Proof.
  intros st d.
  destruct (@type_rows_never_match_occurrence_keys plain_builtins
              (occurrence_file [("7", "guid-1")]) (media_file ["7"]) []
              sink_accepts None 1 true []) as (_ & _ & Hrecords).
  apply (Hrecords ("7" :: replicate 18 "x") d st).
  - apply (@types_dictify_enough plain_builtins); [simpl; lia|reflexivity].
  - reflexivity.
Defined.

(** Occurrence 7 is valid and its media row is loaded, but its type row is
    dropped: the decoded key is the integer 7, the valid key the string. *)
Example type_row_dropped_example :
  let st := (@Validator._validate_occurrences plain_builtins
               (occurrence_file [("7", "guid-1")]) Validator.init).2 in
  let valid_keys := Validator.valid_occurrence_ids st in
  elements valid_keys = [VStr "7"] ∧
  length <$> executed
    (BaseHandler.handle MediaHandler.dictify sink_accepts valid_keys None 1
       false true (media_file ["7"]) []).2 = [1%nat] ∧
  length <$> executed
    (BaseHandler.handle (@TypesHandler.dictify plain_builtins) sink_accepts
       valid_keys None 1 false true
       [TypesHandler.fields; "7" :: replicate 18 "x"] []).2 = [].
Proof. cbn zeta. split_and!; by vm_compute. Qed.

(** * Further properties *)

(** ** Positional decoding *)

Lemma fill_lookup names : ∀ row d i name v,
  NoDup names → names !! i = Some name → row !! i = Some v →
  fill names row d !! name = Some (VStr v).
Proof.
  induction names as [|name' names IH]; intros row d i name v Hnodup Hname Hv;
    [done|].
  apply NoDup_cons in Hnodup as [Hfresh Hnodup].
  destruct row as [|v' row]; [done|]. cbn [fill].
  destruct i as [|i]; simpl in Hname, Hv.
  - injection Hname as ->. injection Hv as ->.
    rewrite fill_lookup_other by done. apply lookup_insert_eq.
  - by apply (IH row _ i).
Qed.

Lemma fill_dom names : ∀ row (d : dict),
  (length names ≤ length row)%nat →
  dom (fill names row d) = list_to_set names ∪ dom d.
Proof.
  induction names as [|name names IH]; intros row d Hlen.
  - simpl. by rewrite (left_id_L ∅ (∪)).
  - destruct row as [|v row]; simpl in Hlen; [lia|]. cbn [fill].
    rewrite IH by lia. rewrite dom_insert_L. simpl.
    by rewrite (assoc_L (∪)), (comm_L (∪) (list_to_set names)).
Qed.

Lemma fill_take names : ∀ row d,
  fill names (take (length names) row) d = fill names row d.
Proof.
  induction names as [|name names IH]; intros row d; [by destruct row|].
  destruct row as [|v row]; [done|]. simpl. apply IH.
Qed.

Lemma map_fields_dom f (d : dict) fields :
  dom (TransformHelper.map_fields f d fields) = dom d.
Proof.
  apply set_eq. intros key.
  by rewrite !elem_of_dom, map_fields_lookup, fmap_is_Some.
Qed.

Lemma fill_strings names row :
  map_Forall (λ _ v, is_str v = true) (fill names row ∅).
Proof. apply (fill_values (λ v, is_str v = true)); [done|apply map_Forall_empty]. Qed.

Section decoders_further.
Import TransformHelper.

(** X1. The occurrence decoder is total on rows of 75 columns and purely
    positional: the mapping has exactly the 75 field names; a boolean field
    is true when the lower-cased column is [y] or [t] and false otherwise,
    never null; every other field is its column, null if the column is
    empty. *)
Theorem occurrences_dictify_positional row :
  length row = 75%nat →
  ∃ d, OccurencesHandler.dictify row = Ok d ∧
    dom d = list_to_set OccurencesHandler.fields ∧
    ∀ i name v,
      OccurencesHandler.fields !! i = Some name → row !! i = Some v →
      d !! name =
        Some (if bool_decide (name ∈ OccurencesHandler.boolean_fields)
              then VBool (bool_decide (lower v ∈ true_values_default))
              else empty_to_none (VStr v)).
Proof.
  intros Hlen. unfold OccurencesHandler.dictify.
  rewrite bool_decide_false by (by intros []).
  rewrite pop_fields_enough by (rewrite Hlen; compute_done).
  cbn [mbind result_bind].
  rewrite transform_invalid_booleans_ok.
  2:{ eapply map_Forall_impl; [apply fill_strings|]. by intros k v Hv _. }
  cbn [mbind result_bind]. eexists. split; [done|]. split.
  - unfold transform_empty_to_none.
    rewrite !map_fields_dom, fill_dom by (rewrite Hlen; compute_done).
    by rewrite dom_empty_L, (right_id_L ∅ (∪)).
  - intros i name v Hname Hv. unfold transform_empty_to_none.
    rewrite map_fields_keys_lookup, map_fields_lookup.
    rewrite (fill_lookup _ row ∅ i name v); [|compute_done|done|done].
    cbn [fmap option_fmap option_map invalid_boolean]. by case_bool_decide.
Qed.

Lemma occurrences_dictify_positional_witness :
  ∃ d, OccurencesHandler.dictify (occurrence_row "OCC1" "guid-1") = Ok d ∧
    dom d = list_to_set OccurencesHandler.fields ∧
    ∀ i name v,
      OccurencesHandler.fields !! i = Some name →
      occurrence_row "OCC1" "guid-1" !! i = Some v →
      d !! name =
        Some (if bool_decide (name ∈ OccurencesHandler.boolean_fields)
              then VBool (bool_decide (lower v ∈ true_values_default))
              else empty_to_none (VStr v)).
Proof. apply occurrences_dictify_positional. reflexivity. Defined.

(** X2. The media decoder reads the first 13 columns only.  A row with at
    least 13 columns decodes to a mapping with exactly the 13 field names,
    each field being its column, null if the column is empty; the columns
    after the thirteenth do not matter. *)
Theorem media_dictify_positional row :
  (13 ≤ length row)%nat →
  ∃ d, MediaHandler.dictify row = Ok d ∧
    MediaHandler.dictify (take 13 row) = Ok d ∧
    dom d = list_to_set MediaHandler.fields ∧
    ∀ i name v,
      MediaHandler.fields !! i = Some name → row !! i = Some v →
      d !! name = Some (empty_to_none (VStr v)).
Proof.
  intros Hlen.
  rewrite (media_dictify_enough row) by done.
  rewrite (media_dictify_enough (take 13 row)) by (rewrite length_take; lia).
  cbn zeta. eexists. split; [done|]. split.
  { by rewrite (fill_take MediaHandler.fields row). }
  split.
  - unfold transform_empty_to_none.
    rewrite map_fields_dom, fill_dom by done.
    by rewrite dom_empty_L, (right_id_L ∅ (∪)).
  - intros i name v Hname Hv. unfold transform_empty_to_none.
    rewrite map_fields_keys_lookup.
    by rewrite (fill_lookup _ row ∅ i name v); [|compute_done|done|done].
Qed.

Lemma media_dictify_positional_witness :
  ∃ d, MediaHandler.dictify (media_row "OCC1" ++ ["extra"]) = Ok d ∧
    MediaHandler.dictify (take 13 (media_row "OCC1" ++ ["extra"])) = Ok d ∧
    dom d = list_to_set MediaHandler.fields ∧
    ∀ i name v,
      MediaHandler.fields !! i = Some name →
      (media_row "OCC1" ++ ["extra"]) !! i = Some v →
      d !! name = Some (empty_to_none (VStr v)).
Proof. apply media_dictify_positional. simpl. lia. Defined.

(** X3. A media row with fewer than 13 columns makes the decoder raise
    [IndexError], the exception of [pop] on an empty list, not the
    [ValueError] of the decoders that check the length. *)
Theorem media_dictify_too_short row :
  (length row < 13)%nat → MediaHandler.dictify row = Raise IndexError.
Proof.
  intros Hlen. unfold MediaHandler.dictify.
  by rewrite pop_fields_short.
Qed.

Lemma media_dictify_too_short_witness :
  MediaHandler.dictify ["OCC1"; "2020-01-01"] = Raise IndexError.
Proof. apply media_dictify_too_short. simpl. lia. Defined.

Section types_further.
Context `{Builtins}.

(** X4. The type decoder converts the first column before it reads any
    other: a first column that [int] rejects raises [ValueError] whatever
    the rest of the row is, an empty row raises [IndexError], and a row
    with an integer key but fewer than 19 columns raises [IndexError]. *)
Theorem types_dictify_failures v row :
  TypesHandler.dictify [] = Raise IndexError ∧
  (int_of_str v = None → TypesHandler.dictify (v :: row) = Raise ValueError) ∧
  (is_Some (int_of_str v) → (length row < 18)%nat →
     TypesHandler.dictify (v :: row) = Raise IndexError).
Proof.
  split_and!; [done| |].
  - intros Hv. unfold TypesHandler.dictify.
    cbn [pop0 mbind result_bind int]. by rewrite Hv.
  - intros [n Hv] Hlen. unfold TypesHandler.dictify.
    cbn [pop0 mbind result_bind int]. rewrite Hv. cbn [mbind result_bind].
    by rewrite pop_fields_short.
Qed.

(** X5. A type row with an integer first column and at least 19 columns
    decodes: the key is that integer, never null, and every other field is
    its column, null if the column is empty. *)
Theorem types_dictify_positional v row n :
  int_of_str v = Some n → (18 ≤ length row)%nat →
  ∃ d, TypesHandler.dictify (v :: row) = Ok d ∧
    dom d = {["occurrence_id"]} ∪ list_to_set TypesHandler.fields ∧
    d !! "occurrence_id" = Some (VInt n) ∧
    ∀ i name x,
      TypesHandler.fields !! i = Some name → row !! i = Some x →
      d !! name = Some (empty_to_none (VStr x)).
Proof.
  intros Hv Hlen. rewrite (types_dictify_enough v row n) by done.
  cbn zeta. eexists. split; [done|]. unfold transform_empty_to_none. split_and!.
  - rewrite map_fields_dom, fill_dom by done.
    rewrite dom_insert_L, dom_empty_L, (right_id_L ∅ (∪)).
    by rewrite (comm_L (∪)).
  - rewrite map_fields_keys_lookup, fill_lookup_other by compute_done.
    by rewrite lookup_insert_eq.
  - intros i name x Hname Hx. rewrite map_fields_keys_lookup.
    by rewrite (fill_lookup _ row _ i name x); [|compute_done|done|done].
Qed.

End types_further.

Lemma types_dictify_failures_witness :
  @TypesHandler.dictify plain_builtins ["OCC1"; "x"] = Raise ValueError ∧
  @TypesHandler.dictify plain_builtins ["7"; "x"] = Raise IndexError.
Proof.
  destruct (@types_dictify_failures plain_builtins "OCC1" ["x"]) as (_ & Hv & _).
  destruct (@types_dictify_failures plain_builtins "7" ["x"]) as (_ & _ & Hshort).
  split.
  - apply Hv. reflexivity.
  - apply Hshort; [eexists; reflexivity|simpl; lia].
Defined.

Lemma types_dictify_positional_witness :
  ∃ d, @TypesHandler.dictify plain_builtins ("7" :: replicate 18 "x") = Ok d ∧
    dom d = {["occurrence_id"]} ∪ list_to_set TypesHandler.fields ∧
    d !! "occurrence_id" = Some (VInt 7) ∧
    ∀ i name x,
      TypesHandler.fields !! i = Some name → replicate 18 "x" !! i = Some x →
      d !! name = Some (empty_to_none (VStr x)).
Proof.
  apply (@types_dictify_positional plain_builtins "7" (replicate 18 "x") 7).
  - reflexivity.
  - simpl. lia.
Defined.

End decoders_further.

Section annotations_further.
Import TransformHelper.

(** X6. The annotation decoder returns a mapping exactly for the rows of 34
    columns whose third column is not empty; every other row raises. *)
Theorem annotations_dictify_returns_iff row :
  raises (AnnotationsHandler.dictify row) = false ↔
  length row = 34%nat ∧ row !! 2%nat ≠ Some "".
Proof.
  split.
  - intros Hok. destruct (decide (length row = 34%nat)) as [Hlen|Hlen].
    + split; [done|]. intros H2. revert Hok.
      unfold AnnotationsHandler.dictify. rewrite bool_decide_false by lia.
      do 3 (destruct row as [|? row]; try discriminate Hlen).
      simpl in H2. by simplify_eq.
    + by rewrite annotations_dictify_wrong_length in Hok.
  - intros [Hlen H2].
    destruct (row_column row 2 Hlen) as [third H3]; [lia|].
    destruct third as [|c s]; [done|].
    set (k := (if isalpha c then 27 else 28)%nat).
    assert (k + 3 < 34)%nat as Hk by (subst k; destruct (isalpha c); lia).
    destruct (row_column row 3 Hlen) as [fam Hfam]; [lia|].
    destruct (row_column row k Hlen) as [by_ Hby]; [lia|].
    destruct (row_column row (k + 1) Hlen) as [day Hday]; [lia|].
    destruct (row_column row (k + 2) Hlen) as [month Hmonth]; [lia|].
    destruct (row_column row (k + 3) Hlen) as [year Hyear]; [lia|].
    destruct (annotations_dictify_fields row c s fam by_ day month year)
      as (d & -> & _); done.
Qed.

(** X7. A name in the month column: on a row of 34 columns with a
    non-empty third column, a month column that is not ["ICBN"] and starts
    with a letter becomes the annotator, replacing the annotator column;
    the month is null and the year keeps its column. *)
Theorem annotations_dictify_month_name row c s month year :
  length row = 34%nat →
  row !! 2%nat = Some (String c s) →
  let k := (if isalpha c then 27 else 28)%nat in
  row !! (k + 2)%nat = Some month →
  row !! (k + 3)%nat = Some year →
  month ≠ "ICBN" → month_is_name month = true →
  ∃ d, AnnotationsHandler.dictify row = Ok d ∧
    d !! "month_annotated" = Some VNone ∧
    d !! "annotated_by" = Some (VStr month) ∧
    d !! "year_annotated" = Some (empty_to_none (VStr year)).
Proof.
  intros Hlen H2 k Hmonth Hyear Hne Hname.
  assert (k + 3 < 34)%nat as Hk by (subst k; destruct (isalpha c); lia).
  destruct (row_column row 3 Hlen) as [fam Hfam]; [lia|].
  destruct (row_column row k Hlen) as [by_ Hby]; [lia|].
  destruct (row_column row (k + 1) Hlen) as [day Hday]; [lia|].
  destruct (annotations_dictify_fields row c s fam by_ day month year)
    as (d & Hd & _ & _ & _ & Hd1 & Hd2 & Hd3); try done.
  exists d. rewrite Hd1, Hd2, Hd3, Hname.
  by rewrite !decide_False by done.
Qed.

Lemma annotations_dictify_month_name_witness :
  ∃ d, AnnotationsHandler.dictify
         (annotation_row "42" "Asteraceae"
            ["ICBN"; "12"; "A. Smith"; "1999"; "refs"; "remarks"]) = Ok d ∧
    d !! "month_annotated" = Some VNone ∧
    d !! "annotated_by" = Some (VStr "A. Smith") ∧
    d !! "year_annotated" = Some (empty_to_none (VStr "1999")).
Proof.
  apply (annotations_dictify_month_name
           (annotation_row "42" "Asteraceae"
              ["ICBN"; "12"; "A. Smith"; "1999"; "refs"; "remarks"])
           "4" "2" "A. Smith" "1999");
    first [reflexivity | discriminate].
Defined.

(** ** TransformHelper *)

(** X8. The loose boolean with the default truthy tokens is true for the
    four strings [y], [Y], [t] and [T] and for no other string. *)
Theorem invalid_boolean_default_true s :
  invalid_boolean true_values_default (VStr s) = VBool true ↔
  s ∈ ["y"; "Y"; "t"; "T"].
Proof.
  assert (∀ c, lower_char c = "y"%char ∨ lower_char c = "t"%char →
               c ∈ ["y"; "Y"; "t"; "T"]%char) as Hchar.
  { intros c Hc.
    assert (bool_decide (lower_char c = "y"%char ∨ lower_char c = "t"%char) =
            bool_decide (c ∈ ["y"; "Y"; "t"; "T"]%char)) as Heq
      by (by destruct c as [[] [] [] [] [] [] [] []]; vm_compute).
    rewrite bool_decide_true in Heq by done.
    symmetry in Heq. by apply bool_decide_eq_true in Heq. }
  cbn [invalid_boolean]. split.
  - intros [= Hs%bool_decide_eq_true]. unfold true_values_default in Hs.
    destruct s as [|c [|c' s]]; simpl in Hs.
    + by repeat (apply elem_of_cons in Hs as [?|Hs]; [done|]);
        apply elem_of_nil in Hs.
    + assert (c ∈ ["y"; "Y"; "t"; "T"]%char) as Hc.
      { apply Hchar.
        repeat (apply elem_of_cons in Hs as [Hs|Hs]; [simplify_eq; eauto|]).
        by apply elem_of_nil in Hs. }
      repeat (apply elem_of_cons in Hc as [->|Hc]; [compute_done|]).
      by apply elem_of_nil in Hc.
    + by repeat (apply elem_of_cons in Hs as [?|Hs]; [done|]);
        apply elem_of_nil in Hs.
  - intros Hs. repeat (apply elem_of_cons in Hs as [->|Hs]; [by vm_compute|]).
    by apply elem_of_nil in Hs.
Qed.

(** X9. The order of the transforms matters.  On a mapping whose field is
    the empty string, the loose boolean followed by blank-to-null gives
    false, not null; blank-to-null followed by the loose boolean raises
    [AttributeError], as does the loose boolean applied twice. *)
Theorem transform_order_matters (d : dict) key :
  d !! key = Some (VStr "") →
  (∃ d', transform_invalid_booleans d [key] true_values_default = Ok d' ∧
     transform_empty_to_none d' (keys d') !! key = Some (VBool false) ∧
     transform_invalid_booleans d' [key] true_values_default = Raise AttributeError) ∧
  transform_invalid_booleans (transform_empty_to_none d (keys d)) [key]
    true_values_default = Raise AttributeError.
Proof.
  intros Hkey.
  assert (∀ d' : dict, (∃ v, d' !! key = Some v ∧ is_str v = false) →
    transform_invalid_booleans d' [key] true_values_default = Raise AttributeError)
    as Hraise.
  { intros d' (v & Hv & Hstr). unfold transform_invalid_booleans.
    rewrite bool_decide_false; [done|]. intros Hall.
    assert (is_str v = true) as Hv'.
    { apply (Hall key v Hv). by apply list_elem_of_singleton. }
    congruence. }
  split.
  - rewrite transform_invalid_booleans_ok.
    2:{ intros k v Hv ->%list_elem_of_singleton. by simplify_eq. }
    eexists. split; [done|]. split.
    + unfold transform_empty_to_none.
      rewrite map_fields_keys_lookup, map_fields_lookup, Hkey.
      cbn [fmap option_fmap option_map].
      by rewrite bool_decide_true by (by apply list_elem_of_singleton).
    + apply Hraise. eexists. rewrite map_fields_lookup, Hkey.
      cbn [fmap option_fmap option_map].
      by rewrite bool_decide_true by (by apply list_elem_of_singleton).
  - apply Hraise. exists VNone. unfold transform_empty_to_none.
    by rewrite map_fields_keys_lookup, Hkey.
Qed.

Lemma transform_order_matters_witness :
  let d : dict := <["imaged" := VStr ""]> ∅ in
  (∃ d', transform_invalid_booleans d ["imaged"] true_values_default = Ok d' ∧
     transform_empty_to_none d' (keys d') !! "imaged" = Some (VBool false) ∧
     transform_invalid_booleans d' ["imaged"] true_values_default
       = Raise AttributeError) ∧
  transform_invalid_booleans (transform_empty_to_none d (keys d)) ["imaged"]
    true_values_default = Raise AttributeError.
Proof.
  apply (transform_order_matters (<["imaged" := VStr ""]> ∅) "imaged").
  reflexivity.
Defined.

(** X10. Blank-to-null and question-mark-to-null are idempotent on any
    mapping and any field list. *)
Theorem transforms_to_none_idempotent (d : dict) fields :
  transform_empty_to_none (transform_empty_to_none d fields) fields =
    transform_empty_to_none d fields ∧
  transform_question_mark_to_none (transform_question_mark_to_none d fields) fields =
    transform_question_mark_to_none d fields.
Proof.
  assert (∀ v, question_mark_to_none (question_mark_to_none v) =
               question_mark_to_none v) as Hq.
  { intros [| | |s]; try done. unfold question_mark_to_none, py_eqb.
    case_bool_decide; [done|]. by rewrite bool_decide_false. }
  split; apply map_eq; intros key;
    unfold transform_empty_to_none, transform_question_mark_to_none;
    rewrite !map_fields_lookup; destruct (d !! key) as [v|]; try done; simpl;
    case_bool_decide; try done; by rewrite ?empty_to_none_idemp, ?Hq.
Qed.

End annotations_further.

(** ** Validator routines *)

Section validator_further.
Import Validator.
Context `{Builtins}.

(** X11. [validate_length] reports a string exactly when it is longer than
    the limit: a string of the limit's length passes, null always passes,
    and a field that passes leaves the validator as it was.  A field that
    is reported is appended to the errors of the entity. *)
Theorem validate_length_spec table_name key entity value occurrence_id length st :
  entity !! key = Some value →
  entity !! "occurrence_id" = Some occurrence_id →
  is_Some (errors st !! table_name) →
  str_or_none value →
  let too_long :=
    match value with
    | VStr s => bool_decide (Z.of_nat (String.length s) > length)
    | _ => false
    end in
  let error :=
    ("Value exceeds maximum length (" +:+ pretty length
       +:+ " chars) for key " +:+ key, value) in
  ∃ st',
    validate_length table_name key entity length st =
      (Ok (if too_long then Some error else None), st') ∧
    (too_long = false → st' = st) ∧
    (too_long = true →
       errors_of st' table_name occurrence_id =
         errors_of st table_name occurrence_id ++ [error]).
Proof.
  intros Hkey Hid Htable Hvalue too_long error.
  unfold validate_length, lift, getitem, mbind, prog_bind. rewrite Hkey.
  destruct Hvalue as [Hstr| ->].
  2:{ exists st. by split_and!. }
  destruct value as [| | |s]; try done. cbn [is_None negb len mret prog_ret].
  subst too_long. case_bool_decide as Hlong.
  - destruct (add_error_spec table_name occurrence_id error st Htable)
      as (st' & Hadd & Herrors & _).
    exists st'. rewrite Hid. fold error. rewrite Hadd. by split_and!.
  - exists st. by split_and!.
Qed.

(** X12. [validate_length] on a field that is missing raises [KeyError],
    and on a boolean or integer value raises [TypeError]; in both cases
    nothing is recorded. *)
Theorem validate_length_raises table_name key entity length st :
  (entity !! key = None →
     validate_length table_name key entity length st = (Raise KeyError, st)) ∧
  (∀ value, entity !! key = Some value → value ≠ VNone → is_str value = false →
     validate_length table_name key entity length st = (Raise TypeError, st)).
Proof.
  split.
  - intros Hkey. unfold validate_length, lift, getitem, mbind, prog_bind.
    by rewrite Hkey.
  - intros value Hkey Hnone Hstr.
    unfold validate_length, lift, getitem, mbind, prog_bind. rewrite Hkey.
    by destruct value.
Qed.

(** X13. [validate_fkey] reports an entity exactly when its key is not in
    the valid-key set.  A valid key leaves the validator as it was; an
    invalid one is appended to the errors recorded under that key. *)
Theorem validate_fkey_spec table_name entity occurrence_id valid_set st :
  entity !! "occurrence_id" = Some occurrence_id →
  sets st !! "valid_occurrence_ids" = Some valid_set →
  is_Some (errors st !! table_name) →
  let error := ("Invalid foreign key", occurrence_id) in
  ∃ st',
    validate_fkey table_name entity st =
      (Ok (if py_in occurrence_id valid_set then None else Some error), st') ∧
    (py_in occurrence_id valid_set = true → st' = st) ∧
    (py_in occurrence_id valid_set = false →
       errors_of st' table_name occurrence_id =
         errors_of st table_name occurrence_id ++ [error]).
Proof.
  intros Hid Hvalid Htable error.
  unfold validate_fkey, lift, getitem, mbind, prog_bind. rewrite Hvalid, Hid.
  destruct (py_in occurrence_id valid_set); cbn [negb].
  - exists st. by split_and!.
  - destruct (add_error_spec table_name occurrence_id error st Htable)
      as (st' & Hadd & Herrors & _).
    exists st'. fold error. rewrite Hadd. by split_and!.
Qed.

(** X14. [validate_unique], for any table and field: a value is reported
    exactly when it is not null and was seen before for that table and
    field; null is never a duplicate.  Afterwards the value is in the seen
    set, which loses nothing. *)
Theorem validate_unique_spec table_name key entity value occurrence_id st :
  entity !! key = Some value →
  entity !! "occurrence_id" = Some occurrence_id →
  is_Some (errors st !! table_name) →
  let set_key := table_name +:+ ":" +:+ key in
  let seen := default ∅ (sets st !! set_key) in
  let duplicate := negb (is_None value) && py_in value seen in
  let error := ("Duplicate " +:+ key +:+ " found", value) in
  ∃ st',
    validate_unique table_name key entity st =
      (Ok (if duplicate then Some error else None), st') ∧
    sets st' !! set_key = Some ({[ hkey value ]} ∪ seen) ∧
    (value = VNone → duplicate = false) ∧
    (duplicate = true →
       errors_of st' table_name occurrence_id =
         errors_of st table_name occurrence_id ++ [error]) ∧
    (duplicate = false → errors st' = errors st).
Proof.
  intros Hkey Hid Htable set_key seen duplicate error.
  destruct duplicate eqn:Hdup; subst duplicate.
  - destruct (validate_unique_duplicate table_name key entity value occurrence_id
                st Hkey Hid Htable Hdup) as (st' & Hunique & Herrors & Hsets & _).
    exists st'. split; [done|]. split_and!; try done.
    + rewrite Hsets. apply andb_true_iff in Hdup as [_ Hin].
      apply py_in_spec in Hin. subst seen. fold set_key in Hin |- *.
      destruct (sets st !! set_key) as [seen|]; simpl in *.
      * f_equal. symmetry. by apply subseteq_union_1_L, singleton_subseteq_l.
      * by apply not_elem_of_empty in Hin.
    + intros ->. by simpl in Hdup.
  - rewrite (validate_unique_fresh table_name key entity value st Hkey Hdup).
    eexists. split; [done|]. simpl. fold set_key. rewrite lookup_insert_eq.
    by split_and!.
Qed.

(** X15. [validate_integer] records a string that [int] rejects and
    returns the error, so the pass goes on; a string that [int] accepts, and
    null, leave the validator as it was. *)
Theorem validate_integer_spec table_name key entity value occurrence_id st :
  entity !! key = Some value →
  entity !! "occurrence_id" = Some occurrence_id →
  is_Some (errors st !! table_name) →
  let rejected :=
    match value with
    | VStr s => bool_decide (int_of_str s = None)
    | _ => false
    end in
  let error := ("Expected integer value for key " +:+ key, value) in
  ∃ st',
    validate_integer table_name key entity st =
      (Ok (if rejected then Some error else None), st') ∧
    (rejected = false → st' = st) ∧
    (rejected = true →
       errors_of st' table_name occurrence_id =
         errors_of st table_name occurrence_id ++ [error]).
Proof.
  intros Hkey Hid Htable rejected error.
  unfold validate_integer, try_except, lift, getitem, mbind, prog_bind.
  rewrite Hkey.
  destruct value as [|b|n|s]; cbn [is_None int mret prog_ret];
    try (exists st; by split_and!).
  subst rejected. destruct (int_of_str s) as [n|] eqn:Hs.
  - exists st. rewrite bool_decide_false by done. by split_and!.
  - rewrite bool_decide_true by done. cbn [is_ValueError]. rewrite Hid.
    destruct (add_error_spec table_name occurrence_id error st Htable)
      as (st' & Hadd & Herrors & _).
    exists st'. fold error. rewrite Hadd. by split_and!.
Qed.

End validator_further.

Lemma validate_length_spec_witness :
  Validator.validate_length "corpus_occurrences" "guid"
    (guid_entity "OCC1" "guid-1") 255 Validator.init = (Ok None, Validator.init).
Proof.
  destruct (validate_length_spec "corpus_occurrences" "guid"
              (guid_entity "OCC1" "guid-1") (VStr "guid-1") (VStr "OCC1") 255
              Validator.init) as (st' & Hrun & Hsame & _).
  - reflexivity.
  - reflexivity.
  - eexists. reflexivity.
  - left. reflexivity.
  - rewrite <- (Hsame eq_refl) at 2. exact Hrun.
Defined.

Lemma validate_length_raises_witness :
  Validator.validate_length "corpus_occurrences" "herbarium"
    (guid_entity "OCC1" "guid-1") 255 Validator.init
  = (Raise KeyError, Validator.init).
Proof.
  destruct (validate_length_raises "corpus_occurrences" "herbarium"
              (guid_entity "OCC1" "guid-1") 255 Validator.init) as [Hmissing _].
  apply Hmissing. reflexivity.
Defined.

Lemma validate_fkey_spec_witness :
  Validator.validate_fkey "corpus_media" (media_entity "OCC1")
    (Validator.set_sets (<["valid_occurrence_ids" := {[ VStr "OCC1" ]}]>)
       Validator.init)
  = (Ok None,
     Validator.set_sets (<["valid_occurrence_ids" := {[ VStr "OCC1" ]}]>)
       Validator.init).
Proof.
  destruct (validate_fkey_spec "corpus_media" (media_entity "OCC1") (VStr "OCC1")
              {[ VStr "OCC1" ]}
              (Validator.set_sets (<["valid_occurrence_ids" := {[ VStr "OCC1" ]}]>)
                 Validator.init)) as (st' & Hrun & Hsame & _).
  - reflexivity.
  - reflexivity.
  - eexists. reflexivity.
  - rewrite <- (Hsame eq_refl) at 2. exact Hrun.
Defined.

Lemma validate_unique_spec_witness :
  ∃ st',
    Validator.validate_unique "corpus_occurrences" "guid"
      (guid_entity "OCC1" "guid-1") Validator.init = (Ok None, st') ∧
    Validator.sets st' !! "corpus_occurrences:guid" = Some ({[ VStr "guid-1" ]} ∪ ∅).
Proof.
  destruct (validate_unique_spec "corpus_occurrences" "guid"
              (guid_entity "OCC1" "guid-1") (VStr "guid-1") (VStr "OCC1")
              Validator.init) as (st' & Hrun & Hseen & _).
  - reflexivity.
  - reflexivity.
  - eexists. reflexivity.
  - exists st'. split; [exact Hrun|exact Hseen].
Defined.

Lemma validate_integer_spec_witness :
  ∃ st',
    @Validator.validate_integer plain_builtins "corpus_types" "year_published"
      (<["year_published" := VStr "18xx"]> (<["occurrence_id" := VInt 7]> ∅))
      Validator.init
    = (Ok (Some ("Expected integer value for key year_published", VStr "18xx")), st').
Proof.
  destruct (@validate_integer_spec plain_builtins "corpus_types" "year_published"
              (<["year_published" := VStr "18xx"]> (<["occurrence_id" := VInt 7]> ∅))
              (VStr "18xx") (VInt 7) Validator.init) as (st' & Hrun & _).
  - reflexivity.
  - reflexivity.
  - eexists. reflexivity.
  - exists st'. exact Hrun.
Defined.

(** ** What validation keeps *)

Global Instance grows_preorder : PreOrder grows.
Proof.
  split.
  - intros st. split_and!; [done|done|]. intros name values Hname. by exists values.
  - intros st1 st2 st3 (H1 & H1' & H1'') (H2 & H2' & H2'').
    split_and!; [congruence|auto|].
    intros name values Hname.
    destruct (H1'' _ _ Hname) as (values2 & Hname2 & Hsub2).
    destruct (H2'' _ _ Hname2) as (values3 & Hname3 & Hsub3).
    exists values3. split; [done|]. by etrans.
Qed.

Lemma only_reports_grows st st' : only_reports st st' → grows st st'.
Proof.
  intros (Hsets & Hdom & Herrors). split_and!; [done|done|].
  intros name values Hname. exists values. by rewrite Hsets.
Qed.

Lemma set_sets_grows key (values : gset pyval) st :
  (∀ old, Validator.sets st !! key = Some old → old ⊆ values) →
  grows st (Validator.set_sets (<[key := values]>) st).
Proof.
  intros Hold. split_and!; [done|done|]. intros name old Hname. simpl.
  destruct (decide (key = name)) as [->|Hne].
  - rewrite lookup_insert_eq. eauto.
  - rewrite lookup_insert_ne by done. eauto.
Qed.

Section grows_facts.
Import Validator.
Context `{Builtins}.

Lemma validate_unique_grows table_name key entity :
  preserves grows (validate_unique table_name key entity).
Proof.
  intros st. unfold validate_unique, modify, lift, getitem.
  set (set_key := table_name +:+ ":" +:+ key).
  set (st1 := match sets st !! set_key with
              | Some _ => st | None => set_sets (<[set_key := ∅]>) st end).
  assert (grows st st1) as Hst1.
  { subst st1. destruct (sets st !! set_key) eqn:Hseen; [reflexivity|].
    apply set_sets_grows. intros old. by rewrite Hseen. }
  unfold mbind at 1, prog_bind at 1. fold st1.
  unfold mbind at 1, prog_bind at 1.
  destruct (entity !! key) as [value|]; [|done].
  unfold mbind at 1, prog_bind at 1.
  destruct (sets st1 !! set_key) as [seen|] eqn:Hseen; [|done].
  destruct (negb (is_None value) && py_in value seen).
  - unfold mbind at 1, prog_bind at 1.
    destruct (entity !! "occurrence_id") as [occurrence_id|]; [|done].
    unfold mbind, prog_bind.
    pose proof (add_error_only_reports table_name occurrence_id
                  ("Duplicate " +:+ key +:+ " found", value) st1) as Hadd.
    destruct (_add_error_for_entity _ _ _ st1) as [[[]|e] st2];
      simpl in *; by etrans; [|apply only_reports_grows].
  - unfold mbind, prog_bind. simpl. etrans; [exact Hst1|].
    apply set_sets_grows. intros old. rewrite Hseen. intros [= <-].
    unfold py_add. apply union_subseteq_r.
Qed.

Lemma validate_occurrence_grows entity :
  preserves grows (validate_occurrence entity).
Proof.
  unfold validate_occurrence.
  apply preserves_bind; [apply _|apply validate_unique_grows|intros e].
  apply preserves_bind; [apply _| |intros _].
  2:{ eapply preserves_weaken; [apply only_reports_grows|].
      apply validate_occurrence_checks_only_report. }
  destruct e as [e|]; [apply preserves_ret, _|].
  intros st. unfold mbind, prog_bind, lift, getitem, modify.
  destruct (sets st !! "valid_occurrence_ids") as [valid_set|] eqn:Hvalid;
    [|reflexivity].
  destruct (entity !! "occurrence_id") as [occurrence_id|]; [|reflexivity].
  simpl. apply set_sets_grows. intros old. rewrite Hvalid. intros [= <-].
  unfold py_add. apply union_subseteq_r.
Qed.

Lemma validate_type_only_reports entity :
  preserves only_reports (validate_type entity).
Proof. unfold validate_type. repeat preserves_step. Qed.

Lemma validate_annotation_only_reports entity :
  preserves only_reports (validate_annotation entity).
Proof. unfold validate_annotation. repeat preserves_step. Qed.

Lemma _validate_types_only_reports file :
  preserves only_reports (_validate_types file).
Proof.
  unfold _validate_types. repeat preserves_step. apply validate_type_only_reports.
Qed.

Lemma _validate_annotations_only_reports file :
  preserves only_reports (_validate_annotations file).
Proof.
  unfold _validate_annotations. repeat preserves_step.
  apply validate_annotation_only_reports.
Qed.

(** X16. The passes over the media, type and annotation files only report:
    whatever the files hold, and whether or not a pass raises, every value
    set, the valid-key set among them, is left exactly as it was, no table
    is added to the error report and no recorded error is lost. *)
Theorem dependent_passes_only_report media types annotations st :
  let st' := ((_validate_media media ;; _validate_types types ;;
               _validate_annotations annotations) st).2 in
  sets st' = sets st ∧
  valid_occurrence_ids st' = valid_occurrence_ids st ∧
  dom (errors st') = dom (errors st) ∧
  ∀ table_name entity_id error,
    error ∈ errors_of st table_name entity_id →
    error ∈ errors_of st' table_name entity_id.
Proof.
  intros st'.
  assert (only_reports st st') as (Hsets & Hdom & Herrors).
  { subst st'. revert st.
    repeat (apply preserves_bind; [apply _| |intros _]);
      auto using _validate_media_only_reports, _validate_types_only_reports,
        _validate_annotations_only_reports. }
  split_and!; try done. unfold valid_occurrence_ids. by rewrite Hsets.
Qed.

(** X17. The whole validation run never loses anything, whether it
    completes or raises: the error report keeps its tables and every error
    recorded before, and every value set keeps its elements, so a key once
    valid stays valid. *)
Theorem validate_corpus_grows occurrences media types annotations st :
  let st' := (validate_corpus occurrences media types annotations st).2 in
  dom (errors st') = dom (errors st) ∧
  (∀ table_name entity_id error,
     error ∈ errors_of st table_name entity_id →
     error ∈ errors_of st' table_name entity_id) ∧
  valid_occurrence_ids st ⊆ valid_occurrence_ids st'.
Proof.
  intros st'.
  assert (grows st st') as (Hdom & Herrors & Hsets).
  { subst st'. revert st. unfold validate_corpus.
    apply preserves_bind; [apply _| |intros _].
    { unfold _validate_occurrences.
      apply preserves_bind; [apply _|apply preserves_next_rows, _|intros rows].
      apply preserves_for_each; [apply _|intros row].
      apply preserves_bind; [apply _|apply preserves_lift, _|intros d].
      apply validate_occurrence_grows. }
    eapply preserves_weaken; [apply only_reports_grows|].
    repeat (apply preserves_bind; [apply _| |intros _]);
      auto using _validate_media_only_reports, _validate_types_only_reports,
        _validate_annotations_only_reports. }
  split_and!; [done|done|]. unfold valid_occurrence_ids.
  destruct (sets st !! "valid_occurrence_ids") as [valid_set|] eqn:Hvalid.
  - destruct (Hsets _ _ Hvalid) as (valid_set' & -> & Hsub). done.
  - simpl. apply empty_subseteq.
Qed.

End grows_facts.

(** ** Which occurrence files the validation pass gets through *)

Lemma initialised_grows st st' : grows st st' → initialised st → initialised st'.
Proof.
  intros (Hdom & _ & Hsets) [[valid_set Hvalid] Htables]. split.
  - destruct (Hsets _ _ Hvalid) as (valid_set' & -> & _). eauto.
  - intros table_name Hin. apply elem_of_dom. rewrite Hdom.
    apply elem_of_dom. auto.
Qed.

Lemma init_initialised : initialised Validator.init.
Proof.
  split; [by eexists|]. intros table_name Hin.
  repeat (apply elem_of_cons in Hin as [->|Hin]; [by eexists|]).
  by apply elem_of_nil in Hin.
Qed.

Section returns_facts.
Context {S : Type} (I : S → Prop).

Lemma returns_ret {A} (a : A) : returns I (mret a : prog S A).
Proof. intros st Hst. by exists a, st. Qed.

Lemma returns_bind {A B} (m : prog S A) (f : A → prog S B) :
  returns I m → (∀ a, returns I (f a)) → returns I (m ≫= f).
Proof.
  intros Hm Hf st Hst. destruct (Hm st Hst) as (a & st1 & Hrun & Hst1).
  destruct (Hf a st1 Hst1) as (b & st2 & Hrun2 & Hst2).
  exists b, st2. split; [|done]. by erewrite bind_ok.
Qed.

Lemma returns_for_each {A} (xs : list A) (body : A → prog S unit) :
  Forall (λ x, returns I (body x)) xs → returns I (for_each xs body).
Proof.
  induction 1 as [|x xs Hx _ IH]; cbn [for_each].
  - apply returns_ret.
  - apply returns_bind; [done|by intros _].
Qed.

End returns_facts.

Section occurrence_pass.
Import Validator TransformHelper.
Context `{Builtins}.

(** What the occurrence decoder makes of a row of 75 columns. *)
Lemma occurrences_dictify_lookup row :
  length row = 75%nat →
  ∃ d, OccurencesHandler.dictify row = Ok d ∧
    ∀ i name v,
      OccurencesHandler.fields !! i = Some name → row !! i = Some v →
      d !! name =
        Some (if bool_decide (name ∈ OccurencesHandler.boolean_fields)
              then VBool (bool_decide (lower v ∈ true_values_default))
              else empty_to_none (VStr v)).
Proof.
  intros Hlen. unfold OccurencesHandler.dictify.
  rewrite bool_decide_false by (by intros []).
  rewrite pop_fields_enough by (rewrite Hlen; compute_done).
  cbn [mbind result_bind].
  rewrite transform_invalid_booleans_ok.
  2:{ eapply map_Forall_impl; [apply fill_strings|]. by intros k v Hv _. }
  cbn [mbind result_bind]. eexists. split; [done|].
  intros i name v Hname Hv. unfold transform_empty_to_none.
  rewrite map_fields_keys_lookup, map_fields_lookup.
  rewrite (fill_lookup _ row ∅ i name v); [|compute_done|done|done].
  cbn [fmap option_fmap option_map invalid_boolean]. by case_bool_decide.
Qed.

(** A field of the decoder that is not a boolean holds a string or null. *)
Lemma occurrence_field_str_or_none row (d : dict) name :
  length row = 75%nat →
  (∀ i name v,
     OccurencesHandler.fields !! i = Some name → row !! i = Some v →
     d !! name =
       Some (if bool_decide (name ∈ OccurencesHandler.boolean_fields)
             then VBool (bool_decide (lower v ∈ true_values_default))
             else empty_to_none (VStr v))) →
  name ∈ OccurencesHandler.fields → name ∉ OccurencesHandler.boolean_fields →
  ∃ v, d !! name = Some v ∧ str_or_none v.
Proof.
  intros Hlen Hd [i Hi]%list_elem_of_lookup Hbool.
  destruct (lookup_lt_is_Some_2 row i) as [v Hv].
  { rewrite Hlen. apply lookup_lt_Some in Hi. revert Hi. by vm_compute. }
  rewrite (Hd i name v Hi Hv), bool_decide_false by done.
  eexists. split; [done|]. rewrite empty_to_none_str.
  case_decide; [by right|by left].
Qed.

Lemma validate_length_returns table_name key entity length :
  table_name ∈ ["corpus_occurrences"; "corpus_annotations";
                "corpus_media"; "corpus_types"] →
  is_Some (entity !! "occurrence_id") →
  (∃ v, entity !! key = Some v ∧ str_or_none v) →
  returns initialised (discard (validate_length table_name key entity length)).
Proof.
  intros Htable [occurrence_id Hid] (v & Hkey & Hv) st Hst.
  pose proof (validate_length_only_reports table_name key entity length st) as Hgrows.
  apply only_reports_grows in Hgrows.
  assert (∃ r st', validate_length table_name key entity length st = (Ok r, st'))
    as (r & st' & Hrun).
  { unfold validate_length, lift, getitem, mbind, prog_bind. rewrite Hkey.
    destruct Hv as [Hstr| ->]; [|by eexists _, _].
    destruct v as [| | |s]; try done. cbn [is_None negb len mret prog_ret].
    case_bool_decide; [|by eexists _, _]. rewrite Hid.
    destruct (add_error_spec table_name occurrence_id
                ("Value exceeds maximum length (" +:+ pretty length
                   +:+ " chars) for key " +:+ key, VStr s) st)
      as (st' & -> & _); [by apply Hst|]. by eexists _, _. }
  rewrite Hrun in Hgrows. exists (), st'. split.
  - unfold discard. by erewrite bind_ok.
  - by apply (initialised_grows st).
Qed.

(** A numeric check of a string never records anything: it passes or it
    raises. *)
Lemma validate_numeric_string table_name field (entity : dict) v st :
  entity !! field = Some (empty_to_none (VStr v)) →
  validate_numeric table_name field entity st =
  (if numeric_or_blank v then Ok None else Raise InvalidOperation, st).
Proof.
  intros Hfield. unfold numeric_or_blank.
  unfold validate_numeric, try_except, lift, getitem.
  unfold mbind at 1, prog_bind at 1. rewrite Hfield, empty_to_none_str.
  case_decide as Hblank.
  - by rewrite bool_decide_true by done.
  - rewrite bool_decide_false by done. cbn [is_None orb Decimal].
    unfold mbind, prog_bind. by destruct (decimal_of_str v).
Qed.

Lemma numeric_checks_run (entity : dict) (row : list string) table_name
    (fields : list string) (columns : list nat) st :
  Forall2 (λ field i, ∃ v, row !! i = Some v ∧
             entity !! field = Some (empty_to_none (VStr v))) fields columns →
  for_each fields (λ field, discard (validate_numeric table_name field entity)) st =
  (if forallb (λ i, from_option numeric_or_blank true (row !! i)) columns
   then Ok () else Raise InvalidOperation, st).
Proof.
  induction 1 as [|field i fields columns (v & Hv & Hfield) _ IH];
    cbn [for_each forallb]; [done|].
  rewrite Hv. cbn [from_option].
  pose proof (validate_numeric_string table_name field entity v st Hfield) as Hrun.
  destruct (numeric_or_blank v); cbn [andb].
  - erewrite bind_ok; [apply IH|]. unfold discard. by erewrite bind_ok.
  - erewrite bind_raise; [done|]. unfold discard. by erewrite bind_raise.
Qed.

Lemma validate_occurrence_decoded row d st :
  length row = 75%nat → OccurencesHandler.dictify row = Ok d → initialised st →
  ∃ st',
    validate_occurrence d st =
      (if occurrence_row_validates row then Ok () else Raise InvalidOperation, st') ∧
    (occurrence_row_validates row = true → initialised st').
Proof.
  intros Hlen Hd Hst.
  destruct (occurrences_dictify_lookup row Hlen) as (d' & Hd' & Hfields).
  rewrite Hd in Hd'. apply Ok_inj in Hd' as <-.
  pose proof (occurrence_field_str_or_none row d) as Hfield.
  destruct (Hfield "guid" Hlen Hfields) as (guid & Hguid & _); [compute_done..|].
  destruct (Hfield "occurrence_id" Hlen Hfields) as (occurrence_id & Hid & _);
    [compute_done..|].
  unfold occurrence_row_validates. rewrite bool_decide_true by done.
  cbn [andb]. unfold validate_occurrence.
  (* the uniqueness check of the guid *)
  assert (∃ e st1, validate_unique "corpus_occurrences" "guid" d st = (Ok e, st1) ∧
                   initialised st1) as (e & st1 & Hunique & Hst1).
  { pose proof (validate_unique_grows "corpus_occurrences" "guid" d st) as Hgrows.
    destruct (negb (is_None guid) &&
              py_in guid (default ∅ (sets st !! "corpus_occurrences:guid")))
      eqn:Hdup.
    - destruct (validate_unique_duplicate "corpus_occurrences" "guid" d guid
                  occurrence_id st Hguid Hid) as (st1 & Hrun & _); [|done|].
      { apply Hst. compute_done. }
      rewrite Hrun in Hgrows. eauto using initialised_grows.
    - pose proof (validate_unique_fresh "corpus_occurrences" "guid" d guid st
                    Hguid Hdup) as Hrun.
      rewrite Hrun in Hgrows. eauto using initialised_grows. }
  erewrite bind_ok by exact Hunique.
  (* the key joins the valid-key set *)
  assert (∃ st2, (if e is None then
                    valid_set ← (λ st, (getitem (sets st) "valid_occurrence_ids", st));
                    occurrence_id ← lift (getitem d "occurrence_id");
                    modify (set_sets
                      (<["valid_occurrence_ids" := py_add occurrence_id valid_set]>))
                  else mret ()) st1 = (Ok (), st2) ∧ initialised st2)
    as (st2 & Hadd & Hst2).
  { destruct e as [e|]; [by exists st1|].
    destruct Hst1 as [[valid_set Hvalid] Htables].
    unfold mbind, prog_bind, lift, getitem, modify. rewrite Hvalid, Hid.
    eexists. split; [done|]. split; [|done]. simpl.
    rewrite lookup_insert_eq. eauto. }
  erewrite bind_ok by exact Hadd.
  (* the length checks *)
  destruct (returns_for_each initialised occurrence_varchar_255_fields
              (λ field, discard (validate_length "corpus_occurrences" field d 255)))
    with (st := st2) as ([] & st3 & Hlengths & Hst3); [|done|].
  { apply Forall_forall. intros field Hin.
    apply validate_length_returns; [compute_done|eauto|].
    assert (Forall (λ field, field ∈ OccurencesHandler.fields ∧
                             field ∉ OccurencesHandler.boolean_fields)
              occurrence_varchar_255_fields) as Hall by compute_done.
    rewrite Forall_forall in Hall. destruct (Hall field Hin). by apply Hfield. }
  erewrite bind_ok by exact Hlengths.
  (* the numeric checks *)
  rewrite (numeric_checks_run d row "corpus_occurrences"
             occurrence_numeric_fields occurrence_numeric_columns).
  - exists st3. split; [done|]. by intros _.
  - assert (Forall2 (λ field i, OccurencesHandler.fields !! i = Some field ∧
                                field ∉ OccurencesHandler.boolean_fields)
              occurrence_numeric_fields occurrence_numeric_columns) as Hcolumns.
    { repeat constructor; compute_done. }
    eapply Forall2_impl; [exact Hcolumns|].
    intros field i [Hi Hbool].
    destruct (lookup_lt_is_Some_2 row i) as [v Hv].
    { rewrite Hlen. apply lookup_lt_Some in Hi. revert Hi. by vm_compute. }
    exists v. split; [done|].
    by rewrite (Hfields i field v Hi Hv), bool_decide_false.
Qed.

Lemma validate_occurrence_rows rows st :
  initialised st →
  let run := for_each rows (λ row,
               d ← lift (OccurencesHandler.dictify row);
               validate_occurrence d) st in
  (run.1 = Ok () ↔ forallb occurrence_row_validates rows = true) ∧
  (run.1 = Ok () → initialised run.2) ∧
  (run.1 = Ok () ∨ run.1 = Raise ValueError ∨ run.1 = Raise InvalidOperation).
Proof.
  revert st. induction rows as [|row rows IH]; intros st Hst; cbn zeta.
  { cbn [for_each forallb mret prog_ret fst snd]. by split_and!; [|done|left]. }
  cbn [for_each forallb].
  destruct (decide (length row = 75%nat)) as [Hlen|Hlen].
  - destruct (occurrences_dictify_lookup row Hlen) as (d & Hd & _).
    destruct (validate_occurrence_decoded row d st Hlen Hd Hst)
      as (st' & Hrun & Hst').
    assert ((lift (OccurencesHandler.dictify row) ≫= validate_occurrence) st =
            (if occurrence_row_validates row then Ok () else Raise InvalidOperation,
             st')) as Hrow.
    { erewrite bind_ok; [exact Hrun|]. unfold lift. by rewrite Hd. }
    destruct (occurrence_row_validates row); cbn [andb].
    + erewrite bind_ok by exact Hrow. apply IH. by apply Hst'.
    + erewrite bind_raise by exact Hrow. cbn [fst snd].
      split_and!; [split; discriminate|discriminate|by right; right].
  - erewrite bind_raise.
    2:{ erewrite bind_raise; [done|]. unfold lift.
        by rewrite occurrences_dictify_wrong_length. }
    unfold occurrence_row_validates. rewrite bool_decide_false by done.
    cbn [andb fst snd].
    split_and!; [split; discriminate|discriminate|by right; left].
Qed.

Lemma validate_occurrence_rows_run header rows st :
  initialised st →
  let run := _validate_occurrences (header :: rows) st in
  (run.1 = Ok () ↔ forallb occurrence_row_validates rows = true) ∧
  (run.1 = Ok () → initialised run.2).
Proof.
  intros Hst. unfold _validate_occurrences. erewrite bind_ok by reflexivity.
  destruct (validate_occurrence_rows rows st Hst) as (? & ? & _). by split.
Qed.

(** One row of the occurrence pass. *)
Lemma validate_occurrence_row row st :
  initialised st →
  ∃ st',
    (d ← lift (OccurencesHandler.dictify row); validate_occurrence d) st =
      (if occurrence_row_validates row then Ok ()
       else Raise (if bool_decide (length row = 75%nat)
                   then InvalidOperation else ValueError), st') ∧
    (occurrence_row_validates row = true → initialised st').
Proof.
  intros Hst. destruct (decide (length row = 75%nat)) as [Hlen|Hlen].
  - destruct (occurrences_dictify_lookup row Hlen) as (d & Hd & _).
    destruct (validate_occurrence_decoded row d st Hlen Hd Hst)
      as (st' & Hrun & Hst').
    exists st'. split; [|done]. rewrite bool_decide_true by done.
    erewrite bind_ok; [exact Hrun|]. unfold lift. by rewrite Hd.
  - exists st. unfold occurrence_row_validates.
    rewrite !bool_decide_false by done. cbn [andb]. split; [|done].
    erewrite bind_raise; [done|]. unfold lift.
    by rewrite occurrences_dictify_wrong_length.
Qed.

Lemma _validate_occurrences_cons header rows st :
  _validate_occurrences (header :: rows) st =
  for_each rows (λ row, d ← lift (OccurencesHandler.dictify row);
                        validate_occurrence d) st.
Proof. reflexivity. Qed.

(** The pass stops at the first row that does not validate. *)
Lemma validate_occurrence_rows_stop good bad rest st :
  initialised st →
  forallb occurrence_row_validates good = true →
  occurrence_row_validates bad = false →
  let body := λ row, d ← lift (OccurencesHandler.dictify row);
                     validate_occurrence d in
  (for_each (good ++ bad :: rest) body st).1 =
    Raise (if bool_decide (length bad = 75%nat)
           then InvalidOperation else ValueError) ∧
  for_each (good ++ bad :: rest) body st = for_each (good ++ [bad]) body st.
Proof.
  intros Hst Hgood Hbad body. revert st Hst.
  induction good as [|row good IH]; intros st Hst; cbn [app for_each].
  - destruct (validate_occurrence_row bad st Hst) as (st' & Hrun & _).
    rewrite Hbad in Hrun. fold (body bad) in Hrun.
    by rewrite !(bind_raise _ _ _ _ _ Hrun).
  - cbn [forallb] in Hgood. apply andb_true_iff in Hgood as [Hrow Hgood].
    destruct (validate_occurrence_row row st Hst) as (st' & Hrun & Hst').
    rewrite Hrow in Hrun. fold (body row) in Hrun.
    rewrite !(bind_ok _ _ _ _ _ Hrun). by apply IH; [|apply Hst'].
Qed.

(** X18. From an initialised validator, the occurrence pass over a file
    with a header completes exactly when every row has 75 columns and each
    of its seven numeric columns is blank or accepted by [Decimal]; it
    then leaves the validator initialised.  Otherwise it stops at the first
    other row, with [ValueError] for a wrong column count and
    [InvalidOperation] for a numeric column: the rows after that row are
    never read, and the result and the validator are those of the file cut
    after that row. *)
Theorem validate_occurrences_completes_iff header rows st :
  initialised st →
  let run := _validate_occurrences (header :: rows) st in
  (run.1 = Ok () ↔ forallb occurrence_row_validates rows = true) ∧
  (run.1 = Ok () → initialised run.2) ∧
  (run.1 = Ok () ∨ run.1 = Raise ValueError ∨ run.1 = Raise InvalidOperation) ∧
  (∀ good bad rest,
     rows = good ++ bad :: rest →
     forallb occurrence_row_validates good = true →
     occurrence_row_validates bad = false →
     run.1 = Raise (if bool_decide (length bad = 75%nat)
                    then InvalidOperation else ValueError) ∧
     run = _validate_occurrences (header :: good ++ [bad]) st).
Proof.
  intros Hst. rewrite _validate_occurrences_cons.
  destruct (validate_occurrence_rows rows st Hst) as (Hiff & Hinit & Hraises).
  split_and!; [done..|].
  intros good bad rest -> Hgood Hbad. rewrite _validate_occurrences_cons.
  by apply validate_occurrence_rows_stop.
Qed.

End occurrence_pass.

Lemma validate_occurrences_completes_iff_witness :
  let rows := (λ r, occurrence_row r.1 r.2) <$>
                [("OCC1", "guid-1"); ("OCC2", "guid-2")] in
  let run := @Validator._validate_occurrences plain_builtins
               (OccurencesHandler.fields :: rows) Validator.init in
  (run.1 = Ok () ↔
     forallb (@occurrence_row_validates plain_builtins) rows = true) ∧
  (run.1 = Ok () → initialised run.2) ∧
  (run.1 = Ok () ∨ run.1 = Raise ValueError ∨ run.1 = Raise InvalidOperation) ∧
  (∀ good bad rest,
     rows = good ++ bad :: rest →
     forallb (@occurrence_row_validates plain_builtins) good = true →
     @occurrence_row_validates plain_builtins bad = false →
     run.1 = Raise (if bool_decide (length bad = 75%nat)
                    then InvalidOperation else ValueError) ∧
     run = @Validator._validate_occurrences plain_builtins
             (OccurencesHandler.fields :: good ++ [bad]) Validator.init).
Proof.
  apply (@validate_occurrences_completes_iff plain_builtins
           OccurencesHandler.fields
           ((λ r, occurrence_row r.1 r.2) <$> [("OCC1", "guid-1"); ("OCC2", "guid-2")])
           Validator.init).
  apply init_initialised.
Defined.

(** A file whose second row has a latitude that [Decimal] rejects and whose
    third row is too short: the pass raises [InvalidOperation], for the
    second row, and ends as it does on the file cut after that row. *)
Example validate_occurrences_stops_example :
  let good := [occurrence_row "OCC1" "guid-1"] in
  let rest := [["short"]] in
  let run := @Validator._validate_occurrences plain_builtins
               (OccurencesHandler.fields :: good ++ bad_latitude_row :: rest)
               Validator.init in
  run.1 = Raise InvalidOperation ∧
  run = @Validator._validate_occurrences plain_builtins
          (OccurencesHandler.fields :: good ++ [bad_latitude_row]) Validator.init.
Proof.
  cbn zeta. rewrite !(@_validate_occurrences_cons plain_builtins).
  destruct (@validate_occurrence_rows_stop plain_builtins
              [occurrence_row "OCC1" "guid-1"] bad_latitude_row [["short"]]
              Validator.init init_initialised) as [Hraise Hcut];
    [by vm_compute..|].
  cbn zeta in Hraise, Hcut. rewrite bool_decide_true in Hraise by reflexivity.
  split; [exact Hraise|exact Hcut].
Qed.

(** ** Which media, type and annotation files validation gets through *)

Section dependent_passes.
Import Validator TransformHelper.
Context `{Builtins}.

Lemma returns_initialised {A} (m : prog state A) :
  preserves only_reports m →
  (∀ st, initialised st → ∃ a st', m st = (Ok a, st')) →
  returns initialised m.
Proof.
  intros Hreports Hruns st Hst. destruct (Hruns st Hst) as (a & st' & Hrun).
  exists a, st'. split; [done|]. apply (initialised_grows st); [|done].
  apply only_reports_grows. specialize (Hreports st). by rewrite Hrun in Hreports.
Qed.

Lemma returns_discard {A} (m : prog state A) :
  returns initialised m → returns initialised (discard m).
Proof.
  intros Hm st Hst. destruct (Hm st Hst) as (a & st' & Hrun & Hst').
  exists (), st'. split; [|done]. unfold discard. by erewrite bind_ok.
Qed.

Lemma validate_fkey_returns table_name (entity : dict) :
  table_name ∈ ["corpus_occurrences"; "corpus_annotations";
                "corpus_media"; "corpus_types"] →
  is_Some (entity !! "occurrence_id") →
  returns initialised (discard (validate_fkey table_name entity)).
Proof.
  intros Htable [occurrence_id Hid]. apply returns_discard, returns_initialised.
  { apply validate_fkey_only_reports. }
  intros st [[valid_set Hvalid] Htables].
  unfold validate_fkey. unfold mbind at 1 2, prog_bind at 1 2, lift, getitem.
  rewrite Hvalid, Hid. destruct (py_in occurrence_id valid_set); cbn [negb].
  - by eexists _, _.
  - destruct (add_error_spec table_name occurrence_id
                ("Invalid foreign key", occurrence_id) st)
      as (st' & Hadd & _); [by apply Htables|].
    eexists _, st'. by erewrite bind_ok.
Qed.

Lemma validate_integer_returns table_name key (entity : dict) :
  table_name ∈ ["corpus_occurrences"; "corpus_annotations";
                "corpus_media"; "corpus_types"] →
  is_Some (entity !! "occurrence_id") →
  (∃ v, entity !! key = Some v ∧ str_or_none v) →
  returns initialised (discard (validate_integer table_name key entity)).
Proof.
  intros Htable [occurrence_id Hid] (v & Hkey & Hv).
  apply returns_discard, returns_initialised.
  { apply validate_integer_only_reports. }
  intros st [_ Htables].
  destruct Hv as [Hstr| ->].
  - destruct v as [| | |s]; try done.
    destruct (int_of_str s) as [n|] eqn:Hs.
    + unfold validate_integer, try_except, lift, getitem, mbind, prog_bind.
      rewrite Hkey. cbn [is_None int]. rewrite Hs. by eexists _, _.
    + destruct (validate_integer_records table_name key entity s occurrence_id st)
        as (st' & Hrun & _); [done|done|done|by apply Htables|].
      by eexists _, _.
  - unfold validate_integer, lift, getitem, mbind, prog_bind.
    rewrite Hkey. by eexists _, _.
Qed.

Lemma validate_lengths_return table_name fields (entity : dict) length :
  table_name ∈ ["corpus_occurrences"; "corpus_annotations";
                "corpus_media"; "corpus_types"] →
  is_Some (entity !! "occurrence_id") →
  (∀ field, field ∈ fields → ∃ v, entity !! field = Some v ∧ str_or_none v) →
  returns initialised
    (for_each fields (λ field,
       discard (validate_length table_name field entity length))).
Proof.
  intros Htable Hid Hfields. apply returns_for_each, Forall_forall.
  intros field Hin. apply validate_length_returns; auto.
Qed.

Lemma validate_integers_return table_name fields (entity : dict) :
  table_name ∈ ["corpus_occurrences"; "corpus_annotations";
                "corpus_media"; "corpus_types"] →
  is_Some (entity !! "occurrence_id") →
  (∀ field, field ∈ fields → ∃ v, entity !! field = Some v ∧ str_or_none v) →
  returns initialised
    (for_each fields (λ field,
       discard (validate_integer table_name field entity))).
Proof.
  intros Htable Hid Hfields. apply returns_for_each, Forall_forall.
  intros field Hin. apply validate_integer_returns; auto.
Qed.

(** A field read by position holds a string or null. *)
Lemma decoded_str_or_none (fields row : list string) (d : dict) name :
  (length fields ≤ length row)%nat →
  (∀ i name v, fields !! i = Some name → row !! i = Some v →
               d !! name = Some (empty_to_none (VStr v))) →
  name ∈ fields → ∃ v, d !! name = Some v ∧ str_or_none v.
Proof.
  intros Hlen Hd [i Hi]%list_elem_of_lookup.
  destruct (lookup_lt_is_Some_2 row i) as [v Hv].
  { apply lookup_lt_Some in Hi. lia. }
  rewrite (Hd i name v Hi Hv). eexists. split; [done|].
  rewrite empty_to_none_str. case_decide; [by right|by left].
Qed.

Lemma media_dictify_lookup row :
  (13 ≤ length row)%nat →
  ∃ d, MediaHandler.dictify row = Ok d ∧
    ∀ i name v,
      MediaHandler.fields !! i = Some name → row !! i = Some v →
      d !! name = Some (empty_to_none (VStr v)).
Proof.
  intros Hlen. rewrite (media_dictify_enough row) by done.
  cbn zeta. eexists. split; [done|].
  intros i name v Hname Hv. unfold transform_empty_to_none.
  rewrite map_fields_keys_lookup.
  by rewrite (fill_lookup _ row ∅ i name v); [|compute_done|done|done].
Qed.

Lemma types_dictify_lookup v row n :
  int_of_str v = Some n → (18 ≤ length row)%nat →
  ∃ d, TypesHandler.dictify (v :: row) = Ok d ∧
    d !! "occurrence_id" = Some (VInt n) ∧
    ∀ i name x,
      TypesHandler.fields !! i = Some name → row !! i = Some x →
      d !! name = Some (empty_to_none (VStr x)).
Proof.
  intros Hv Hlen. rewrite (types_dictify_enough v row n) by done.
  cbn zeta. eexists. split; [done|]. unfold transform_empty_to_none. split.
  - rewrite map_fields_keys_lookup, fill_lookup_other by compute_done.
    by rewrite lookup_insert_eq.
  - intros i name x Hname Hx. rewrite map_fields_keys_lookup.
    by rewrite (fill_lookup _ row _ i name x); [|compute_done|done|done].
Qed.

Lemma validate_media_returns (entity : dict) :
  (∀ field, field ∈ MediaHandler.fields →
            ∃ v, entity !! field = Some v ∧ str_or_none v) →
  returns initialised (validate_media entity).
Proof.
  intros Hfields.
  assert (is_Some (entity !! "occurrence_id")) as Hid.
  { destruct (Hfields "occurrence_id") as (v & -> & _); [compute_done|done]. }
  assert (∀ fields, fields ⊆ MediaHandler.fields →
            ∀ field, field ∈ fields →
              ∃ v, entity !! field = Some v ∧ str_or_none v) as Hsub by auto.
  unfold validate_media.
  apply returns_bind; [|intros _; apply returns_bind;
    [|intros _; apply returns_bind; [|intros _]]].
  - apply validate_fkey_returns; [compute_done|done].
  - apply validate_length_returns; [compute_done|done|].
    apply Hfields. compute_done.
  - apply validate_lengths_return; [compute_done|done|].
    apply Hsub. compute_done.
  - apply validate_lengths_return; [compute_done|done|].
    apply Hsub. compute_done.
Qed.

Lemma validate_type_returns (entity : dict) :
  is_Some (entity !! "occurrence_id") →
  (∀ field, field ∈ TypesHandler.fields →
            ∃ v, entity !! field = Some v ∧ str_or_none v) →
  returns initialised (validate_type entity).
Proof.
  intros Hid Hfields.
  assert (∀ fields, fields ⊆ TypesHandler.fields →
            ∀ field, field ∈ fields →
              ∃ v, entity !! field = Some v ∧ str_or_none v) as Hsub by auto.
  unfold validate_type.
  apply returns_bind; [|intros _; apply returns_bind;
    [|intros _; apply returns_bind; [|intros _]]].
  - apply validate_fkey_returns; [compute_done|done].
  - apply validate_length_returns; [compute_done|done|].
    apply Hfields. compute_done.
  - apply validate_lengths_return; [compute_done|done|].
    apply Hsub. compute_done.
  - apply validate_integers_return; [compute_done|done|].
    apply Hsub. compute_done.
Qed.

Lemma validate_annotation_returns (entity : dict) :
  (∀ key, key ∈ "occurrence_id" :: annotation_varchar_255_fields ++
                  annotation_integer_fields →
          ∃ v, entity !! key = Some v ∧ str_or_none v) →
  returns initialised (validate_annotation entity).
Proof.
  intros Hfields.
  assert (is_Some (entity !! "occurrence_id")) as Hid.
  { destruct (Hfields "occurrence_id") as (v & -> & _); [|done].
    apply elem_of_cons. by left. }
  unfold validate_annotation.
  apply returns_bind; [|intros _; apply returns_bind; [|intros _]].
  - apply validate_fkey_returns; [compute_done|done].
  - apply validate_lengths_return; [compute_done|done|].
    intros field Hin. apply Hfields. apply elem_of_cons. right.
    apply elem_of_app. by left.
  - apply validate_integers_return; [compute_done|done|].
    intros field Hin. apply Hfields. apply elem_of_cons. right.
    apply elem_of_app. by right.
Qed.

(** A pass runs through exactly the files whose rows all decode, when
    validation returns on every decoded row. *)
Lemma decode_validate_rows (dictify : list string → result dict)
    (validate : dict → prog state unit) (accepted : list string → bool) :
  (∀ row, accepted row = true →
          ∃ d, dictify row = Ok d ∧ returns initialised (validate d)) →
  (∀ row, accepted row = false → raises (dictify row) = true) →
  ∀ rows st, initialised st →
    let run := for_each rows (λ row, d ← lift (dictify row); validate d) st in
    (run.1 = Ok () ↔ forallb accepted rows = true) ∧
    (run.1 = Ok () → initialised run.2).
Proof.
  intros Haccepted Hrejected rows.
  induction rows as [|row rows IH]; intros st Hst; cbn zeta.
  { cbn [for_each forallb mret prog_ret fst snd]. by split. }
  cbn [for_each forallb]. destruct (accepted row) eqn:Hrow; cbn [andb].
  - destruct (Haccepted row Hrow) as (d & Hd & Hvalidate).
    destruct (Hvalidate st Hst) as ([] & st' & Hrun & Hst').
    assert ((lift (dictify row) ≫= validate) st = (Ok (), st')) as Hstep.
    { erewrite bind_ok; [exact Hrun|]. unfold lift. by rewrite Hd. }
    erewrite bind_ok by exact Hstep. by apply IH.
  - specialize (Hrejected row Hrow).
    destruct (dictify row) as [d|e] eqn:Hd; [done|].
    erewrite bind_raise by reflexivity. cbn [fst snd]. by split; [split|].
Qed.

Lemma _validate_media_run header rows st :
  initialised st →
  let run := _validate_media (header :: rows) st in
  (run.1 = Ok () ↔ forallb media_row_accepted rows = true) ∧
  (run.1 = Ok () → initialised run.2).
Proof.
  intros Hst. unfold _validate_media. erewrite bind_ok by reflexivity.
  apply decode_validate_rows; [| |done]; intros row; unfold media_row_accepted.
  - intros Hlen%bool_decide_eq_true.
    destruct (media_dictify_lookup row Hlen) as (d & Hd & Hfields).
    exists d. split; [done|]. apply validate_media_returns. intros field.
    by apply (decoded_str_or_none MediaHandler.fields row).
  - intros Hlen%bool_decide_eq_false. unfold MediaHandler.dictify.
    by rewrite pop_fields_short by (simpl; lia).
Qed.

Lemma _validate_types_run header rows st :
  initialised st →
  let run := _validate_types (header :: rows) st in
  (run.1 = Ok () ↔ forallb type_row_accepted rows = true) ∧
  (run.1 = Ok () → initialised run.2).
Proof.
  intros Hst. unfold _validate_types. erewrite bind_ok by reflexivity.
  apply decode_validate_rows; [| |done]; intros [|v row]; try done;
    unfold type_row_accepted.
  - intros [[n Hv]%bool_decide_eq_true Hlen%bool_decide_eq_true]%andb_true_iff.
    destruct (types_dictify_lookup v row n Hv Hlen) as (d & Hd & Hid & Hfields).
    exists d. split; [done|]. apply validate_type_returns; [by rewrite Hid|].
    intros field. by apply (decoded_str_or_none TypesHandler.fields row).
  - destruct (int_of_str v) as [n|] eqn:Hv.
    + rewrite bool_decide_true by done. cbn [andb].
      intros Hlen%bool_decide_eq_false. unfold TypesHandler.dictify.
      cbn [pop0 mbind result_bind int]. rewrite Hv. cbn [mbind result_bind].
      by rewrite pop_fields_short by (simpl; lia).
    + intros _. by rewrite types_dictify_not_int.
Qed.

Lemma _validate_annotations_run header rows st :
  initialised st →
  let run := _validate_annotations (header :: rows) st in
  (run.1 = Ok () ↔ forallb annotation_row_accepted rows = true) ∧
  (run.1 = Ok () → initialised run.2).
Proof.
  intros Hst. unfold _validate_annotations. erewrite bind_ok by reflexivity.
  apply decode_validate_rows; [| |done]; intros row;
    unfold annotation_row_accepted.
  - intros [Hlen H2]%bool_decide_eq_true.
    destruct (annotations_dictify_checked row Hlen H2) as (d & Hd & Hfields).
    exists d. split; [done|]. by apply validate_annotation_returns.
  - intros Hrow%bool_decide_eq_false.
    destruct (decide (length row = 34%nat)) as [Hlen|Hlen].
    + unfold AnnotationsHandler.dictify. rewrite bool_decide_false by lia.
      do 3 (destruct row as [|? row]; try discriminate Hlen).
      match goal with
      | |- context [?third :: row] => destruct third as [|? ?]
      end; [done|]. destruct Hrow. by split.
    + by rewrite annotations_dictify_wrong_length.
Qed.

(** X19. From an initialised validator, each of the media, type and
    annotation passes over a file with a header completes exactly when
    every row decodes: at least 13 columns for media; a first column that
    [int] accepts and 18 more for types; 34 columns with a non-empty third
    for annotations.  No check on a decoded row can stop a pass: a bad key,
    an over-long value or a non-integer is recorded, not raised. *)
Theorem dependent_passes_complete_iff header rows st :
  initialised st →
  ((_validate_media (header :: rows) st).1 = Ok () ↔
     forallb media_row_accepted rows = true) ∧
  ((_validate_types (header :: rows) st).1 = Ok () ↔
     forallb type_row_accepted rows = true) ∧
  ((_validate_annotations (header :: rows) st).1 = Ok () ↔
     forallb annotation_row_accepted rows = true).
Proof.
  intros Hst. split_and!.
  - by apply _validate_media_run.
  - by apply _validate_types_run.
  - by apply _validate_annotations_run.
Qed.

(** X20. Validation of a corpus whose four files each have a header
    completes exactly when every occurrence row validates and every media,
    type and annotation row decodes; a corpus with an occurrence file
    that has no line at all raises [StopIteration]. *)
Theorem validate_corpus_completes_iff header1 occurrences header2 media
    header3 types header4 annotations st :
  initialised st →
  ((validate_corpus (header1 :: occurrences) (header2 :: media)
      (header3 :: types) (header4 :: annotations) st).1 = Ok () ↔
   forallb occurrence_row_validates occurrences = true ∧
   forallb media_row_accepted media = true ∧
   forallb type_row_accepted types = true ∧
   forallb annotation_row_accepted annotations = true) ∧
  (validate_corpus [] (header2 :: media) (header3 :: types)
     (header4 :: annotations) st).1 = Raise StopIteration.
Proof.
  intros Hst. split; [|done]. unfold validate_corpus.
  destruct (validate_occurrence_rows_run header1 occurrences st Hst)
    as [Ho Ho'].
  destruct (_validate_occurrences (header1 :: occurrences) st)
    as [[[]|e] st1] eqn:H1; cbn [fst snd] in Ho, Ho'.
  2:{ erewrite bind_raise by exact H1. cbn [fst]. rewrite <- Ho.
      split; [done|]. by intros [? _]. }
  erewrite bind_ok by exact H1. specialize (Ho' eq_refl).
  destruct (_validate_media_run header2 media st1 Ho') as [Hm Hm'].
  destruct (_validate_media (header2 :: media) st1)
    as [[[]|e] st2] eqn:H2; cbn [fst snd] in Hm, Hm'.
  2:{ erewrite bind_raise by exact H2. cbn [fst]. rewrite <- Hm.
      split; [done|]. by intros (_ & ? & _). }
  erewrite bind_ok by exact H2. specialize (Hm' eq_refl).
  destruct (_validate_types_run header3 types st2 Hm') as [Ht Ht'].
  destruct (_validate_types (header3 :: types) st2)
    as [[[]|e] st3] eqn:H3; cbn [fst snd] in Ht, Ht'.
  2:{ erewrite bind_raise by exact H3. cbn [fst]. rewrite <- Ht.
      split; [done|]. by intros (_ & _ & ? & _). }
  erewrite bind_ok by exact H3. specialize (Ht' eq_refl).
  destruct (_validate_annotations_run header4 annotations st3 Ht') as [Ha _].
  rewrite Ha, <- Ho, <- Hm, <- Ht. by intuition.
Qed.

End dependent_passes.

Lemma dependent_passes_complete_iff_witness :
  let rows := [media_row "OCC1"; "7" :: replicate 18 "x"] in
  ((Validator._validate_media (MediaHandler.fields :: rows) Validator.init).1 = Ok () ↔
     forallb media_row_accepted rows = true) ∧
  ((@Validator._validate_types plain_builtins (MediaHandler.fields :: rows)
      Validator.init).1 = Ok () ↔
     forallb (@type_row_accepted plain_builtins) rows = true) ∧
  ((@Validator._validate_annotations plain_builtins (MediaHandler.fields :: rows)
      Validator.init).1 = Ok () ↔
     forallb annotation_row_accepted rows = true).
Proof.
  apply (@dependent_passes_complete_iff plain_builtins MediaHandler.fields
           [media_row "OCC1"; "7" :: replicate 18 "x"] Validator.init).
  apply init_initialised.
Defined.

Lemma validate_corpus_completes_iff_witness :
  let occurrences := [occurrence_row "OCC1" "guid-1"] in
  let media := [media_row "OCC1"] in
  let types := ["7" :: replicate 18 "x"] in
  let annotations := [annotation_row "1" "Rosaceae" []] in
  ((@Validator.validate_corpus plain_builtins
      (OccurencesHandler.fields :: occurrences) (MediaHandler.fields :: media)
      (TypesHandler.fields :: types) (AnnotationsHandler.name_fields :: annotations)
      Validator.init).1 = Ok () ↔
   forallb (@occurrence_row_validates plain_builtins) occurrences = true ∧
   forallb media_row_accepted media = true ∧
   forallb (@type_row_accepted plain_builtins) types = true ∧
   forallb annotation_row_accepted annotations = true) ∧
  (@Validator.validate_corpus plain_builtins [] (MediaHandler.fields :: media)
     (TypesHandler.fields :: types) (AnnotationsHandler.name_fields :: annotations)
     Validator.init).1 = Raise StopIteration.
Proof.
  apply (@validate_corpus_completes_iff plain_builtins
           OccurencesHandler.fields [occurrence_row "OCC1" "guid-1"]
           MediaHandler.fields [media_row "OCC1"]
           TypesHandler.fields ["7" :: replicate 18 "x"]
           AnnotationsHandler.name_fields [annotation_row "1" "Rosaceae" []]
           Validator.init).
  apply init_initialised.
Defined.

(** ** Ingestion: aborted passes, commits and the row count *)

Lemma commits_app tr1 tr2 : commits (tr1 ++ tr2) = commits tr1 ++ commits tr2.
Proof. apply omap_app. Qed.

Lemma batch_events_commits outcome entities :
  commits (batch_events outcome entities) = [].
Proof. by destruct outcome. Qed.

Section base_handler_further.
Variable dictify : list string → result dict.
Variable execute_values : sink.
Variable valid_keys : gset pyval.
Variable table_name : option string.
Variable batch_size : Z.
Variable skip_fkey_validation : bool.
Variable no_commit : bool.

Abbreviation handle_rows :=
  (BaseHandler.handle_rows dictify execute_values valid_keys batch_size
     skip_fkey_validation no_commit).
Abbreviation handle :=
  (BaseHandler.handle dictify execute_values valid_keys table_name batch_size
     skip_fkey_validation no_commit).
Abbreviation row_decodes := (decodes dictify skip_fkey_validation).
Abbreviation kept := (forwarded skip_fkey_validation valid_keys).

Lemma handle_rows_raise bad rest e entities num_rows tr :
  dictify bad = Raise e →
  handle_rows (bad :: rest) entities num_rows tr = (Raise e, tr).
Proof.
  intros Hbad. cbn [BaseHandler.handle_rows].
  unfold mbind at 1, prog_bind at 1, lift at 1. by rewrite Hbad.
Qed.

Lemma handle_rows_abort (b : nat) good ds bad e :
  batch_size = Z.of_nat b → (0 < b)%nat →
  Forall2 row_decodes good ds → dictify bad = Raise e →
  ∀ entities num_rows tr, (length entities < b)%nat → ∃ ev,
    (∀ rest, handle_rows (good ++ bad :: rest) entities num_rows tr =
               (Raise e, tr ++ ev)) ∧
    executed ev = full_batches b (entities ++ kept ds).
Proof.
  intros Hbs Hb Hgood Hbad.
  induction Hgood as [|row d rows ds Hd _ IH]; intros entities num_rows tr Hlen.
  - exists []. split.
    + intros rest. rewrite app_nil_r. by apply handle_rows_raise.
    + assert (kept [] = []) as ->.
      { unfold forwarded. by destruct skip_fkey_validation. }
      rewrite app_nil_r.
      by destruct (full_batches_short b entities Hlen) as [-> _].
  - rewrite (forwarded_cons _ _ d ds), app_assoc.
    pose proof (forwarded_one_length valid_keys skip_fkey_validation d) as Hone.
    pose proof (λ rest, handle_rows_step dictify execute_values valid_keys
                  batch_size skip_fkey_validation no_commit row
                  (rows ++ bad :: rest) d entities num_rows tr Hd) as Hstep.
    cbn zeta in Hstep.
    set (entities1 := entities ++ kept [d]) in *.
    assert (length entities1 ≤ b)%nat as Hlen1
      by (subst entities1; rewrite length_app; lia).
    set (commit := if no_commit then [] else [ECommit]) in *.
    assert (executed commit = []) as Hc by (subst commit; by destruct no_commit).
    destruct (decide (Z.of_nat (length entities1) >= batch_size)) as [Hfull|Hfull].
    + assert (length entities1 = b) as Hb1 by lia.
      set (be := batch_events (execute_values (tr ++ [ECursor]) entities1)
                   entities1) in *.
      destruct (IH [] (S num_rows) ((tr ++ be) ++ commit))
        as (ev & Hrun & Hex); [simpl; lia|].
      destruct (full_batches_app b entities1 (kept ds) Hb Hb1) as [-> _].
      exists (be ++ commit ++ ev). split.
      * intros rest. cbn [app]. rewrite Hstep, bool_decide_true by done.
        rewrite Hrun. by rewrite <- !app_assoc.
      * subst be. by rewrite !executed_app, batch_events_executed, Hc, Hex.
    + destruct (IH entities1 (S num_rows) (tr ++ commit))
        as (ev & Hrun & Hex); [lia|].
      exists (commit ++ ev). split.
      * intros rest. cbn [app]. rewrite Hstep, bool_decide_false by done.
        rewrite Hrun. by rewrite <- !app_assoc.
      * by rewrite !executed_app, Hc, Hex.
Qed.

(** X21. A row that fails to decode aborts the pass with the decoder's
    exception.  With a batch size [b > 0], the sink has then been handed
    the full batches of the rows before it and nothing else: the rows held
    for the next batch are dropped, and the rows after the failing one are
    never read. *)
Theorem handle_decode_failure (b : nat) header good ds bad e tr :
  batch_size = Z.of_nat b → (0 < b)%nat →
  Forall2 row_decodes good ds → dictify bad = Raise e →
  ∃ ev,
    (∀ rest, handle (header :: good ++ bad :: rest) tr = (Raise e, tr ++ ev)) ∧
    executed ev = full_batches b (kept ds).
Proof.
  intros Hbs Hb Hgood Hbad.
  set (warn := if skip_fkey_validation
               then [ELogWarning "Skipping foreign key validation"] else []).
  destruct (handle_rows_abort b good ds bad e Hbs Hb Hgood Hbad [] 0%nat
              (tr ++ warn)) as (ev & Hrun & Hex); [simpl; lia|].
  exists (warn ++ ev). split.
  - intros rest. rewrite handle_run. cbn zeta. fold warn.
    by rewrite Hrun, <- app_assoc.
  - rewrite executed_app, Hex. subst warn. by destruct skip_fkey_validation.
Qed.

Lemma handle_rows_commits rows ds :
  Forall2 row_decodes rows ds →
  ∀ entities num_rows tr, ∃ entities' ev,
    handle_rows rows entities num_rows tr =
      (Ok (entities', (num_rows + length rows)%nat), tr ++ ev) ∧
    length (commits ev) = (if no_commit then 0 else length rows)%nat.
Proof.
  induction 1 as [|row d rows ds Hd _ IH]; intros entities num_rows tr.
  - exists entities, []. cbn [BaseHandler.handle_rows mret prog_ret].
    rewrite app_nil_r, Nat.add_0_r. split; [done|]. by destruct no_commit.
  - rewrite (handle_rows_step _ _ _ _ _ _ row rows d) by done. cbn zeta.
    set (entities1 := entities ++ kept [d]).
    set (commit := if no_commit then [] else [ECommit]).
    assert (length (commits commit) = if no_commit then 0 else 1)%nat as Hc
      by (subst commit; by destruct no_commit).
    replace (num_rows + length (row :: rows))%nat
      with (S num_rows + length rows)%nat by (simpl; lia).
    case_bool_decide.
    + set (be := batch_events _ entities1).
      destruct (IH [] (S num_rows) ((tr ++ be) ++ commit))
        as (entities' & ev & -> & Hcommits).
      exists entities', (be ++ commit ++ ev). rewrite <- !app_assoc.
      split; [done|]. subst be.
      rewrite !commits_app, batch_events_commits, !length_app, Hc, Hcommits.
      destruct no_commit; simpl; lia.
    + destruct (IH entities1 (S num_rows) (tr ++ commit))
        as (entities' & ev & -> & Hcommits).
      exists entities', (commit ++ ev). rewrite <- !app_assoc.
      split; [done|].
      rewrite !commits_app, !length_app, Hc, Hcommits.
      destruct no_commit; simpl; lia.
Qed.

(** X22. On a file whose rows all decode, the pass commits once per row
    read when [no_commit] is false and never otherwise, and its last event
    is the log line with the number of rows read, whatever the filter kept
    and whatever the sink answered.  The batch sent after the loop comes
    after every commit: when a batch size [b > 0] does not divide the
    number of kept rows, the trace ends with the bulk insert of the last
    rows and the log line. *)
Theorem handle_commits_and_log header rows ds tr :
  Forall2 row_decodes rows ds →
  ∃ ev, handle (header :: rows) tr = (Ok (), tr ++ ev) ∧
    length (commits ev) = (if no_commit then 0 else length rows)%nat ∧
    last ev = Some (ELogInfo (length rows) table_name) ∧
    ∀ b : nat, batch_size = Z.of_nat b → (0 < b)%nat →
      (length (kept ds) mod b ≠ 0)%nat →
      ∃ ev1 outcome,
        ev = ev1 ++ batch_events outcome (last_batch b (kept ds)) ++
               [ELogInfo (length rows) table_name].
Proof.
  intros Hrows. rewrite handle_run. cbn zeta.
  set (warn := if skip_fkey_validation
               then [ELogWarning "Skipping foreign key validation"] else []).
  destruct (handle_rows_commits rows ds Hrows [] 0%nat (tr ++ warn))
    as (entities & ev & Hloop & Hcommits).
  rewrite Hloop. cbn [Nat.add].
  set (final := if bool_decide (Z.of_nat (length entities) > 0)
                then batch_events
                       (execute_values (((tr ++ warn) ++ ev) ++ [ECursor]) entities)
                       entities
                else []).
  exists (warn ++ ev ++ final ++ [ELogInfo (length rows) table_name]).
  split_and!.
  - by rewrite <- !app_assoc.
  - rewrite !commits_app, !length_app, Hcommits.
    assert (commits warn = []) as -> by (subst warn; by destruct skip_fkey_validation).
    assert (commits final = []) as ->.
    { subst final. case_bool_decide; [apply batch_events_commits|done]. }
    simpl. lia.
  - by rewrite !app_assoc, last_snoc.
  - intros b Hbs Hb Hmod.
    destruct (handle_rows_batches dictify execute_values valid_keys batch_size
                skip_fkey_validation no_commit b rows ds Hbs Hb Hrows [] 0%nat
                (tr ++ warn)) as (ev' & Hloop' & _); [simpl; lia|].
    rewrite Hloop in Hloop'. cbn [app] in Hloop'.
    assert (entities = last_batch b (kept ds)) as Hheld by congruence.
    exists (warn ++ ev), (execute_values (((tr ++ warn) ++ ev) ++ [ECursor]) entities).
    subst final. rewrite bool_decide_true.
    + rewrite <- Hheld. by rewrite <- !app_assoc.
    + rewrite Hheld, last_batch_length by done. lia.
Qed.

Lemma handle_rows_every_row rows ds :
  batch_size ≤ 0 → Forall2 row_decodes rows ds →
  ∀ num_rows tr, ∃ ev,
    handle_rows rows [] num_rows tr =
      (Ok ([], (num_rows + length rows)%nat), tr ++ ev) ∧
    executed ev = (λ d, kept [d]) <$> ds.
Proof.
  intros Hbs. induction 1 as [|row d rows ds Hd _ IH]; intros num_rows tr.
  - exists []. cbn [BaseHandler.handle_rows mret prog_ret].
    by rewrite app_nil_r, Nat.add_0_r.
  - rewrite (handle_rows_step _ _ _ _ _ _ row rows d) by done. cbn zeta.
    rewrite bool_decide_true by lia. cbn [app].
    set (commit := if no_commit then [] else [ECommit]).
    assert (executed commit = []) as Hc by (subst commit; by destruct no_commit).
    set (be := batch_events _ (kept [d])).
    destruct (IH (S num_rows) ((tr ++ be) ++ commit)) as (ev & -> & Hex).
    exists (be ++ commit ++ ev). rewrite <- !app_assoc.
    replace (num_rows + length (row :: rows))%nat
      with (S num_rows + length rows)%nat by (simpl; lia).
    split; [done|]. subst be.
    by rewrite !executed_app, batch_events_executed, Hc, Hex.
Qed.

(** X23. With a batch size of zero or less, every row read triggers a bulk
    insert of its own: the sink is handed one list per row, holding the row
    if the filter kept it and empty otherwise, and nothing is left for
    after the loop. *)
Theorem handle_nonpositive_batch_size header rows ds tr :
  batch_size ≤ 0 → Forall2 row_decodes rows ds →
  ∃ ev, handle (header :: rows) tr = (Ok (), tr ++ ev) ∧
    executed ev = (λ d, kept [d]) <$> ds.
Proof.
  intros Hbs Hrows. rewrite handle_run. cbn zeta.
  set (warn := if skip_fkey_validation
               then [ELogWarning "Skipping foreign key validation"] else []).
  destruct (handle_rows_every_row rows ds Hbs Hrows 0%nat (tr ++ warn))
    as (ev & -> & Hex).
  rewrite bool_decide_false by (simpl; lia).
  exists (warn ++ ev ++ [ELogInfo (0 + length rows) table_name]).
  split; [by rewrite <- !app_assoc|].
  rewrite !executed_app, Hex. subst warn.
  destruct skip_fkey_validation; simpl; by rewrite app_nil_r.
Qed.

End base_handler_further.

Lemma handle_decode_failure_witness :
  ∃ ev,
    (∀ rest,
       BaseHandler.handle MediaHandler.dictify sink_accepts ∅ None (Z.of_nat 2)
         true true
         (MediaHandler.fields :: (media_row <$> ["A"; "B"; "C"]) ++ ["D"] :: rest)
         [] = (Raise IndexError, [] ++ ev)) ∧
    executed ev = full_batches 2 (forwarded true ∅ (media_entity <$> ["A"; "B"; "C"])).
Proof.
  apply (handle_decode_failure MediaHandler.dictify sink_accepts ∅ None
           (Z.of_nat 2) true true 2 MediaHandler.fields
           (media_row <$> ["A"; "B"; "C"]) (media_entity <$> ["A"; "B"; "C"])
           ["D"] IndexError []).
  - reflexivity.
  - lia.
  - apply media_rows_decode.
  - reflexivity.
Defined.

Lemma handle_commits_and_log_witness :
  ∃ ev,
    BaseHandler.handle MediaHandler.dictify sink_accepts ∅ None (Z.of_nat 2)
      true false (media_file ["A"; "B"; "C"]) [] = (Ok (), [] ++ ev) ∧
    length (commits ev) = 3%nat ∧
    last ev = Some (ELogInfo 3 None) ∧
    ∀ b : nat, Z.of_nat 2 = Z.of_nat b → (0 < b)%nat →
      (length (forwarded true ∅ (media_entity <$> ["A"; "B"; "C"])) mod b ≠ 0)%nat →
      ∃ ev1 outcome,
        ev = ev1 ++
             batch_events outcome
               (last_batch b (forwarded true ∅ (media_entity <$> ["A"; "B"; "C"]))) ++
             [ELogInfo 3 None].
Proof.
  exact (handle_commits_and_log MediaHandler.dictify sink_accepts ∅ None
           (Z.of_nat 2) true false MediaHandler.fields
           (media_row <$> ["A"; "B"; "C"]) (media_entity <$> ["A"; "B"; "C"]) []
           (media_rows_decode true ["A"; "B"; "C"])).
Defined.

Lemma handle_nonpositive_batch_size_witness :
  ∃ ev,
    BaseHandler.handle MediaHandler.dictify sink_accepts ∅ None 0
      false true (media_file ["A"; "B"]) [] = (Ok (), [] ++ ev) ∧
    executed ev = (λ d, forwarded false ∅ [d]) <$> (media_entity <$> ["A"; "B"]).
Proof.
  apply (handle_nonpositive_batch_size MediaHandler.dictify sink_accepts ∅ None
           0 false true MediaHandler.fields
           (media_row <$> ["A"; "B"]) (media_entity <$> ["A"; "B"]) []).
  - lia.
  - apply media_rows_decode.
Defined.

(** ** What a media record is reported for *)

Section media_report.
Import Validator TransformHelper.

Lemma validate_length_errors table_name key (entity : dict) occurrence_id length st :
  entity !! "occurrence_id" = Some occurrence_id →
  (∃ v, entity !! key = Some v ∧ str_or_none v) →
  is_Some (errors st !! table_name) →
  ∃ st', discard (validate_length table_name key entity length) st = (Ok (), st') ∧
    errors_of st' table_name occurrence_id =
      errors_of st table_name occurrence_id ++ length_errors [key] entity length ∧
    is_Some (errors st' !! table_name).
Proof.
  intros Hid (v & Hkey & Hv) Htable.
  unfold length_errors. cbn [omap list_omap]. rewrite Hkey.
  unfold discard, validate_length, lift, getitem, mbind, prog_bind.
  rewrite Hkey.
  destruct Hv as [Hstr| ->].
  2:{ exists st. by rewrite app_nil_r. }
  destruct v as [| | |s]; try done. cbn [is_None negb len mret prog_ret].
  case_bool_decide.
  - destruct (add_error_spec table_name occurrence_id
                ("Value exceeds maximum length (" +:+ pretty length
                   +:+ " chars) for key " +:+ key, VStr s) st Htable)
      as (st' & Hadd & Herrors & _ & Hdom & _).
    exists st'. rewrite Hid. cbn zeta. rewrite Hadd.
    split_and!; [done|done|].
    apply elem_of_dom. rewrite Hdom. by apply elem_of_dom.
  - exists st. by rewrite app_nil_r.
Qed.

Lemma validate_lengths_errors table_name fields (entity : dict) occurrence_id
    length :
  entity !! "occurrence_id" = Some occurrence_id →
  (∀ field, field ∈ fields → ∃ v, entity !! field = Some v ∧ str_or_none v) →
  ∀ st, is_Some (errors st !! table_name) →
  ∃ st',
    for_each fields (λ field,
      discard (validate_length table_name field entity length)) st = (Ok (), st') ∧
    errors_of st' table_name occurrence_id =
      errors_of st table_name occurrence_id ++ length_errors fields entity length ∧
    is_Some (errors st' !! table_name).
Proof.
  intros Hid. induction fields as [|field fields IH]; intros Hfields st Htable.
  { exists st. by rewrite app_nil_r. }
  destruct (validate_length_errors table_name field entity occurrence_id length st)
    as (st1 & Hrun1 & Herrors1 & Htable1); [done| |done|].
  { apply Hfields, elem_of_cons. by left. }
  destruct (IH (λ f Hf, Hfields f (list_elem_of_further _ _ _ Hf)) st1 Htable1)
    as (st2 & Hrun2 & Herrors2 & Htable2).
  exists st2. split_and!; [|rewrite Herrors2, Herrors1|done].
  - cbn [for_each]. by erewrite bind_ok by exact Hrun1.
  - rewrite <- app_assoc. f_equal.
    change (field :: fields) with ([field] ++ fields).
    unfold length_errors. by rewrite omap_app.
Qed.

(** X24. What [validate_media] records for a media record whose fields
    hold strings or null: an invalid key, then the licence if it is longer
    than 512 characters, then, in order, each other checked field longer
    than 255 characters.  The file name, file format and viewer format,
    listed as 124-character fields, are checked against 255 like the
    rest. *)
Theorem validate_media_errors (entity : dict) occurrence_id valid_set st :
  entity !! "occurrence_id" = Some occurrence_id →
  (∀ field, field ∈ MediaHandler.fields →
            ∃ v, entity !! field = Some v ∧ str_or_none v) →
  sets st !! "valid_occurrence_ids" = Some valid_set →
  is_Some (errors st !! "corpus_media") →
  ∃ st', validate_media entity st = (Ok (), st') ∧
    errors_of st' "corpus_media" occurrence_id =
      errors_of st "corpus_media" occurrence_id ++
      (if py_in occurrence_id valid_set then []
       else [("Invalid foreign key", occurrence_id)]) ++
      length_errors ["license"] entity 512 ++
      length_errors (media_varchar_255_fields ++ media_varchar_124_fields)
        entity 255.
Proof.
  intros Hid Hfields Hvalid Htable.
  assert (∀ fields, fields ⊆ MediaHandler.fields →
            ∀ field, field ∈ fields →
              ∃ v, entity !! field = Some v ∧ str_or_none v) as Hsub by auto.
  assert (∃ st0,
    discard (validate_fkey "corpus_media" entity) st = (Ok (), st0) ∧
    errors_of st0 "corpus_media" occurrence_id =
      errors_of st "corpus_media" occurrence_id ++
      (if py_in occurrence_id valid_set then []
       else [("Invalid foreign key", occurrence_id)]) ∧
    is_Some (errors st0 !! "corpus_media")) as (st0 & Hrun0 & Herrors0 & Htable0).
  { unfold discard, validate_fkey, lift, getitem, mbind, prog_bind.
    rewrite Hvalid, Hid.
    destruct (py_in occurrence_id valid_set); cbn [negb].
    - exists st. by rewrite app_nil_r.
    - destruct (add_error_spec "corpus_media" occurrence_id
                  ("Invalid foreign key", occurrence_id) st Htable)
        as (st0 & Hadd & Herrors & _ & Hdom & _).
      exists st0. cbn zeta. rewrite Hadd.
      split_and!; [done|done|].
      apply elem_of_dom. rewrite Hdom. by apply elem_of_dom. }
  destruct (validate_lengths_errors "corpus_media" ["license"] entity
              occurrence_id 512 Hid) with (st := st0)
    as (st1 & Hrun1 & Herrors1 & Htable1); [apply Hsub; compute_done|done|].
  destruct (validate_lengths_errors "corpus_media" media_varchar_255_fields entity
              occurrence_id 255 Hid) with (st := st1)
    as (st2 & Hrun2 & Herrors2 & Htable2); [apply Hsub; compute_done|done|].
  destruct (validate_lengths_errors "corpus_media" media_varchar_124_fields entity
              occurrence_id 255 Hid) with (st := st2)
    as (st3 & Hrun3 & Herrors3 & _); [apply Hsub; compute_done|done|].
  exists st3. split.
  - unfold validate_media. erewrite bind_ok by exact Hrun0.
    cbn [for_each] in Hrun1.
    destruct (discard (validate_length "corpus_media" "license" entity 512) st0)
      as [[[]|e] st1'] eqn:Hlicense.
    2:{ by erewrite bind_raise in Hrun1 by exact Hlicense. }
    erewrite bind_ok in Hrun1 by exact Hlicense.
    cbn [mret prog_ret] in Hrun1. injection Hrun1 as ->.
    erewrite bind_ok by exact Hlicense.
    by erewrite bind_ok by exact Hrun2.
  - rewrite Herrors3, Herrors2, Herrors1, Herrors0.
    unfold length_errors. rewrite omap_app. by rewrite <- !app_assoc.
Qed.

End media_report.

Lemma validate_media_errors_witness :
  ∃ st', Validator.validate_media (media_entity "OCC1") Validator.init = (Ok (), st') ∧
    errors_of st' "corpus_media" (VStr "OCC1") =
      errors_of Validator.init "corpus_media" (VStr "OCC1") ++
      (if py_in (VStr "OCC1") ∅ then []
       else [("Invalid foreign key", VStr "OCC1")]) ++
      length_errors ["license"] (media_entity "OCC1") 512 ++
      length_errors (Validator.media_varchar_255_fields ++
                     Validator.media_varchar_124_fields)
        (media_entity "OCC1") 255.
Proof.
  apply (validate_media_errors (media_entity "OCC1") (VStr "OCC1") ∅ Validator.init).
  - unfold media_entity. cbn zeta.
    unfold TransformHelper.transform_empty_to_none.
    by rewrite map_fields_keys_lookup.
  - intros field Hin.
    destruct (media_dictify_lookup (media_row "OCC1")) as (d & Hd & Hfields);
      [simpl; lia|].
    destruct (media_row_decodes true "OCC1") as [Hd' _].
    rewrite Hd in Hd'. apply Ok_inj in Hd' as <-.
    apply (decoded_str_or_none MediaHandler.fields (media_row "OCC1"));
      [simpl; lia|done|done].
  - reflexivity.
  - by eexists.
Defined.
